(** * Livestock preprocessing (v4g): a shallow embedding and its properties

    Source: [2_Scriptes/01_preprocess_livestock_data_generic_regions_v4g.py].

    The script reads a wide CSV (one column per year), canonicalises the
    labels, melts the year columns, derives the metrics [Stocks],
    [CH4_CO2e], [N2O_CO2e], [Total_CO2e] and [LSU], and writes one long
    table.  The embedding follows the script line by line:

    - Python [str] values are [string]s whose characters are read as code
      points below 256; the character classes ([str.isspace], [str.lower],
      the [\w] of [re], [str.isdigit]) are Python's on that range.
    - The regular expressions of the script are terms of a small regex
      type, run by a backtracking matcher.
    - Float arithmetic is a parameter (class [Arith]) with two instances:
      exact rationals with a missing value, and IEEE binary64.
    - A data frame is a list of records, in row order.
    - [main] runs in a state-and-exit monad over the file system. *)

From Stdlib Require Import Bool List ZArith NArith QArith Lia Lqa.
From Stdlib Require Import Ascii String.
From Stdlib Require Import Permutation Sorted.
From Stdlib Require Floats.SpecFloat.
Import ListNotations.

Open Scope bool_scope.
Open Scope string_scope.

(** ** Python [str] on code points below 256 *)

Module Str.

Definition code (c : ascii) : N := N_of_ascii c.

Definition between (lo hi n : N) : bool := (N.leb lo n) && (N.leb n hi).

(** [str.isspace] of one character: TAB..CR, FS..US and space, NEL, NBSP. *)
Definition isspace (c : ascii) : bool :=
  let n := code c in
  between 9 13 n || between 28 32 n || N.eqb n 133 || N.eqb n 160.

(** [str.lower] of one character: A-Z, and the Latin-1 capitals but the
    multiplication sign. *)
Definition lower_char (c : ascii) : ascii :=
  let n := code c in
  if between 65 90 n || (between 192 222 n && negb (N.eqb n 215))
  then ascii_of_N (n + 32) else c.

(** The [\w] class of [re] on [str] patterns. *)
Definition isword (c : ascii) : bool :=
  let n := code c in
  between 48 57 n || between 65 90 n || N.eqb n 95 || between 97 122 n
  || N.eqb n 170 || between 178 179 n || N.eqb n 181 || between 185 186 n
  || between 188 190 n || between 192 214 n || between 216 246 n
  || between 248 255 n.

(** [str.isdigit] of one character: 0-9 and the superscripts 1, 2, 3. *)
Definition isdigit_char (c : ascii) : bool :=
  let n := code c in
  between 48 57 n || between 178 179 n || N.eqb n 185.

Definition is_empty (s : string) : bool :=
  match s with EmptyString => true | String _ _ => false end.

Fixpoint lower (s : string) : string :=
  match s with
  | EmptyString => EmptyString
  | String c r => String (lower_char c) (lower r)
  end.

Fixpoint lstrip (s : string) : string :=
  match s with
  | EmptyString => EmptyString
  | String c r => if isspace c then lstrip r else s
  end.

Fixpoint rstrip (s : string) : string :=
  match s with
  | EmptyString => EmptyString
  | String c r =>
      let r' := rstrip r in
      if isspace c && is_empty r' then EmptyString else String c r'
  end.

(** [s.strip()] *)
Definition strip (s : string) : string := rstrip (lstrip s).

(** [p in s] *)
Fixpoint contains (p s : string) : bool :=
  prefix p s ||
  match s with
  | EmptyString => false
  | String _ r => contains p r
  end.

(** [s.startswith(p)] *)
Definition startswith (p s : string) : bool := prefix p s.

(** [s.isdigit()]: non-empty and every character a digit. *)
Fixpoint all_digits (s : string) : bool :=
  match s with
  | EmptyString => true
  | String c r => isdigit_char c && all_digits r
  end.

Definition isdigit (s : string) : bool := negb (is_empty s) && all_digits s.

(** [s[1:]] *)
Definition tail (s : string) : string :=
  match s with EmptyString => EmptyString | String _ r => r end.

(** [s.replace(old, new)] for a non-empty [old]: occurrences are taken
    from the left and do not overlap; [skip] counts the characters of the
    occurrence just replaced that are still to be passed over. *)
Fixpoint replace_from (old new : string) (skip : nat) (s : string) : string :=
  match s with
  | EmptyString => EmptyString
  | String c r =>
      match skip with
      | S k => replace_from old new k r
      | O =>
          if prefix old s
          then new ++ replace_from old new (String.length old - 1) r
          else String c (replace_from old new 0 r)
      end
  end.

Definition replace (old new s : string) : string := replace_from old new 0 s.

(** [re.sub(r"\s+", " ", s)]: every maximal run of whitespace becomes one
    space; [in_run] tells that the previous character was whitespace. *)
Fixpoint collapse_from (in_run : bool) (s : string) : string :=
  match s with
  | EmptyString => EmptyString
  | String c r =>
      if isspace c
      then (if in_run then collapse_from true r
            else String " " (collapse_from true r))
      else String c (collapse_from false r)
  end.

Definition collapse_ws (s : string) : string := collapse_from false s.

(** [int(s)] on a string of digits; the superscript digits pass
    [str.isdigit] but are refused by [int]. *)
Definition digit_val (c : ascii) : option Z :=
  let n := code c in
  if between 48 57 n then Some (Z.of_N n - 48)%Z else None.

Fixpoint parse_int_from (acc : Z) (s : string) : option Z :=
  match s with
  | EmptyString => Some acc
  | String c r =>
      match digit_val c with
      | Some d => parse_int_from (10 * acc + d)%Z r
      | None => None
      end
  end.

Definition parse_int (s : string) : option Z :=
  if is_empty s then None else parse_int_from 0%Z s.

(** [str.upper] of one character: a-z and the Latin-1 small letters.  The
    three characters whose upper case leaves the range (sharp s, micro
    sign, y with diaeresis) are kept: their upper case holds no ASCII
    letter but S S for the sharp s. *)
Definition upper_char (c : ascii) : ascii :=
  let n := code c in
  if between 97 122 n || (between 224 254 n && negb (N.eqb n 247))
  then ascii_of_N (n - 32) else c.

Fixpoint upper (s : string) : string :=
  match s with
  | EmptyString => EmptyString
  | String c r => String (upper_char c) (upper r)
  end.

(** [x in xs] for a list of strings *)
Definition mem (x : string) (xs : list string) : bool :=
  existsb (String.eqb x) xs.

End Str.

(** ** The fragment of [re] the script uses *)

Module Re.

Inductive regex : Type :=
| Eps                          (* the empty pattern *)
| Chr (c : ascii)              (* one literal character *)
| Seq (r1 r2 : regex)          (* r1 r2 *)
| Alt (r1 r2 : regex)          (* r1|r2 *)
| Opt (r : regex)              (* r? *)
| WordB                        (* \b *)
| Bol                          (* ^ *)
| Eol.                         (* $ *)

(** A literal word, character by character. *)
Fixpoint lit (s : string) : regex :=
  match s with
  | EmptyString => Eps
  | String c r => Seq (Chr c) (lit r)
  end.

(** Character equality, under [re.I] when [ic] is set. *)
Definition chr_eq (ic : bool) (p c : ascii) : bool :=
  if ic then Ascii.eqb (Str.lower_char p) (Str.lower_char c)
  else Ascii.eqb p c.

Definition word_before (prev : option ascii) : bool :=
  match prev with Some c => Str.isword c | None => false end.

Definition word_here (s : string) : bool :=
  match s with String c _ => Str.isword c | EmptyString => false end.

(** [$] without [re.M]: the end, or just before a final newline. *)
Definition at_eol (s : string) : bool :=
  match s with
  | EmptyString => true
  | String c EmptyString => Ascii.eqb c "010"%char
  | _ => false
  end.

(** [rmatch ic r prev s k]: can [r] match a prefix of [s], the character
    before [s] being [prev] ([None] at the start of the subject), so that
    the continuation [k] accepts what is left?  Every alternative is
    tried, as the backtracking engine does. *)
Fixpoint rmatch (ic : bool) (r : regex) (prev : option ascii) (s : string)
         (k : option ascii -> string -> bool) : bool :=
  match r with
  | Eps => k prev s
  | Chr p =>
      match s with
      | String c t => if chr_eq ic p c then k (Some c) t else false
      | EmptyString => false
      end
  | Seq r1 r2 => rmatch ic r1 prev s (fun p t => rmatch ic r2 p t k)
  | Alt r1 r2 => rmatch ic r1 prev s k || rmatch ic r2 prev s k
  | Opt r1 => rmatch ic r1 prev s k || k prev s
  | WordB => if xorb (word_before prev) (word_here s) then k prev s else false
  | Bol => match prev with None => k prev s | Some _ => false end
  | Eol => if at_eol s then k prev s else false
  end.

Definition accept_any (_ : option ascii) (_ : string) : bool := true.
Definition accept_end (_ : option ascii) (s : string) : bool := Str.is_empty s.

Fixpoint search_from (ic : bool) (r : regex) (prev : option ascii)
         (s : string) : bool :=
  rmatch ic r prev s accept_any ||
  match s with
  | EmptyString => false
  | String c t => search_from ic r (Some c) t
  end.

(** [bool(re.search(r, s))], with [re.I] when [ic]. *)
Definition search (ic : bool) (r : regex) (s : string) : bool :=
  search_from ic r None s.

(** [bool(re.fullmatch(r, s))] *)
Definition fullmatch (ic : bool) (r : regex) (s : string) : bool :=
  rmatch ic r None s accept_end.

End Re.

(** ** Float arithmetic as a parameter *)

Module Num.

(** What the script asks of a Python [float]. *)
Class Arith (V : Type) : Type := {
  of_Z : Z -> V;             (* an integer-valued literal or cell *)
  vadd : V -> V -> V;
  vsub : V -> V -> V;
  vmul : V -> V -> V;
  vdiv : V -> V -> V;        (* only ever by a non-zero literal *)
  vltb : V -> V -> bool;     (* [<] *)
  veqb : V -> V -> bool;     (* [==] *)
  visnan : V -> bool;        (* [pd.isna] *)
  vnan : V                   (* a missing cell *)
}.

(** The decimal literal [m / 10^k], e.g. [dec 272 1] for [27.2]: the
    quotient of two integers the type holds exactly, so that a correctly
    rounded division gives the literal's value. *)
Definition dec {V} `{Arith V} (m : Z) (k : nat) : V :=
  vdiv (of_Z m) (of_Z (10 ^ Z.of_nat k)).

(** Exact arithmetic: a rational, or [None] for a missing value. *)
Abbreviation exact := (option Q) (only parsing).

Definition lift2 (f : Q -> Q -> Q) (x y : exact) : exact :=
  match x, y with
  | Some a, Some b => Some (f a b)
  | _, _ => None
  end.

Definition test2 (f : Q -> Q -> bool) (x y : exact) : bool :=
  match x, y with
  | Some a, Some b => f a b
  | _, _ => false
  end.

Definition exact_div (x y : exact) : exact :=
  match x, y with
  | Some a, Some b => if Qeq_bool b 0 then None else Some (a / b)%Q
  | _, _ => None
  end.

#[export] Instance exact_arith : Arith exact := {|
  of_Z := fun z => Some (inject_Z z);
  vadd := lift2 Qplus;
  vsub := lift2 Qminus;
  vmul := lift2 Qmult;
  vdiv := exact_div;
  vltb := test2 (fun a b => negb (Qle_bool b a));
  veqb := test2 Qeq_bool;
  visnan := fun x => match x with None => true | Some _ => false end;
  vnan := None
|}.

(** Equality of exact values: equal rationals, or both missing. *)
Definition exact_eq (x y : exact) : Prop :=
  match x, y with
  | Some a, Some b => (a == b)%Q
  | None, None => True
  | _, _ => False
  end.

(** IEEE 754 binary64, as specified by [SpecFloat]. *)
Definition binary64 : Type := SpecFloat.spec_float.
Definition prec : Z := 53.
Definition emax : Z := 1024.

Definition b64_isnan (x : binary64) : bool :=
  match x with SpecFloat.S754_nan => true | _ => false end.

#[export] Instance b64_arith : Arith binary64 := {|
  of_Z := fun z => SpecFloat.binary_normalize prec emax z 0 false;
  vadd := SpecFloat.SFadd prec emax;
  vsub := SpecFloat.SFsub prec emax;
  vmul := SpecFloat.SFmul prec emax;
  vdiv := SpecFloat.SFdiv prec emax;
  vltb := SpecFloat.SFltb;
  veqb := SpecFloat.SFeqb;
  visnan := b64_isnan;
  vnan := SpecFloat.S754_nan
|}.

End Num.

(** ** The script: reference data and label functions *)

Module Prep.

Import Num.

Definition ALL_ANIMALS_LIST : list string :=
  ["All animals"; "All animal"; "All livestock"; "Total animals"; "Animals, all"].

Definition AGGREGATE_LIST : list string :=
  ["Camels and Llamas"; "Cattle"; "Mules and Asses"; "Poultry Birds";
   "Sheep and Goats"; "Swine"].

Definition ATOMIC_LIST : list string :=
  ["Asses"; "Buffalo"; "Camels"; "Swine, breeding"; "Swine, market"; "Turkeys";
   "Cattle, dairy"; "Cattle, non-dairy"; "Chickens, broilers"; "Chickens, layers";
   "Ducks"; "Goats"; "Horses"; "Sheep"].

Definition EXCLUDE_ITEMS : list string :=
  map Str.lower ["Chickens"; "Mules and hinnies"; "(blank)"; ""].

Definition EU : list string :=
  ["Austria"; "Belgium"; "Bulgaria"; "Croatia"; "Cyprus"; "Czechia";
   "Czech Republic"; "Denmark"; "Estonia"; "Finland"; "France"; "Germany";
   "Greece"; "Hungary"; "Ireland"; "Italy"; "Latvia"; "Lithuania";
   "Luxembourg"; "Malta"; "Netherlands"; "Poland"; "Portugal"; "Romania";
   "Slovakia"; "Slovenia"; "Spain"; "Sweden"].

(** [EU.union({...})] *)
Definition EEA_PLUS_UK : list string :=
  EU ++ ["Iceland"; "Liechtenstein"; "Norway"; "United Kingdom"; "UK"].

Definition EUROPE_WIDE : list string :=
  ["Albania"; "Andorra"; "Armenia"; "Austria"; "Azerbaijan"; "Belarus";
   "Belgium"; "Bosnia and Herzegovina"; "Bulgaria"; "Croatia"; "Cyprus";
   "Czechia"; "Czech Republic"; "Denmark"; "Estonia"; "Finland"; "France";
   "Georgia"; "Germany"; "Greece"; "Hungary"; "Iceland"; "Ireland"; "Italy";
   "Kazakhstan"; "Kosovo"; "Latvia"; "Liechtenstein"; "Lithuania";
   "Luxembourg"; "Malta"; "Moldova"; "Monaco"; "Montenegro"; "Netherlands";
   "North Macedonia"; "Norway"; "Poland"; "Portugal"; "Romania"; "Russia";
   "San Marino"; "Serbia"; "Slovakia"; "Slovenia"; "Spain"; "Sweden";
   "Switzerland"; "Turkey"; "Ukraine"; "United Kingdom"; "UK"; "Vatican City"].

(** [detect_year_cols]: the columns named [Y<digits>]. *)
Definition is_year_col (c : string) : bool :=
  Str.startswith "Y" c && Str.isdigit (Str.tail c).

Definition detect_year_cols (cols : list string) : list string :=
  filter is_year_col cols.

(** The values of [ElementNorm]: "Stocks", "CH4", "N2O". *)
Inductive Element : Type := EStocks | ECH4 | EN2O.

Definition element_eqb (a b : Element) : bool :=
  match a, b with
  | EStocks, EStocks | ECH4, ECH4 | EN2O, EN2O => true
  | _, _ => false
  end.

(** [(^stocks?$|\bstock\b)] *)
Definition stocks_pat : Re.regex :=
  Re.Alt (Re.Seq Re.Bol (Re.Seq (Re.lit "stock") (Re.Seq (Re.Opt (Re.Chr "s")) Re.Eol)))
         (Re.Seq Re.WordB (Re.Seq (Re.lit "stock") Re.WordB)).

(** [\b(ch4|methane)\b] *)
Definition ch4_pat : Re.regex :=
  Re.Seq Re.WordB (Re.Seq (Re.Alt (Re.lit "ch4") (Re.lit "methane")) Re.WordB).

(** [\b(n2o|nitrous)\b] *)
Definition n2o_pat : Re.regex :=
  Re.Seq Re.WordB (Re.Seq (Re.Alt (Re.lit "n2o") (Re.lit "nitrous")) Re.WordB).

(** [normalize_element]; the result [None] is Python's [None]. *)
Definition normalize_element (e : string) : option Element :=
  let s := Str.lower (Str.strip e) in
  if Re.search true stocks_pat s then Some EStocks
  else if Re.search true ch4_pat s then Some ECH4
  else if Re.search true n2o_pat s then Some EN2O
  else None.

(** [\bnon-?dairy\b], [\bdairy\b], [\bother\b], all with [re.I]. *)
Definition _non_dairy_pat : Re.regex :=
  Re.Seq Re.WordB
    (Re.Seq (Re.lit "non") (Re.Seq (Re.Opt (Re.Chr "-")) (Re.Seq (Re.lit "dairy") Re.WordB))).

Definition _dairy_pat : Re.regex :=
  Re.Seq Re.WordB (Re.Seq (Re.lit "dairy") Re.WordB).

Definition _other_pat : Re.regex :=
  Re.Seq Re.WordB (Re.Seq (Re.lit "other") Re.WordB).

(** The local [low] of [canonical_item]. *)
Definition canonical_low (s : string) : string :=
  Str.collapse_ws (Str.replace "non dairy" "non-dairy" (Str.lower s)).

Definition canonical_item (item : string) : string :=
  let s := Str.strip item in
  let low := canonical_low s in
  if Str.contains "cattle" low || Str.contains "bovine" low then
    if Re.search true _non_dairy_pat low || Re.search true _other_pat low
    then "Cattle, non-dairy"
    else if Re.search true _dairy_pat low then "Cattle, dairy"
    else "Cattle"
  else s.

(** The values of the column [item_kind]. *)
Inductive Kind : Type := KAll | KAggregated | KAtomic.

Definition kind_name (k : Kind) : string :=
  match k with
  | KAll => "All"
  | KAggregated => "aggregated"
  | KAtomic => "atomic"
  end.

Definition kind_eqb (a b : Kind) : bool :=
  match a, b with
  | KAll, KAll | KAggregated, KAggregated | KAtomic, KAtomic => true
  | _, _ => false
  end.

Definition item_kind (label : string) : Kind :=
  let low := Str.lower (canonical_item label) in
  if Str.mem low (map Str.lower ALL_ANIMALS_LIST) then KAll
  else if Str.mem low (map Str.lower AGGREGATE_LIST) then KAggregated
  else if Str.mem low (map Str.lower ATOMIC_LIST) then KAtomic
  else KAtomic.

(** [is_livestock_total_element] *)
Definition is_livestock_total_element (label : string) : bool :=
  Re.search true (Re.lit "livestock") label && Re.search true (Re.lit "total") label.

(** [region_flags]: (Europe-wide, EU, EU+EEA+UK), in the source's order. *)
Definition region_flags (area : string) : bool * bool * bool :=
  let a := Str.strip area in
  (Str.mem a EUROPE_WIDE, Str.mem a EU, Str.mem a EEA_PLUS_UK).

Section Values.

Context {V : Type} `{Arith V}.

(** [gwp_pair]: the dictionary lookup with its default. *)
Definition gwp_pair (name : string) : V * V :=
  let key := Str.upper (Str.strip name) in
  if String.eqb key "AR4" then (of_Z 25, of_Z 298)
  else if String.eqb key "AR5" then (of_Z 28, of_Z 265)
  else if String.eqb key "AR6_NOCCF" then (dec 272 1, of_Z 273)
  else if String.eqb key "AR6_CCF" then (dec 298 1, of_Z 273)
  else (dec 272 1, of_Z 273).

Definition default_lsu_weight (item : string) : V :=
  let il := Str.lower (canonical_item item) in
  if Str.contains "dairy" il && Str.contains "cattle" il then of_Z 1
  else if Str.contains "cattle" il then dec 8 1
  else if Str.contains "buffalo" il then of_Z 1
  else if Str.contains "sheep" il || Str.contains "goat" il then dec 1 1
  else if Str.contains "pig" il || Str.contains "swine" il then dec 3 1
  else if Str.contains "poultry" il || Str.contains "chicken" il
          || Str.contains "turkey" il || Str.contains "duck" il then dec 1 2
  else if Str.contains "horse" il || Str.contains "equid" il then dec 8 1
  else of_Z 1.

End Values.


End Prep.

(** ** Data frames as lists of rows *)

Module Frame.

(** [df.empty] *)
Definition empty {A} (l : list A) : bool :=
  match l with [] => true | _ :: _ => false end.

(** Lexicographic combination of two comparisons. *)
Definition lex (c1 c2 : comparison) : comparison :=
  match c1 with Eq => c2 | _ => c1 end.

(** [False < True] *)
Definition bool_compare (a b : bool) : comparison :=
  match a, b with
  | false, true => Lt
  | true, false => Gt
  | _, _ => Eq
  end.

Definition is_le (c : comparison) : bool :=
  match c with Gt => false | _ => true end.

(** A stable sort: [x] goes in front of the first element it does not
    exceed, and the rows are inserted from the last to the first. *)
Fixpoint insert_by {A} (le : A -> A -> bool) (x : A) (l : list A) : list A :=
  match l with
  | [] => [x]
  | y :: t => if le x y then x :: l else y :: insert_by le x t
  end.

Fixpoint sort_by {A} (le : A -> A -> bool) (l : list A) : list A :=
  match l with
  | [] => []
  | x :: t => insert_by le x (sort_by le t)
  end.

(** Apply a partial function to every row; one failure fails the whole. *)
Fixpoint traverse {A B} (f : A -> option B) (l : list A) : option (list B) :=
  match l with
  | [] => Some []
  | x :: t =>
      match f x, traverse f t with
      | Some y, Some ys => Some (y :: ys)
      | _, _ => None
      end
  end.

(** The first value bound to a key in an association list. *)
Fixpoint assoc {A} (k : string) (l : list (string * A)) : option A :=
  match l with
  | [] => None
  | (k', v) :: t => if String.eqb k k' then Some v else assoc k t
  end.

End Frame.

(** ** The frames of [main] *)

Module Pipeline.

Import Num Prep Frame.

(** The values of the column [Metric]. *)
Inductive Metric_t : Type := MStocks | MCH4_CO2e | MN2O_CO2e | MTotal_CO2e | MLSU.

Definition metric_name (m : Metric_t) : string :=
  match m with
  | MStocks => "Stocks"
  | MCH4_CO2e => "CH4_CO2e"
  | MN2O_CO2e => "N2O_CO2e"
  | MTotal_CO2e => "Total_CO2e"
  | MLSU => "LSU"
  end.

(** A row of the CSV as [pd.read_csv] and [astype(str)] give it: the three
    labels as strings and the numeric cells by column name.  The labels of
    a table that lacks a label column are never read.

    The tables modelled are those whose year columns [read_csv] types as
    numbers: every cell a number or empty (one text cell makes the whole
    column text, and the products of lines 174, 217, 222 and 232 raise on
    text).  A label cell that is empty is the text "nan" after
    [astype(str)] in pandas before version 3, and is modelled as that
    text; pandas 3 keeps it missing (a Stocks row then carries a missing
    Area, which [groupby] drops), which no row of this type shows. *)
Record RawRow (V : Type) : Type := mkRaw {
  raw_Area : string;
  raw_Item : string;
  raw_Element : string;
  raw_cells : list (string * V)
}.
Arguments mkRaw {V}.
Arguments raw_Area {V}.
Arguments raw_Item {V}.
Arguments raw_Element {V}.
Arguments raw_cells {V}.

Record RawTable (V : Type) : Type := mkTable {
  columns : list string;
  rows : list (RawRow V)
}.
Arguments mkTable {V}.
Arguments columns {V}.
Arguments rows {V}.

(** The eight columns every metric frame keeps:
    [["Area","Item","Year","Value","item_kind","is_all","is_aggregated","is_atomic"]]. *)
Record Rec (V : Type) : Type := mkRec {
  Area : string;
  Item : string;
  Year : Z;
  Value : V;
  col_item_kind : Kind;
  is_all : bool;
  is_aggregated : bool;
  is_atomic : bool
}.
Arguments mkRec {V}.
Arguments Area {V}.
Arguments Item {V}.
Arguments Year {V}.
Arguments Value {V}.
Arguments col_item_kind {V}.
Arguments is_all {V}.
Arguments is_aggregated {V}.
Arguments is_atomic {V}.

(** A row of [df] once the flags are set (before [melt]). *)
Record DfRow (V : Type) : Type := mkDf {
  d_Area : string;
  d_Item : string;
  d_Element : string;
  d_ElementNorm : Element;
  d_item_kind : Kind;
  d_is_all : bool;
  d_is_aggregated : bool;
  d_is_atomic : bool;
  d_region_europe : bool;
  d_region_EU : bool;
  d_region_EUEEAUK : bool;
  d_cells : list (string * V)
}.
Arguments mkDf {V}.
Arguments d_Area {V}.
Arguments d_Item {V}.
Arguments d_Element {V}.
Arguments d_ElementNorm {V}.
Arguments d_item_kind {V}.
Arguments d_is_all {V}.
Arguments d_is_aggregated {V}.
Arguments d_is_atomic {V}.
Arguments d_region_europe {V}.
Arguments d_region_EU {V}.
Arguments d_region_EUEEAUK {V}.
Arguments d_cells {V}.

(** A row of [long]. *)
Record LongRow (V : Type) : Type := mkLong {
  l_rec : Rec V;
  l_Element : string;
  ElementNorm : Element;
  l_region_EU : bool;
  l_region_EUEEAUK : bool;
  l_region_europe : bool
}.
Arguments mkLong {V}.
Arguments l_rec {V}.
Arguments l_Element {V}.
Arguments ElementNorm {V}.
Arguments l_region_EU {V}.
Arguments l_region_EUEEAUK {V}.
Arguments l_region_europe {V}.

(** A row of a frame of [prepared]: the eight columns and [Metric]. *)
Record MRow (V : Type) : Type := mkM {
  m_rec : Rec V;
  Metric : Metric_t
}.
Arguments mkM {V}.
Arguments m_rec {V}.
Arguments Metric {V}.

(** A row of the written table: the twelve columns of [cols]. *)
Record OutRow (V : Type) : Type := mkOut {
  o_row : MRow V;
  region_EU : bool;
  region_EUEEAUK : bool;
  region_europe : bool
}.
Arguments mkOut {V}.
Arguments o_row {V}.
Arguments region_EU {V}.
Arguments region_EUEEAUK {V}.
Arguments region_europe {V}.

(** The command line, after [argparse].  A path is its list of
    components; the empty list is the empty string of [--output]. *)
Record Args (V : Type) : Type := mkArgs {
  input : list string;
  output : list string;
  gwp : string;
  split_cattle : string;
  dairy_share : V;
  only_livestock_total : string
}.
Arguments mkArgs {V}.
Arguments input {V}.
Arguments output {V}.
Arguments gwp {V}.
Arguments split_cattle {V}.
Arguments dairy_share {V}.
Arguments only_livestock_total {V}.

(** How a run ends early: [sys.exit(msg)], or an exception nobody catches. *)
Inductive Exit : Type :=
| SysExit (msg : string)
| Raised (exc : string).

(** The grouping key [["Area","Item","Year","item_kind","is_all","is_aggregated","is_atomic"]]. *)
Definition gkey : Type := string * string * Z * Kind * bool * bool * bool.

Definition kind_eq_dec (a b : Kind) : {a = b} + {a <> b}.
Proof. decide equality. Defined.

Definition gkey_eq_dec (a b : gkey) : {a = b} + {a <> b}.
Proof.
  repeat decide equality;
    solve [apply bool_dec | apply Z.eq_dec | apply string_dec | apply kind_eq_dec].
Defined.

Definition gkey_eqb (a b : gkey) : bool :=
  if gkey_eq_dec a b then true else false.

Definition gkey_compare (a b : gkey) : comparison :=
  let '(a1, a2, a3, a4, a5, a6, a7) := a in
  let '(b1, b2, b3, b4, b5, b6, b7) := b in
  lex (String.compare a1 b1)
   (lex (String.compare a2 b2)
    (lex (Z.compare a3 b3)
     (lex (String.compare (kind_name a4) (kind_name b4))
      (lex (bool_compare a5 b5)
       (lex (bool_compare a6 b6) (bool_compare a7 b7)))))).

Definition gkey_leb (a b : gkey) : bool := is_le (gkey_compare a b).

(** The key of the written table: (Area, Item, Year, Metric). *)
Definition okey : Type := string * string * Z * Metric_t.

Definition metric_eq_dec (a b : Metric_t) : {a = b} + {a <> b}.
Proof. decide equality. Defined.

Definition okey_compare (a b : okey) : comparison :=
  let '(a1, a2, a3, a4) := a in
  let '(b1, b2, b3, b4) := b in
  lex (String.compare a1 b1)
   (lex (String.compare a2 b2)
    (lex (Z.compare a3 b3)
     (String.compare (metric_name a4) (metric_name b4)))).

Definition okey_leb (a b : okey) : bool := is_le (okey_compare a b).

Section Stages.

Context {V : Type} `{Arith V}.

(** [str(x).strip().lower() in {"1","true","yes","y"}] *)
Definition truthy (s : string) : bool :=
  Str.mem (Str.lower (Str.strip s)) ["1"; "true"; "yes"; "y"].

(** Python's [min(a, b)] and [max(a, b)] of two floats: the first argument
    unless the second is strictly better. *)
Definition pymin (a b : V) : V := if vltb b a then b else a.
Definition pymax (a b : V) : V := if vltb a b then b else a.

(** [max(0.0, min(1.0, (args.dairy_share or 0.0)/100.0))] *)
Definition dairy_frac (args : Args V) : V :=
  let share := if veqb (dairy_share args) (of_Z 0) then of_Z 0 else dairy_share args in
  pymax (of_Z 0) (pymin (of_Z 1) (vdiv share (of_Z 100))).

(** Lines 123-126: the required columns that are missing, sorted. *)
Definition missing_columns (df : RawTable V) : list string :=
  filter (fun c => negb (Str.mem c (columns df))) ["Area"; "Element"; "Item"].

(** Lines 128-129: the three labels stripped. *)
Definition strip_labels (r : RawRow V) : RawRow V :=
  mkRaw (Str.strip (raw_Area r)) (Str.strip (raw_Item r))
        (Str.strip (raw_Element r)) (raw_cells r).

(** [Item.str.strip().str.lower().isin(EXCLUDE_ITEMS)] *)
Definition excluded (item : string) : bool :=
  Str.mem (Str.lower (Str.strip item)) EXCLUDE_ITEMS.

Definition set_raw_Item (f : string -> string) (r : RawRow V) : RawRow V :=
  mkRaw (raw_Area r) (f (raw_Item r)) (raw_Element r) (raw_cells r).

(** Lines 128-133: [df] with stripped labels, without the excluded items,
    and with canonical items. *)
Definition clean (rs : list (RawRow V)) : list (RawRow V) :=
  map (set_raw_Item canonical_item)
      (filter (fun r => negb (excluded (raw_Item r))) (map strip_labels rs)).

(** Lines 139-140: [ElementNorm], and the rows where it is not [None]. *)
Definition with_element_norm (rs : list (RawRow V)) : list (RawRow V * Element) :=
  flat_map (fun r => match normalize_element (raw_Element r) with
                     | Some e => [(r, e)]
                     | None => []
                     end) rs.

Definition mask_gases (e : Element) : bool :=
  match e with ECH4 | EN2O => true | EStocks => false end.

(** Line 144: [(~mask_gases) | (mask_gases & lt_mask)] *)
Definition lt_keep (re : RawRow V * Element) : bool :=
  negb (mask_gases (snd re))
  || (mask_gases (snd re) && is_livestock_total_element (raw_Element (fst re))).

(** Lines 141-144 *)
Definition restrict (only_lt : bool) (rs : list (RawRow V * Element))
  : list (RawRow V * Element) :=
  if only_lt then filter lt_keep rs else rs.

Definition kind_is (k k' : Kind) : bool :=
  if kind_eq_dec k k' then true else false.

(** Lines 147-156: the flags. *)
Definition with_flags (re : RawRow V * Element) : DfRow V :=
  let r := fst re in
  let k := item_kind (raw_Item r) in
  let '(europe, eu, eueeauk) := region_flags (raw_Area r) in
  mkDf (raw_Area r) (raw_Item r) (raw_Element r) (snd re)
       k (kind_is k KAll) (kind_is k KAggregated) (kind_is k KAtomic)
       europe eu eueeauk (raw_cells r).

(** Lines 128-156 as one: the frame [df] that is melted. *)
Definition flagged (only_lt : bool) (rs : list (RawRow V)) : list (DfRow V) :=
  map with_flags (restrict only_lt (with_element_norm (clean rs))).

(** The cell of a row in a year column; an absent cell is missing. *)
Definition cell (c : string) (r : DfRow V) : V :=
  match assoc c (d_cells r) with
  | Some v => v
  | None => vnan
  end.

(** [.astype(int)] of the text of one year: the integer it spells, when
    it fits the signed 64-bit integers of the column (with a 32-bit C
    long the bound is 2^31).  [None]: the conversion raises, [ValueError]
    for a text that [int] refuses, [OverflowError] for one too large. *)
Definition astype_int (s : string) : option Z :=
  match Str.parse_int s with
  | Some y => if Z.ltb y (2 ^ 63) then Some y else None
  | None => None
  end.

(** Lines 161-162, one row of [long]: [astype(int)] may raise. *)
Definition melt_row (cr : string * DfRow V) : option (LongRow V) :=
  let '(c, r) := cr in
  match astype_int (Str.tail c) with
  | Some y =>
      Some (mkLong (mkRec (d_Area r) (d_Item r) y (cell c r) (d_item_kind r)
                          (d_is_all r) (d_is_aggregated r) (d_is_atomic r))
                   (d_Element r) (d_ElementNorm r)
                   (d_region_EU r) (d_region_EUEEAUK r) (d_region_europe r))
  | None => None
  end.

(** [melt]: for each year column in turn, every row of [df] in order. *)
Definition melt (year_cols : list string) (df : list (DfRow V))
  : option (list (LongRow V)) :=
  traverse melt_row (list_prod year_cols df).

(** [long[long["ElementNorm"]==e][[...]]] *)
Definition select (e : Element) (long : list (LongRow V)) : list (Rec V) :=
  map l_rec (filter (fun r => element_eqb (ElementNorm r) e) long).

Definition set_Value (f : V -> V) (r : Rec V) : Rec V :=
  mkRec (Area r) (Item r) (Year r) (f (Value r))
        (col_item_kind r) (is_all r) (is_aggregated r) (is_atomic r).

Definition set_Item (f : string -> string) (r : Rec V) : Rec V :=
  mkRec (Area r) (f (Item r)) (Year r) (Value r)
        (col_item_kind r) (is_all r) (is_aggregated r) (is_atomic r).

(** [x["Value"] = x["Value"] * g] *)
Definition scale (g : V) (l : list (Rec V)) : list (Rec V) :=
  map (set_Value (fun v => vmul v g)) l.

Definition gkey_of (r : Rec V) : gkey :=
  (Area r, Item r, Year r, col_item_kind r, is_all r, is_aggregated r, is_atomic r).

Definition rec_of_key (k : gkey) (v : V) : Rec V :=
  let '(a, i, y, kd, b1, b2, b3) := k in mkRec a i y v kd b1 b2 b3.

(** The plain sum of a column in row order: missing values are skipped,
    an empty or all-missing column sums to 0. *)
Definition vsum_from (acc : V) (vs : list V) : V :=
  fold_left (fun acc v => if visnan v then acc else vadd acc v) vs acc.

Definition vsum (vs : list V) : V := vsum_from (of_Z 0) vs.

(** The sum of one group as [groupby(...).sum()] computes it (pandas'
    [group_sum], floats): in row order, missing values skipped, with a
    running compensation (Kahan) that is reset when it is not a number:
    [y = val - compensation; t = sumx + y;
     compensation = t - sumx - y; sumx = t].
    The state is (sumx, compensation), both 0 at the start. *)
Definition kahan_step (st : V * V) (val : V) : V * V :=
  let '(sumx, compensation) := st in
  if visnan val then st
  else
    let y := vsub val compensation in
    let t := vadd sumx y in
    let c := vsub (vsub t sumx) y in
    (t, if visnan c then of_Z 0 else c).

Definition group_sum (vs : list V) : V :=
  fst (fold_left kahan_step vs (of_Z 0, of_Z 0)).

Definition group_rows (k : gkey) (l : list (Rec V)) : list (Rec V) :=
  filter (fun r => gkey_eqb (gkey_of r) k) l.

(** The keys of a frame, each once, in sorted order. *)
Definition group_keys (ks : list gkey) : list gkey :=
  sort_by gkey_leb (nodup gkey_eq_dec ks).

(** [l.groupby([...], as_index=False)["Value"].sum()] *)
Definition groupby_sum (l : list (Rec V)) : list (Rec V) :=
  map (fun k => rec_of_key k (group_sum (map Value (group_rows k l))))
      (group_keys (map gkey_of l)).

(** The value of a grouped frame at a key; missing when the key is absent. *)
Definition value_at (k : gkey) (l : list (Rec V)) : V :=
  match group_rows k l with
  | r :: _ => Value r
  | [] => vnan
  end.

(** Line 189, [pd.merge(ch4_sum, n2o_sum, on=[...], how="outer")]: one row
    per key of either side (each side has a key once), keys sorted. *)
Definition merge_outer (l r : list (Rec V)) : list (gkey * V * V) :=
  map (fun k => (k, value_at k l, value_at k r))
      (group_keys (map gkey_of l ++ map gkey_of r)).

(** [.fillna(0.0)] of one cell *)
Definition fillna0 (v : V) : V := if visnan v then of_Z 0 else v.

(** Lines 187-191 *)
Definition total_co2e (ch4 n2o : list (Rec V)) : list (Rec V) :=
  map (fun t => let '(k, c, n) := t in rec_of_key k (vadd (fillna0 c) (fillna0 n)))
      (merge_outer (groupby_sum ch4) (groupby_sum n2o)).

Definition tag (m : Metric_t) (l : list (Rec V)) : list (MRow V) :=
  map (fun r => mkM r m) l.

(** Lines 216-219 and 221-224: a derived atomic row. *)
Definition derived (label : string) (f : V) (r : Rec V) : Rec V :=
  mkRec (Area r) label (Year r) (vmul (Value r) f) KAtomic false false true.

Definition atomic_mask (r : Rec V) : bool :=
  Str.mem (Item r) ["Cattle, dairy"; "Cattle, non-dairy"].

Definition ay_eqb (a b : string * Z) : bool :=
  String.eqb (fst a) (fst b) && Z.eqb (snd a) (snd b).

(** [set(sb.loc[atomic_mask, ["Area","Year"]].itertuples(...))] *)
Definition keys_atomic (sb : list (Rec V)) : list (string * Z) :=
  map (fun r => (Area r, Year r)) (filter atomic_mask sb).

(** [sb["Item"].str.fullmatch(r"(?i)cattle")] *)
Definition mask_generic (r : Rec V) : bool :=
  Re.fullmatch true (Re.lit "cattle") (Item r).

(** [(r["Area"], r["Year"]) not in keys_atomic] *)
Definition split_mask (sb : list (Rec V)) (r : Rec V) : bool :=
  negb (existsb (ay_eqb (Area r, Year r)) (keys_atomic sb)).

Definition to_split (sb : list (Rec V)) : list (Rec V) :=
  filter (split_mask sb) (filter mask_generic sb).

Definition keep_generic (sb : list (Rec V)) : list (Rec V) :=
  filter (fun r => negb (split_mask sb r)) (filter mask_generic sb).

Definition non_cattle (sb : list (Rec V)) : list (Rec V) :=
  filter (fun r => negb (mask_generic r)) sb.

(** The rows the split makes: [dairy] and [other]. *)
Definition dairy (frac : V) (sb : list (Rec V)) : list (Rec V) :=
  map (derived "Cattle, dairy" frac) (to_split sb).

Definition other (frac : V) (sb : list (Rec V)) : list (Rec V) :=
  map (derived "Cattle, non-dairy" (vsub (of_Z 1) frac)) (to_split sb).

(** Lines 199-228: [sb] after the guarded split; the column [Stocks] of
    the script is the field [Value] here. *)
Definition split_step (split : bool) (frac : V) (sb : list (Rec V)) : list (Rec V) :=
  if split then
    if empty (filter mask_generic sb) then sb
    else if empty (to_split sb) then non_cattle sb ++ keep_generic sb
    else non_cattle sb ++ keep_generic sb ++ dairy frac sb ++ other frac sb
  else sb.

(** Lines 231-232 *)
Definition weigh (r : Rec V) : Rec V :=
  set_Value (fun stocks => vmul stocks (default_lsu_weight (Item r))) r.

(** Lines 195-235: the frame [lsu]. *)
Definition lsu_frame (split : bool) (frac : V) (stocks : list (Rec V)) : list (Rec V) :=
  let sb := map (set_Item canonical_item) stocks in
  groupby_sum (map weigh (split_step split frac sb)).

(** Lines 164-235: the list [prepared] of frames. *)
Definition prepared (args : Args V) (long : list (LongRow V)) : list (list (MRow V)) :=
  let '(GWP_CH4, GWP_N2O) := gwp_pair (gwp args) in
  let stocks := select EStocks long in
  let ch4 := scale GWP_CH4 (select ECH4 long) in
  let n2o := scale GWP_N2O (select EN2O long) in
  (if empty stocks then [] else [tag MStocks stocks])
  ++ (if empty ch4 then [] else [tag MCH4_CO2e (groupby_sum ch4)])
  ++ (if empty n2o then [] else [tag MN2O_CO2e (groupby_sum n2o)])
  ++ (if empty ch4 && empty n2o then [] else [tag MTotal_CO2e (total_co2e ch4 n2o)])
  ++ (if empty stocks then []
      else [tag MLSU (lsu_frame (truthy (split_cattle args)) (dairy_frac args) stocks)]).

Definition okey_of (r : MRow V) : okey :=
  (Area (m_rec r), Item (m_rec r), Year (m_rec r), Metric r).

Definition set_m_Item (f : string -> string) (r : MRow V) : MRow V :=
  mkM (set_Item f (m_rec r)) (Metric r).

Definition with_regions (r : MRow V) : OutRow V :=
  let '(europe, eu, eueeauk) := region_flags (Area (m_rec r)) in
  mkOut r eu eueeauk europe.

(** Lines 240-254: the table handed to [to_csv]. *)
Definition finish (frames : list (list (MRow V))) : list (OutRow V) :=
  let out := sort_by (fun a b => okey_leb (okey_of a) (okey_of b)) (List.concat frames) in
  let out := map (set_m_Item canonical_item) out in
  let out := filter (fun r => negb (excluded (Item (m_rec r)))) out in
  map with_regions out.

(** Lines 128-162: the frame [long]; [None] when line 161 or 162 raises.
    [df.melt(..., value_name="Value")] raises [ValueError] when the frame
    already has a column of that name (pandas 2 and later); the columns
    the script adds before are not called so. *)
Definition long_frame (args : Args V) (df : RawTable V) : option (list (LongRow V)) :=
  if Str.mem "Value" (columns df) then None
  else melt (detect_year_cols (columns df))
            (flagged (truthy (only_livestock_total args)) (rows df)).

(** The exception of lines 161-162: the one of [melt], or the one of the
    first year that [astype(int)] refuses. *)
Definition melt_error (df : RawTable V) : string :=
  if Str.mem "Value" (columns df) then "ValueError"
  else
    match find (fun c => match astype_int (Str.tail c) with
                         | Some _ => false
                         | None => true
                         end) (detect_year_cols (columns df)) with
    | Some c => match Str.parse_int (Str.tail c) with
                | Some _ => "OverflowError"
                | None => "ValueError"
                end
    | None => "ValueError"
    end.

(** Lines 121-254 without the file system: the table written, or the way
    the run ends before writing. *)
Definition prepare (args : Args V) (df : RawTable V) : list (OutRow V) + Exit :=
  let missing := missing_columns df in
  if negb (empty missing)
  then inr (SysExit ("ERROR: CSV missing columns: " ++ String.concat ", " missing))
  else
    let year_cols := detect_year_cols (columns df) in
    if empty year_cols
    then inr (SysExit "ERROR: No year columns found (expected 'Y2010', 'Y2018', etc.)")
    else
      match long_frame args df with
      | None => inr (Raised (melt_error df))
      | Some long =>
          let frames := prepared args long in
          if empty frames then inr (SysExit "Nothing to write.")
          else inl (finish frames)
      end.

End Stages.

(** ** [main] over the file system *)

(** [cols], lines 251-253: the columns of the written table. *)
Definition cols : list string :=
  ["Area"; "Item"; "Year"; "Metric"; "Value";
   "item_kind"; "is_all"; "is_aggregated"; "is_atomic";
   "region_EU"; "region_EUEEAUK"; "region_europe"].

(** What [main] sees and changes.  A path is the list of the components
    of a resolved file name, so that two paths name the same file exactly
    when they are the same list.  [inputs]: the files that exist, each
    with the table [pd.read_csv] gives for it; [made_dirs]: the
    directories made by [mkdir]; [written]: the tables written by
    [to_csv], the latest first; [stdout]: the lines printed. *)
Record World (V : Type) : Type := mkWorld {
  inputs : list (list string * RawTable V);
  made_dirs : list (list string);
  written : list (list string * list (OutRow V));
  stdout : list string
}.
Arguments mkWorld {V}.
Arguments inputs {V}.
Arguments made_dirs {V}.
Arguments written {V}.
Arguments stdout {V}.

Section Main.

Context {V : Type} `{Arith V}.

(** A computation that changes the world and returns, or ends the run. *)
Definition M (A : Type) : Type := World V -> World V * (A + Exit).

Definition ret {A} (x : A) : M A := fun w => (w, inl x).

Definition bind {A B} (m : M A) (f : A -> M B) : M B :=
  fun w => match m w with
           | (w', inl x) => f x w'
           | (w', inr e) => (w', inr e)
           end.

Definition sys_exit {A} (msg : string) : M A := fun w => (w, inr (SysExit msg)).
Definition raise {A} (e : Exit) : M A := fun w => (w, inr e).

Notation "x <- m ;; k" := (bind m (fun x => k))
  (at level 61, m at next level, right associativity).
Notation "m ;;; k" := (bind m (fun _ => k))
  (at level 61, right associativity).

Definition path_eqb (p q : list string) : bool :=
  if list_eq_dec string_dec p q then true else false.

Fixpoint find_file (p : list string) (fs : list (list string * RawTable V))
  : option (RawTable V) :=
  match fs with
  | [] => None
  | (q, t) :: r => if path_eqb p q then Some t else find_file p r
  end.

Definition is_file (p : list string) (w : World V) : bool :=
  match find_file p (inputs w) with Some _ => true | None => false end.

(** [q] leads to [p]: it is [p] or one of the folders above it. *)
Fixpoint is_prefix (q p : list string) : bool :=
  match q, p with
  | [], _ => true
  | x :: q', y :: p' => String.eqb x y && is_prefix q' p'
  | _ :: _, [] => false
  end.

(** A directory that exists: the current one, one made by [mkdir] or
    above one, or one above a file. *)
Definition is_dir (p : list string) (w : World V) : bool :=
  empty p
  || existsb (is_prefix p) (made_dirs w)
  || existsb (fun f => is_prefix p (fst f) && negb (path_eqb p (fst f))) (inputs w).

(** [p] and the folders above it, the outermost first. *)
Definition ancestors (p : list string) : list (list string) :=
  map (fun k => firstn k p) (seq 1 (List.length p)).

(** [inp.exists()] *)
Definition path_exists (p : list string) : M bool :=
  fun w => (w, inl (is_file p w || is_dir p w)).

(** [outp.parent.mkdir(parents=True, exist_ok=True)]: raises when the
    folder or one above it is a file ([FileExistsError] for the folder
    itself, [NotADirectoryError] on POSIX for one above). *)
Definition mkdir_parents (p : list string) : M unit :=
  fun w => match find (fun q => is_file q w) (ancestors p) with
           | Some q =>
               (w, inr (Raised (if path_eqb q p then "FileExistsError"
                                else "NotADirectoryError")))
           | None =>
               (mkWorld (inputs w) (p :: made_dirs w) (written w) (stdout w), inl tt)
           end.

(** [pd.read_csv(inp)] *)
Definition read_csv (p : list string) : M (RawTable V) :=
  fun w => match find_file p (inputs w) with
           | Some t => (w, inl t)
           | None => (w, inr (Raised (if is_dir p w then "IsADirectoryError"
                                      else "FileNotFoundError")))
           end.

(** The written file as [pd.read_csv] gives it back to this script: the
    twelve columns of [cols], none of them "Element" or a year column,
    and the labels Area and Item of its rows. *)
Definition as_raw (out : list (OutRow V)) : RawTable V :=
  mkTable cols
    (map (fun r => mkRaw (Area (m_rec (o_row r))) (Item (m_rec (o_row r))) "" []) out).

(** [out[cols].to_csv(outp, index=False)]: raises when the path is a
    directory; otherwise the file at the path is created or replaced,
    also when it is the input. *)
Definition to_csv (p : list string) (out : list (OutRow V)) : M unit :=
  fun w =>
    if is_dir p w then (w, inr (Raised "IsADirectoryError"))
    else
      (mkWorld ((p, as_raw out)
                  :: filter (fun f => negb (path_eqb p (fst f))) (inputs w))
               (made_dirs w) ((p, out) :: written w) (stdout w), inl tt).

Definition print (line : string) : M unit :=
  fun w => (mkWorld (inputs w) (made_dirs w) (written w) (line :: stdout w), inl tt).

(** [Path.parent] *)
Definition parent (p : list string) : list string := removelast p.

(** [Path(args.output) if args.output else inp.parent / "livestock_PREPARED_long.csv"] *)
Definition outp (args : Args V) : list string :=
  if empty (output args)
  then parent (input args) ++ ["livestock_PREPARED_long.csv"]
  else output args.

(** [main]; the texts printed are shortened to their fixed part. *)
Definition main (args : Args V) : M unit :=
  found <- path_exists (input args) ;;
  if negb found then sys_exit "Input not found"
  else
    mkdir_parents (parent (outp args)) ;;;
    df <- read_csv (input args) ;;
    match prepare args df with
    | inr e => raise e
    | inl out =>
        to_csv (outp args) out ;;;
        print "Wrote prepared dataset (v4g)" ;;;
        print "Sample LSU cattle items"
    end.

End Main.

End Pipeline.


(** ** Concrete inputs and the words of the specification *)

Module Cases.

Import Num Prep Frame Pipeline.

Section Inputs.

Context {V : Type} `{Arith V}.

(** The defaults of [argparse]. *)
Definition default_args : Args V :=
  mkArgs ["1_Donnees"; "Emissions.csv"] [] "AR6_NOCCF" "true" (of_Z 35) "true".


Definition austria_cattle : RawRow V :=
  mkRaw "Austria" "Cattle" "Stock" [("Y2020", of_Z 100)].

Definition austria_dairy : RawRow V :=
  mkRaw "Austria" "Cattle, dairy" "Stock" [("Y2020", of_Z 10)].

Definition austria_enteric : RawRow V :=
  mkRaw "Austria" "Cattle" "Enteric fermentation" [("Y2020", of_Z 7)].

Definition header : list string := ["Area"; "Item"; "Element"; "Y2020"].

(** One generic cattle row. *)
Definition one_row : RawTable V := mkTable header [austria_cattle].

(** The generic row and an atomic row for the same country and year. *)
Definition with_atomic : RawTable V := mkTable header [austria_cattle; austria_dairy].

(** The same stock row twice. *)
Definition twice : RawTable V := mkTable header [austria_cattle; austria_cattle].

(** A table without the column [Element]. *)
Definition no_element : RawTable V := mkTable ["Area"; "Item"; "Y2020"] [austria_cattle].

(** Livestock totals of both gases for one item, and methane alone for
    another. *)
Definition gas_table : RawTable V :=
  mkTable header
    [mkRaw "Austria" "Sheep" "Livestock total (Emissions CH4)" [("Y2020", of_Z 2)];
     mkRaw "Austria" "Sheep" "Livestock total (Emissions N2O)" [("Y2020", of_Z 3)];
     mkRaw "Austria" "Goats" "Livestock total (Emissions CH4)" [("Y2020", of_Z 5)]].

Definition world_of (t : RawTable V) : World V :=
  mkWorld [(["1_Donnees"; "Emissions.csv"], t)] [] [] [].

End Inputs.

(** The rows the script writes for [one_row] under the defaults, in
    binary64. *)
Definition austria_rec (item : string) (v : Z) (k : Kind) : Rec binary64 :=
  mkRec "Austria" item 2020 (of_Z v) k
        (kind_is k KAll) (kind_is k KAggregated) (kind_is k KAtomic).

Definition stocks_cattle_row : OutRow binary64 :=
  mkOut (mkM (austria_rec "Cattle" 100 KAggregated) MStocks) true true true.

Definition lsu_dairy_row : OutRow binary64 :=
  mkOut (mkM (austria_rec "Cattle, dairy" 35 KAtomic) MLSU) true true true.

Definition lsu_non_dairy_row : OutRow binary64 :=
  mkOut (mkM (austria_rec "Cattle, non-dairy" 65 KAtomic) MLSU) true true true.

(** The stock rows of [with_atomic], as [sb] holds them. *)
Definition guarded_sb : list (Rec exact) :=
  [mkRec "Austria" "Cattle" 2020 (of_Z 100) KAggregated false true false;
   mkRec "Austria" "Cattle, dairy" 2020 (of_Z 10) KAtomic false false true].

Definition atomic_rec : Rec exact :=
  mkRec "Austria" "Cattle, dairy" 2020 (of_Z 10) KAtomic false false true.

(** [long] and the written table for [gas_table], in exact arithmetic. *)
Definition gas_long : list (LongRow exact) :=
  Eval vm_compute in
    match long_frame default_args gas_table with Some l => l | None => [] end.

Definition gas_out : list (OutRow exact) :=
  Eval vm_compute in
    match prepare default_args gas_table with inl o => o | inr _ => [] end.

(** [long] and the written tables for [one_row], in exact arithmetic, with
    and without the split. *)
Definition one_row_long : list (LongRow exact) :=
  Eval vm_compute in
    match long_frame default_args one_row with Some l => l | None => [] end.

Definition one_row_out : list (OutRow exact) :=
  Eval vm_compute in
    match prepare default_args one_row with inl o => o | inr _ => [] end.


(** "contains [p] as a case-insensitive substring", for a lower-case [p]. *)
Definition contains_ci (p s : string) : bool := Str.contains p (Str.lower s).

(** "trimmed and with internal whitespace collapsed" *)
Definition trimmed_collapsed (s : string) : string :=
  Str.collapse_ws (Str.strip s).

End Cases.

(** ** Invariants of the frames *)

Module Inv.

Import Num Prep Frame Pipeline.

(** What the final key keeps of a grouping key. *)
Definition key3 : Type := string * string * Z.

Definition key3_of (k : gkey) : key3 :=
  let '(a, i, y, _, _, _, _) := k in (a, i, y).

(** A grouping key as the script builds it: the item is canonical and not
    excluded, and the kind and its three flags are those of the item. *)
Definition wf_key (k : gkey) : Prop :=
  let '(a, i, y, kd, b1, b2, b3) := k in
  canonical_item i = i /\ excluded i = false /\ kd = item_kind i /\
  b1 = kind_is kd KAll /\ b2 = kind_is kd KAggregated /\ b3 = kind_is kd KAtomic.

Definition wf_rec {V} (r : Rec V) : Prop := wf_key (gkey_of r).

Definition is_stocks (m : Metric_t) : bool :=
  match m with MStocks => true | _ => false end.

(** The key (Area, Item, Year, Metric) of a written row. *)
Definition out_key {V} (r : OutRow V) : okey := okey_of (o_row r).

Definition not_stocks {V} (r : OutRow V) : bool :=
  negb (is_stocks (Metric (o_row r))).

Definition rec_key3 {V} (r : Rec V) : key3 := (Area r, Item r, Year r).



(** The row of [df] that lines 128-156 make of the CSV row [x] when they
    keep it, [e] being its normalised element. *)
Definition df_row {V} `{Arith V} (x : RawRow V) (e : Element) : DfRow V :=
  with_flags (set_raw_Item canonical_item (strip_labels x), e).

(** The written table has a row of metric [m] at (Area, Item, Year) = [k]
    with value [v]. *)
Definition has_row {V} (out : list (OutRow V)) (m : Metric_t) (k : key3) (v : V) : Prop :=
  exists r, In r out /\ Metric (o_row r) = m /\
            rec_key3 (m_rec (o_row r)) = k /\ Value (m_rec (o_row r)) = v.

End Inv.

(** ** Views of the frames used in the further properties *)

Module Views.

Import Num Prep Frame Pipeline Inv.

Definition key3_eqb (a b : key3) : bool :=
  let '(a1, a2, a3) := a in
  let '(b1, b2, b3) := b in
  String.eqb a1 b1 && String.eqb a2 b2 && Z.eqb a3 b3.

(** The rows of a frame at (Area, Item, Year) = [k]. *)
Definition rows_at {V} (k : key3) (l : list (Rec V)) : list (Rec V) :=
  filter (fun r => key3_eqb (rec_key3 r) k) l.

(** The sum of the cells of [long] with a given normalised element at a
    key, as read (before any conversion). *)
Definition raw_total {V} `{Arith V} (e : Element) (k : key3) (long : list (LongRow V)) : V :=
  vsum (map Value (rows_at k (select e long))).

(** Every character is one of 0-9. *)
Fixpoint ascii_digits (s : string) : bool :=
  match s with
  | EmptyString => true
  | String c r => Str.between 48 57 (Str.code c) && ascii_digits r
  end.

Section MoreInputs.

Context {V : Type} `{Arith V}.

(** Two stock rows for the same item, and one for another. *)
Definition sheep_table : RawTable V :=
  mkTable ["Area"; "Item"; "Element"; "Y2019"; "Y2020"]
    [mkRaw "France" "Sheep" "Stocks" [("Y2019", of_Z 10); ("Y2020", of_Z 20)];
     mkRaw " France" "sheep " "Stock" [("Y2019", of_Z 1); ("Y2020", of_Z 2)];
     mkRaw "France" "Sheep" "stocks" [("Y2019", of_Z 5); ("Y2020", vnan)];
     mkRaw "France" "Chickens" "Stocks" [("Y2019", of_Z 7); ("Y2020", of_Z 7)]].

End MoreInputs.

End Views.

(** ** The scripts that read the written table *)

Module Downstream.

Import Num Prep Frame Pipeline.

(** A prepared long table as [pd.read_csv] gives it: the names of its
    columns, and its rows by column name. *)
Record Prepared (V : Type) : Type := mkPrepared {
  p_columns : list string;
  p_rows : list (OutRow V)
}.
Arguments mkPrepared {V}.
Arguments p_columns {V}.
Arguments p_rows {V}.

(** The file written by [out[cols].to_csv(outp, index=False)], read back. *)
Definition as_read {V} (out : list (OutRow V)) : Prepared V := mkPrepared cols out.

Section Readers.

Context {V : Type} `{Arith V}.

(** *** 01b_filter_total_and_stocks.py *)

Definition WANTED : list string := ["total_co2e"; "stocks"].

(** [str(x).strip().lower().replace(" ", "_")] *)
Definition norm (x : string) : string :=
  Str.replace " " "_" (Str.lower (Str.strip x)).

(** [df["Metric"].apply(norm).isin(WANTED)] *)
Definition keep_mask (r : OutRow V) : bool :=
  Str.mem (norm (metric_name (Metric (o_row r)))) WANTED.

(** [pd.to_numeric(out["Value"], errors="coerce").fillna(0) != 0] *)
Definition nonzero (r : OutRow V) : bool :=
  negb (veqb (fillna0 (Value (m_rec (o_row r)))) (of_Z 0)).

Definition preferred (columns : list string) : list string :=
  filter (fun c => Str.mem c columns)
    ["Area"; "Item"; "Year"; "Metric"; "Value"; "item_kind"; "is_all";
     "is_aggregated"; "is_atomic"; "region_EU"; "region_EUEEAUK"; "region_europe"].

Definition other (columns : list string) : list string :=
  filter (fun c => negb (Str.mem c (preferred columns))) columns.

(** Lines 47-68: the table the filter writes, or the way it stops. *)
Definition filter_total_and_stocks (drop_zero : bool) (df : Prepared V)
  : Prepared V + Exit :=
  if negb (Str.mem "Metric" (p_columns df))
  then inr (SysExit "This file has no 'Metric' column.")
  else
    let out := filter keep_mask (p_rows df) in
    let out := if drop_zero && Str.mem "Value" (p_columns df)
               then filter nonzero out else out in
    inl (mkPrepared (preferred (p_columns df) ++ other (p_columns df)) out).

(** *** 02_streamlit_dashboard_template_eng.py *)

Definition need : list string :=
  ["Area"; "Item"; "Year"; "Metric"; "Value"; "item_kind";
   "region_europe"; "region_EU"; "region_EUEEAUK"].

(** [df["Metric"].isin(["Total_CO2e","Stocks"])] *)
Definition in_scope (r : OutRow V) : bool :=
  Str.mem (metric_name (Metric (o_row r))) ["Total_CO2e"; "Stocks"].

(** [load_prepared]; [None] is [st.stop()] after the error message. *)
Definition load_prepared (df : Prepared V) : option (Prepared V) :=
  let miss := filter (fun c => negb (Str.mem c (p_columns df))) need in
  if negb (empty miss) then None
  else Some (mkPrepared (p_columns df) (filter in_scope (p_rows df))).

End Readers.

(** [normalize_kind_value] *)
Definition normalize_kind_value (v : string) : string :=
  let s := Str.lower (Str.strip v) in
  if Str.mem s ["all"; "all animals"; "all_animals"] then "All"
  else if Str.mem s ["aggregated"; "aggregate"] then "aggregated"
  else "atomic".

End Downstream.

(** * Properties *)

Import Num Prep Frame Pipeline Cases Inv.

Open Scope list_scope.

(** ** Strings *)

Lemma rstrip_idem (s : string) : Str.rstrip (Str.rstrip s) = Str.rstrip s.
Proof.
  induction s as [|c r IH]; simpl; [reflexivity|].
  destruct (Str.isspace c && Str.is_empty (Str.rstrip r)) eqn:E; simpl.
  - reflexivity.
  - rewrite IH, E. reflexivity.
Qed.

Lemma lstrip_head (s : string) :
  Str.lstrip s = EmptyString \/
  exists c r, Str.lstrip s = String c r /\ Str.isspace c = false.
Proof.
  induction s as [|c r IH]; simpl; [now left|].
  destruct (Str.isspace c) eqn:E; [exact IH|].
  right. now exists c, r.
Qed.

Lemma lstrip_rstrip_head (c : ascii) (r : string) :
  Str.isspace c = false ->
  Str.lstrip (Str.rstrip (String c r)) = Str.rstrip (String c r).
Proof.
  intros E. simpl. rewrite E. simpl. rewrite E. reflexivity.
Qed.

Lemma strip_idem (s : string) : Str.strip (Str.strip s) = Str.strip s.
Proof.
  unfold Str.strip.
  destruct (lstrip_head s) as [E | (c & r & E & Hc)]; rewrite E.
  - reflexivity.
  - rewrite (lstrip_rstrip_head c r Hc). apply rstrip_idem.
Qed.

(** ** The item canonicaliser *)

Lemma canonical_item_cases (s : string) :
  canonical_item s = "Cattle, non-dairy" \/
  canonical_item s = "Cattle, dairy" \/
  canonical_item s = "Cattle" \/
  (canonical_item s = Str.strip s /\
   Str.contains "cattle" (canonical_low (Str.strip s))
   || Str.contains "bovine" (canonical_low (Str.strip s)) = false).
Proof.
  unfold canonical_item.
  destruct (Str.contains "cattle" (canonical_low (Str.strip s))
            || Str.contains "bovine" (canonical_low (Str.strip s))) eqn:E.
  - destruct (Re.search true _non_dairy_pat (canonical_low (Str.strip s))
              || Re.search true _other_pat (canonical_low (Str.strip s))); [now left|].
    destruct (Re.search true _dairy_pat (canonical_low (Str.strip s))); auto.
  - right. right. right. split; reflexivity.
Qed.

Lemma canonical_item_idem (s : string) :
  canonical_item (canonical_item s) = canonical_item s.
Proof.
  destruct (canonical_item_cases s) as [E | [E | [E | [E Hn]]]];
    rewrite E; try reflexivity.
  unfold canonical_item. rewrite strip_idem, Hn. reflexivity.
Qed.

(** C7.  The item canonicaliser is idempotent: applying [canonical_item]
    to its own result changes nothing, for every input string. *)
Theorem canonical_item_idempotent (s : string) :
  canonical_item (canonical_item s) = canonical_item s.
Proof.
  destruct (canonical_item_cases s) as [E | [E | [E | [E Hn]]]]; rewrite E.
  - reflexivity.
  - reflexivity.
  - reflexivity.
  - unfold canonical_item. rewrite strip_idem, Hn. reflexivity.
Qed.

(** C6 (amended).  A label whose lower-cased, whitespace-normalised form
    (the [low] of the source) contains neither "cattle" nor "bovine" is
    returned stripped of leading and trailing whitespace and otherwise
    unchanged; the whitespace inside it is kept as it is. *)
Theorem canonical_item_passthrough (s : string) :
  Str.contains "cattle" (canonical_low (Str.strip s)) = false ->
  Str.contains "bovine" (canonical_low (Str.strip s)) = false ->
  canonical_item s = Str.strip s.
Proof.
  intros Hc Hb. unfold canonical_item. rewrite Hc, Hb. reflexivity.
Qed.

Lemma canonical_item_passthrough_witness :
  Str.contains "cattle" (canonical_low (Str.strip " Sheep  and   Goats ")) = false /\
  Str.contains "bovine" (canonical_low (Str.strip " Sheep  and   Goats ")) = false /\
  canonical_item " Sheep  and   Goats " = "Sheep  and   Goats".
Proof.
  split; [reflexivity|]. split; [reflexivity|].
  apply (canonical_item_passthrough " Sheep  and   Goats "); reflexivity.
Defined.

(** C6 as stated fails: the label "Sheep  and   Goats" (two and three
    spaces inside) contains neither word, and the canonicaliser returns it
    with its inner spaces, not the collapsed "Sheep and Goats". *)
Lemma canonical_item_keeps_inner_whitespace :
  Str.contains "cattle" (canonical_low (Str.strip "Sheep  and   Goats")) = false /\
  Str.contains "bovine" (canonical_low (Str.strip "Sheep  and   Goats")) = false /\
  trimmed_collapsed "Sheep  and   Goats" = "Sheep and Goats" /\
  canonical_item "Sheep  and   Goats" = "Sheep  and   Goats" /\
  canonical_item "Sheep  and   Goats" <> trimmed_collapsed "Sheep  and   Goats".
Proof.
  repeat split; try reflexivity.
  vm_compute. discriminate.
Qed.

(** ** Region flags *)

Lemma mem_In (a : string) (l : list string) : Str.mem a l = true <-> In a l.
Proof.
  unfold Str.mem. rewrite existsb_exists. split.
  - intros (x & Hx & E). apply String.eqb_eq in E. now subst.
  - intros Hin. exists a. split; [exact Hin | apply String.eqb_refl].
Qed.

Lemma mem_incl (a : string) (l1 l2 : list string) :
  forallb (fun x => Str.mem x l2) l1 = true ->
  Str.mem a l1 = true -> Str.mem a l2 = true.
Proof.
  intros Hall Ha. apply mem_In in Ha.
  rewrite forallb_forall in Hall. now apply Hall.
Qed.

Lemma region_flags_nested (area : string) (e u k : bool) :
  region_flags area = (e, u, k) ->
  (u = true -> k = true) /\ (k = true -> e = true).
Proof.
  unfold region_flags. intros E.
  assert (He : e = Str.mem (Str.strip area) EUROPE_WIDE) by congruence.
  assert (Hu : u = Str.mem (Str.strip area) EU) by congruence.
  assert (Hk : k = Str.mem (Str.strip area) EEA_PLUS_UK) by congruence.
  clear E. subst e u k. split; intros Hm.
  - apply (mem_incl _ EU EEA_PLUS_UK); [vm_compute; reflexivity | exact Hm].
  - apply (mem_incl _ EEA_PLUS_UK EUROPE_WIDE); [vm_compute; reflexivity | exact Hm].
Qed.

Lemma with_regions_flags {V} (m : MRow V) (e u k : bool) :
  region_flags (Area (m_rec m)) = (e, u, k) ->
  with_regions m = mkOut m u k e.
Proof. intros E. unfold with_regions. rewrite E. reflexivity. Qed.

Lemma finish_rows {V} `{Arith V} (frames : list (list (MRow V))) (r : OutRow V) :
  In r (finish frames) -> exists m, r = with_regions m.
Proof.
  unfold finish. intros Hin. apply in_map_iff in Hin.
  destruct Hin as (m & Hm & _). now exists m.
Qed.

Lemma prepare_inl {V} `{Arith V} (args : Args V) (df : RawTable V) (out : list (OutRow V)) :
  prepare args df = inl out ->
  exists long,
    long_frame args df = Some long /\
    out = finish (prepared args long) /\
    missing_columns df = [] /\
    detect_year_cols (columns df) <> [] /\
    prepared args long <> [].
Proof.
  unfold prepare. intros Hp.
  destruct (missing_columns df) eqn:Em; simpl in Hp; [|discriminate].
  destruct (detect_year_cols (columns df)) eqn:Ey; simpl in Hp; [discriminate|].
  destruct (long_frame args df) as [long|] eqn:El; [|discriminate].
  destruct (prepared args long) eqn:Ep; simpl in Hp; [discriminate|].
  exists long. repeat split; try congruence.
Qed.

(** C10.  On every row of the written table the region flags are nested:
    [region_EU] implies [region_EUEEAUK], which implies [region_europe]. *)
Theorem output_region_flags_nested {V} `{Arith V}
        (args : Args V) (df : RawTable V) (out : list (OutRow V)) (r : OutRow V) :
  prepare args df = inl out ->
  In r out ->
  (region_EU r = true -> region_EUEEAUK r = true) /\
  (region_EUEEAUK r = true -> region_europe r = true).
Proof.
  intros Hp Hin.
  destruct (prepare_inl _ _ _ Hp) as (long & _ & -> & _).
  destruct (finish_rows _ _ Hin) as (m & ->).
  destruct (region_flags (Area (m_rec m))) as [[e u] k] eqn:Ef.
  rewrite (with_regions_flags m e u k Ef). simpl.
  exact (region_flags_nested _ e u k Ef).
Qed.

Lemma output_region_flags_nested_witness :
  prepare default_args one_row
  = inl [stocks_cattle_row; lsu_dairy_row; lsu_non_dairy_row] /\
  In lsu_dairy_row [stocks_cattle_row; lsu_dairy_row; lsu_non_dairy_row] /\
  (region_EU lsu_dairy_row = true -> region_EUEEAUK lsu_dairy_row = true) /\
  (region_EUEEAUK lsu_dairy_row = true -> region_europe lsu_dairy_row = true).
Proof.
  assert (Hp : prepare default_args one_row
               = inl [stocks_cattle_row; lsu_dairy_row; lsu_non_dairy_row])
    by (vm_compute; reflexivity).
  assert (Hin : In lsu_dairy_row [stocks_cattle_row; lsu_dairy_row; lsu_non_dairy_row])
    by (right; left; reflexivity).
  split; [exact Hp|]. split; [exact Hin|].
  exact (output_region_flags_nested default_args one_row _ lsu_dairy_row Hp Hin).
Defined.

(** ** The scenario of the specification *)

(** C1 (on the code).  For the one row (Austria, Cattle, Stock, Y2020=100)
    under the defaults, the written table holds the stock row and two LSU
    rows for 2020, both with [region_EU]: "Cattle, dairy" with value 35 and
    "Cattle, non-dairy" with value 65.  The specification expects 52 for
    the latter (weight 0.8); [default_lsu_weight] gives "Cattle, non-dairy"
    the weight 1.0 because "dairy" is a substring of "non-dairy". *)
Theorem scenario_one_row_output :
  prepare default_args one_row
  = inl [stocks_cattle_row; lsu_dairy_row; lsu_non_dairy_row]
  /\ Value (m_rec (o_row lsu_non_dairy_row)) <> of_Z 52
  /\ default_lsu_weight "Cattle, non-dairy" = (of_Z 1 : binary64)
  /\ default_lsu_weight "Cattle" = (dec 8 1 : binary64).
Proof.
  split; [vm_compute; reflexivity|].
  split; [vm_compute; discriminate|].
  split; vm_compute; reflexivity.
Qed.

(** ** Fatal errors *)

Lemma missing_columns_exit {V} `{Arith V} (args : Args V) (df : RawTable V) :
  missing_columns df <> [] ->
  exists msg, prepare args df = inr (SysExit msg).
Proof.
  intros Hm. unfold prepare.
  destruct (missing_columns df); [contradiction|]. simpl. eauto.
Qed.

Lemma no_year_columns_exit {V} `{Arith V} (args : Args V) (df : RawTable V) :
  missing_columns df = [] ->
  detect_year_cols (columns df) = [] ->
  exists msg, prepare args df = inr (SysExit msg).
Proof.
  intros Hm Hy. unfold prepare. rewrite Hm, Hy. simpl. eauto.
Qed.

Lemma nothing_to_write_exit {V} `{Arith V} (args : Args V) (df : RawTable V)
      (long : list (LongRow V)) :
  missing_columns df = [] ->
  detect_year_cols (columns df) <> [] ->
  long_frame args df = Some long ->
  prepared args long = [] ->
  prepare args df = inr (SysExit "Nothing to write.").
Proof.
  intros Hm Hy Hl Hp. unfold prepare. rewrite Hm. simpl.
  destruct (detect_year_cols (columns df)); [contradiction|]. simpl.
  rewrite Hl, Hp. reflexivity.
Qed.

(** C9.  Whenever [main] ends early, by [sys.exit] (input not found,
    missing columns, no year columns, nothing to write) or by an
    exception, no table has been written: the list of written files is
    the one the run started with. *)
Theorem main_exit_writes_nothing {V} `{Arith V}
        (args : Args V) (w w' : World V) (e : Exit) :
  main args w = (w', inr e) ->
  written w' = written w.
Proof.
  unfold main, bind, path_exists, read_csv, mkdir_parents, sys_exit, raise,
    to_csv, print.
  destruct (is_file (input args) w || is_dir (input args) w); simpl;
    [|intros E; injection E as <- _; reflexivity].
  destruct (find (fun q => is_file q w) (ancestors (parent (outp args))));
    [intros E; injection E as <- _; reflexivity|].
  simpl.
  destruct (find_file (input args) (inputs w)) as [t|];
    [|intros E; injection E as <- _; reflexivity].
  destruct (prepare args t) as [out|e'];
    [|intros E; injection E as <- _; reflexivity].
  destruct (is_dir (outp args) _);
    [intros E; injection E as <- _; reflexivity | discriminate].
Qed.

Lemma main_exit_writes_nothing_witness :
  main default_args (world_of (no_element (V := exact)))
  = (mkWorld [(["1_Donnees"; "Emissions.csv"], no_element)] [["1_Donnees"]] [] [],
     inr (SysExit "ERROR: CSV missing columns: Element")) /\
  written (mkWorld [(["1_Donnees"; "Emissions.csv"], no_element (V := exact))]
                   [["1_Donnees"]] [] []) = [].
Proof.
  assert (Hm : main default_args (world_of (no_element (V := exact)))
    = (mkWorld [(["1_Donnees"; "Emissions.csv"], no_element)] [["1_Donnees"]] [] [],
       inr (SysExit "ERROR: CSV missing columns: Element")))
    by (vm_compute; reflexivity).
  split; [exact Hm|].
  exact (main_exit_writes_nothing default_args _ _ _ Hm).
Defined.

(** ** The livestock-total restriction *)

Lemma rmatch_lit_prefix (p : string) (prev : option ascii) (s : string) :
  Re.rmatch true (Re.lit p) prev s Re.accept_any
  = prefix (Str.lower p) (Str.lower s).
Proof.
  revert prev s. induction p as [|c r IH]; intros prev s.
  - destruct s; reflexivity.
  - destruct s as [|d t]; simpl; [reflexivity|].
    unfold Re.chr_eq.
    destruct (ascii_dec (Str.lower_char c) (Str.lower_char d)) as [E|E].
    + rewrite E, Ascii.eqb_refl. apply IH.
    + apply Ascii.eqb_neq in E. rewrite E. reflexivity.
Qed.

Lemma search_lit_contains (p s : string) :
  Re.search true (Re.lit p) s = Str.contains (Str.lower p) (Str.lower s).
Proof.
  unfold Re.search. generalize (@None ascii) as prev.
  induction s as [|c r IH]; intros prev.
  - simpl. rewrite rmatch_lit_prefix. reflexivity.
  - cbn [Re.search_from Str.lower Str.contains].
    rewrite rmatch_lit_prefix, IH. reflexivity.
Qed.

Lemma is_livestock_total_element_spec (label : string) :
  is_livestock_total_element label
  = contains_ci "livestock" label && contains_ci "total" label.
Proof.
  unfold is_livestock_total_element, contains_ci.
  rewrite !search_lit_contains. reflexivity.
Qed.

Lemma clean_app {V} `{Arith V} (l1 l2 : list (RawRow V)) :
  clean (l1 ++ l2) = clean l1 ++ clean l2.
Proof. unfold clean. rewrite map_app, filter_app, map_app. reflexivity. Qed.

Lemma with_element_norm_app {V} `{Arith V} (l1 l2 : list (RawRow V)) :
  with_element_norm (l1 ++ l2) = with_element_norm l1 ++ with_element_norm l2.
Proof. unfold with_element_norm. apply flat_map_app. Qed.

Lemma unrecognised_row_dropped {V} `{Arith V} (x : RawRow V) :
  normalize_element (Str.strip (raw_Element x)) = None ->
  with_element_norm (clean [x]) = [].
Proof.
  intros Hn. unfold clean. simpl.
  destruct (negb (excluded (Str.strip (raw_Item x)))); simpl; [|reflexivity].
  rewrite Hn. reflexivity.
Qed.

Lemma flagged_without_unrecognised {V} `{Arith V}
      (only_lt : bool) (pre post : list (RawRow V)) (x : RawRow V) :
  normalize_element (Str.strip (raw_Element x)) = None ->
  flagged only_lt (pre ++ x :: post) = flagged only_lt (pre ++ post).
Proof.
  intros Hn. unfold flagged.
  change (x :: post) with ([x] ++ post).
  rewrite !clean_app, !with_element_norm_app.
  rewrite (unrecognised_row_dropped x Hn). reflexivity.
Qed.

Lemma restrict_app {V} `{Arith V} (only_lt : bool) (l1 l2 : list (RawRow V * Element)) :
  restrict only_lt (l1 ++ l2) = restrict only_lt l1 ++ restrict only_lt l2.
Proof. destruct only_lt; simpl; [apply filter_app | reflexivity]. Qed.

Lemma flagged_app {V} `{Arith V} (only_lt : bool) (l1 l2 : list (RawRow V)) :
  flagged only_lt (l1 ++ l2) = flagged only_lt l1 ++ flagged only_lt l2.
Proof.
  unfold flagged. rewrite clean_app, with_element_norm_app, restrict_app, map_app.
  reflexivity.
Qed.

Lemma excluded_strip (item : string) : excluded (Str.strip item) = excluded item.
Proof. unfold excluded. rewrite strip_idem. reflexivity. Qed.

Lemma unused_row_flagged {V} `{Arith V} (only_lt : bool) (x : RawRow V) :
  excluded (raw_Item x) = true \/
  normalize_element (Str.strip (raw_Element x)) = None \/
  (only_lt = true /\
   normalize_element (Str.strip (raw_Element x)) <> Some EStocks /\
   is_livestock_total_element (Str.strip (raw_Element x)) = false) ->
  flagged only_lt [x] = [].
Proof.
  intros Hx. unfold flagged, clean. simpl. rewrite excluded_strip.
  destruct (excluded (raw_Item x)) eqn:Ee; simpl; [destruct only_lt; reflexivity|].
  destruct Hx as [Hx | [Hx | (-> & Hs & Hl)]]; [discriminate | |].
  - rewrite Hx. destruct only_lt; reflexivity.
  - destruct (normalize_element (Str.strip (raw_Element x))) as [e|] eqn:En;
      [|reflexivity].
    simpl. unfold lt_keep. simpl. rewrite Hl.
    destruct e; simpl; [contradiction Hs; reflexivity | reflexivity | reflexivity].
Qed.

Lemma kept_row_flagged {V} `{Arith V} (only_lt : bool) (x : RawRow V) (e : Element) :
  excluded (raw_Item x) = false ->
  normalize_element (Str.strip (raw_Element x)) = Some e ->
  only_lt = false \/ e = EStocks \/
  is_livestock_total_element (Str.strip (raw_Element x)) = true ->
  flagged only_lt [x] = [df_row x e].
Proof.
  intros Hx He Hk. unfold flagged, clean, df_row. simpl. rewrite excluded_strip, Hx.
  simpl. rewrite He. simpl.
  destruct only_lt; [|reflexivity].
  simpl. unfold lt_keep. simpl.
  destruct Hk as [Hk | [-> | Hk]]; [discriminate | reflexivity |].
  rewrite Hk. destruct e; reflexivity.
Qed.

Lemma flagged_insert {V} `{Arith V} (only_lt : bool) (pre post : list (RawRow V))
      (x : RawRow V) :
  flagged only_lt (pre ++ x :: post)
  = flagged only_lt pre ++ flagged only_lt [x] ++ flagged only_lt post.
Proof.
  change (x :: post) with ([x] ++ post). rewrite !flagged_app. reflexivity.
Qed.

(** C8.  The test of line 143 holds of a label exactly when it contains
    both "livestock" and "total", each as a case-insensitive substring.
    For a row [x] of the CSV that passes the stop list and whose Element
    normalises to [e]: with the restriction on, [x] stays in [df], in its
    place, when [e] is Stocks or the label passes the test, and when [e]
    is CH4 or N2O and the label fails the test [x] is dropped, the frame
    and the table written being those of the table without [x] (year
    cells are numbers in every table here); with the restriction off [x]
    stays in [df] whatever the label.  A row labelled
    "Enteric fermentation" fails the test, and [normalize_element] does
    not recognise it as a gas in the first place: the table written is
    the one written without that row, so the row adds nothing to
    CH4_CO2e. *)
Theorem restrict_keeps_livestock_total {V} `{Arith V}
        (args : Args V) (names : list string) (pre post : list (RawRow V))
        (x : RawRow V) (e : Element)
        (area item : string) (cells : list (string * V)) :
  is_livestock_total_element (Str.strip (raw_Element x))
  = contains_ci "livestock" (Str.strip (raw_Element x))
    && contains_ci "total" (Str.strip (raw_Element x))
  /\ (excluded (raw_Item x) = false ->
      normalize_element (Str.strip (raw_Element x)) = Some e ->
      (truthy (only_livestock_total args) = true ->
       (e = EStocks \/ is_livestock_total_element (Str.strip (raw_Element x)) = true ->
        flagged (truthy (only_livestock_total args)) (pre ++ x :: post)
        = flagged (truthy (only_livestock_total args)) pre
          ++ df_row x e :: flagged (truthy (only_livestock_total args)) post) /\
       (e <> EStocks ->
        is_livestock_total_element (Str.strip (raw_Element x)) = false ->
        flagged (truthy (only_livestock_total args)) (pre ++ x :: post)
        = flagged (truthy (only_livestock_total args)) (pre ++ post) /\
        prepare args (mkTable names (pre ++ x :: post))
        = prepare args (mkTable names (pre ++ post)))) /\
      (truthy (only_livestock_total args) = false ->
       flagged (truthy (only_livestock_total args)) (pre ++ x :: post)
       = flagged (truthy (only_livestock_total args)) pre
         ++ df_row x e :: flagged (truthy (only_livestock_total args)) post))
  /\ lt_keep (mkRaw area item "Enteric fermentation" cells, ECH4) = false
  /\ normalize_element "Enteric fermentation" = None
  /\ prepare args (mkTable names (pre ++ mkRaw area item "Enteric fermentation" cells :: post))
     = prepare args (mkTable names (pre ++ post)).
Proof.
  split; [apply is_livestock_total_element_spec|].
  split; [|split; [reflexivity|split; [reflexivity|]]].
  - intros Hx He. split.
    + intros Hon. rewrite Hon. split.
      * intros Hk. rewrite flagged_insert.
        rewrite (kept_row_flagged true x e Hx He (or_intror Hk)). reflexivity.
      * intros Hs Hl.
        assert (Hf : flagged true (pre ++ x :: post) = flagged true (pre ++ post)).
        { rewrite flagged_insert, flagged_app.
          rewrite (unused_row_flagged true x); [reflexivity|].
          right. right. split; [reflexivity|]. split; [|exact Hl].
          rewrite He. intros K. injection K as K. contradiction. }
        split; [exact Hf|].
        unfold prepare, long_frame, missing_columns. simpl. rewrite Hon, Hf.
        reflexivity.
    + intros Hoff. rewrite Hoff. rewrite flagged_insert.
      rewrite (kept_row_flagged false x e Hx He (or_introl eq_refl)). reflexivity.
  - unfold prepare, long_frame, missing_columns. simpl.
    rewrite flagged_without_unrecognised by reflexivity. reflexivity.
Qed.

Lemma restrict_keeps_livestock_total_witness :
  excluded "Sheep" = false /\
  normalize_element (Str.strip "Enteric fermentation (Emissions CH4)") = Some ECH4 /\
  truthy (only_livestock_total (default_args (V := exact))) = true /\
  is_livestock_total_element (Str.strip "Enteric fermentation (Emissions CH4)") = false /\
  prepare default_args
    (mkTable header
       (rows gas_table
        ++ mkRaw "Austria" "Sheep" "Enteric fermentation (Emissions CH4)"
                 [("Y2020", Some 7%Q)] :: []))
  = prepare default_args (mkTable header (rows gas_table ++ [])).
Proof.
  pose proof (restrict_keeps_livestock_total (V := exact) default_args header
                (rows gas_table) []
                (mkRaw "Austria" "Sheep" "Enteric fermentation (Emissions CH4)"
                       [("Y2020", Some 7%Q)])
                ECH4 "" "" []) as (_ & Hrow & _).
  specialize (Hrow eq_refl eq_refl).
  destruct Hrow as [Hon _].
  destruct (Hon eq_refl) as [_ Hdrop].
  split; [reflexivity|]. split; [reflexivity|]. split; [reflexivity|].
  split; [reflexivity|].
  exact (proj2 (Hdrop ltac:(discriminate) eq_refl)).
Defined.

(** ** Lists: filters and permutations *)

Lemma filter_comm {A} (p q : A -> bool) (l : list A) :
  filter p (filter q l) = filter q (filter p l).
Proof.
  induction l as [|x l IH]; simpl; [reflexivity|].
  destruct (p x) eqn:Ep, (q x) eqn:Eq; simpl; rewrite ?Ep, ?Eq, IH; reflexivity.
Qed.

Lemma filter_absorb {A} (p q : A -> bool) (l : list A) :
  (forall x, In x l -> p x = true -> q x = true) ->
  filter p (filter q l) = filter p l.
Proof.
  induction l as [|x l IH]; intros Himp; simpl; [reflexivity|].
  assert (IH' : filter p (filter q l) = filter p l)
    by (apply IH; intros y Hy; apply Himp; now right).
  destruct (q x) eqn:Eq; simpl.
  - rewrite IH'. reflexivity.
  - destruct (p x) eqn:Ep; [|exact IH'].
    rewrite (Himp x (or_introl eq_refl) Ep) in Eq. discriminate.
Qed.

Lemma filter_none {A} (p : A -> bool) (l : list A) :
  (forall x, In x l -> p x = false) -> filter p l = [].
Proof.
  induction l as [|x l IH]; intros Hn; simpl; [reflexivity|].
  rewrite (Hn x (or_introl eq_refl)). apply IH. intros y Hy. apply Hn. now right.
Qed.

Lemma filter_split_perm {A} (g : A -> bool) (l : list A) :
  Permutation (filter (fun x => negb (g x)) l ++ filter g l) l.
Proof.
  induction l as [|x l IH]; simpl; [constructor|].
  destruct (g x); simpl.
  - apply Permutation_sym, Permutation_cons_app, Permutation_sym, IH.
  - now constructor.
Qed.

Lemma Permutation_filter_compat {A} (p : A -> bool) (l l' : list A) :
  Permutation l l' -> Permutation (filter p l) (filter p l').
Proof.
  induction 1 as [|x l l' _ IH|x y l|l l' l'' _ IH1 _ IH2]; simpl.
  - constructor.
  - destruct (p x); [now constructor | exact IH].
  - destruct (p x), (p y); try reflexivity. constructor.
  - now transitivity (filter p l').
Qed.

(** ** The guarded split *)

Section SplitGuard.

Context {V : Type} `{Arith V}.


Lemma keys_atomic_In (sb : list (Rec V)) (x : Rec V) :
  In x sb -> atomic_mask x = true -> In (Area x, Year x) (keys_atomic sb).
Proof.
  intros Hin Hm. unfold keys_atomic.
  apply in_map_iff. exists x. split; [reflexivity|].
  apply filter_In. now split.
Qed.

(** A row at a key that holds an atomic cattle row is not selected. *)
Lemma split_mask_guarded (sb : list (Rec V)) (x r : Rec V) :
  In x sb -> atomic_mask x = true ->
  ay_eqb (Area r, Year r) (Area x, Year x) = true ->
  split_mask sb r = false.
Proof.
  intros Hin Hm Hk. unfold split_mask.
  apply negb_false_iff, existsb_exists.
  exists (Area x, Year x). split; [now apply keys_atomic_In | exact Hk].
Qed.

Lemma to_split_off_key (sb : list (Rec V)) (x r : Rec V) :
  In x sb -> atomic_mask x = true ->
  In r (to_split sb) ->
  ay_eqb (Area r, Year r) (Area x, Year x) = false.
Proof.
  intros Hin Hm Hr. unfold to_split in Hr.
  apply filter_In in Hr. destruct Hr as [_ Hs].
  destruct (ay_eqb (Area r, Year r) (Area x, Year x)) eqn:E; [|reflexivity].
  rewrite (split_mask_guarded sb x r Hin Hm E) in Hs. discriminate.
Qed.

Lemma made_rows_off_key (frac : V) (sb : list (Rec V)) (x r : Rec V) :
  In x sb -> atomic_mask x = true ->
  In r (dairy frac sb ++ other frac sb) ->
  ay_eqb (Area r, Year r) (Area x, Year x) = false.
Proof.
  intros Hin Hm Hr. apply in_app_or in Hr.
  destruct Hr as [Hr | Hr]; apply in_map_iff in Hr;
    destruct Hr as (r0 & <- & Hr0); simpl;
    exact (to_split_off_key sb x r0 Hin Hm Hr0).
Qed.

Lemma split_step_at_guarded_key (split : bool) (frac : V) (sb : list (Rec V)) (x : Rec V) :
  In x sb -> atomic_mask x = true ->
  Permutation
    (filter (fun r => ay_eqb (Area r, Year r) (Area x, Year x)) (split_step split frac sb))
    (filter (fun r => ay_eqb (Area r, Year r) (Area x, Year x)) sb).
Proof.
  intros Hin Hm.
  set (P := fun r : Rec V => ay_eqb (Area r, Year r) (Area x, Year x)).
  assert (Hkeep : filter P (keep_generic sb) = filter P (filter mask_generic sb)).
  { unfold keep_generic. apply filter_absorb. intros r _ HP.
    rewrite (split_mask_guarded sb x r Hin Hm HP). reflexivity. }
  assert (Hbase : Permutation (filter P (non_cattle sb) ++ filter P (filter mask_generic sb))
                              (filter P sb)).
  { unfold non_cattle. rewrite !(filter_comm P). apply filter_split_perm. }
  assert (Hmade : filter P (dairy frac sb ++ other frac sb) = []).
  { apply filter_none. intros r Hr. exact (made_rows_off_key frac sb x r Hin Hm Hr). }
  unfold split_step.
  destruct split; [|reflexivity].
  destruct (empty (filter mask_generic sb)); [reflexivity|].
  destruct (empty (to_split sb)).
  - rewrite filter_app, Hkeep. exact Hbase.
  - rewrite filter_app in Hmade. apply app_eq_nil in Hmade.
    rewrite !filter_app, Hkeep.
    destruct Hmade as [-> ->]. rewrite !app_nil_r. exact Hbase.
Qed.

End SplitGuard.

(** C3.  At an (Area, Year) key where the stock rows hold an atomic cattle
    row [x] ("Cattle, dairy" or "Cattle, non-dairy"), no row that the
    split makes has that key, and the rows of [sb] at that key after the
    split step are just the rows it had before, whatever the option and
    the dairy share. *)
Theorem split_guard {V} `{Arith V}
        (split : bool) (frac : V) (sb : list (Rec V)) (x : Rec V) :
  In x sb ->
  atomic_mask x = true ->
  (forall r, In r (dairy frac sb ++ other frac sb) ->
             ay_eqb (Area r, Year r) (Area x, Year x) = false) /\
  Permutation
    (filter (fun r => ay_eqb (Area r, Year r) (Area x, Year x)) (split_step split frac sb))
    (filter (fun r => ay_eqb (Area r, Year r) (Area x, Year x)) sb).
Proof.
  intros Hin Hm. split.
  - intros r Hr. exact (made_rows_off_key frac sb x r Hin Hm Hr).
  - exact (split_step_at_guarded_key split frac sb x Hin Hm).
Qed.

Lemma split_guard_witness :
  In atomic_rec guarded_sb /\
  atomic_mask atomic_rec = true /\
  (forall r, In r (dairy (dairy_frac default_args) guarded_sb
                   ++ other (dairy_frac default_args) guarded_sb) ->
             ay_eqb (Area r, Year r) (Area atomic_rec, Year atomic_rec) = false) /\
  Permutation
    (filter (fun r => ay_eqb (Area r, Year r) (Area atomic_rec, Year atomic_rec))
            (split_step true (dairy_frac default_args) guarded_sb))
    (filter (fun r => ay_eqb (Area r, Year r) (Area atomic_rec, Year atomic_rec))
            guarded_sb).
Proof.
  assert (Hin : In atomic_rec guarded_sb) by (right; left; reflexivity).
  assert (Hm : atomic_mask atomic_rec = true) by reflexivity.
  split; [exact Hin|]. split; [exact Hm|].
  exact (split_guard true (dairy_frac default_args) guarded_sb atomic_rec Hin Hm).
Defined.

(** The second scenario of the specification: with the atomic row
    (Austria, "Cattle, dairy", Stock, Y2020=10) next to the generic one,
    nothing is split; the generic row keeps its own LSU row (100 x 0.8)
    and the only LSU row for "Cattle, dairy" is that of the atomic row. *)
Lemma scenario_with_atomic_output :
  exists out,
    prepare default_args (with_atomic (V := binary64)) = inl out /\
    map (fun r => (out_key r, Value (m_rec (o_row r)))) out
    = [(("Austria", "Cattle", 2020%Z, MLSU), of_Z 80);
       (("Austria", "Cattle", 2020%Z, MStocks), of_Z 100);
       (("Austria", "Cattle, dairy", 2020%Z, MLSU), of_Z 10);
       (("Austria", "Cattle, dairy", 2020%Z, MStocks), of_Z 10)].
Proof.
  eexists. split; vm_compute; reflexivity.
Qed.

(** ** Sorting and grouping *)

Lemma insert_by_perm {A} (le : A -> A -> bool) (x : A) (l : list A) :
  Permutation (insert_by le x l) (x :: l).
Proof.
  induction l as [|y t IH]; simpl; [reflexivity|].
  destruct (le x y); [reflexivity|].
  rewrite IH. apply perm_swap.
Qed.

Lemma sort_by_perm {A} (le : A -> A -> bool) (l : list A) :
  Permutation (sort_by le l) l.
Proof.
  induction l as [|x t IH]; simpl; [constructor|].
  rewrite insert_by_perm. now constructor.
Qed.

Lemma sort_by_In {A} (le : A -> A -> bool) (l : list A) (x : A) :
  In x (sort_by le l) <-> In x l.
Proof.
  split; apply Permutation_in;
    [apply sort_by_perm | apply Permutation_sym, sort_by_perm].
Qed.

Lemma NoDup_map_coarser {A B C} (f : A -> B) (g : A -> C) (l : list A) :
  NoDup (map f l) ->
  (forall x y, In x l -> In y l -> g x = g y -> f x = f y) ->
  NoDup (map g l).
Proof.
  induction l as [|a l IH]; simpl; intros Hnd Hfg; [constructor|].
  inversion Hnd as [|? ? Hnotin Hnd']; subst. constructor.
  - intros Hin. apply in_map_iff in Hin. destruct Hin as (y & Hy & Hyin).
    apply Hnotin. apply in_map_iff. exists y. split; [|exact Hyin].
    apply Hfg; auto.
  - apply IH; [exact Hnd'|]. intros x y Hx Hy. apply Hfg; now right.
Qed.

Lemma group_keys_NoDup (ks : list gkey) : NoDup (group_keys ks).
Proof.
  unfold group_keys.
  apply (Permutation_NoDup (Permutation_sym (sort_by_perm _ _))).
  apply NoDup_nodup.
Qed.

Lemma group_keys_In (k : gkey) (ks : list gkey) :
  In k (group_keys ks) <-> In k ks.
Proof. unfold group_keys. rewrite sort_by_In. apply nodup_In. Qed.

Lemma wf_key_inj (k1 k2 : gkey) :
  wf_key k1 -> wf_key k2 -> key3_of k1 = key3_of k2 -> k1 = k2.
Proof.
  destruct k1 as [[[[[[a1 i1] y1] d1] p1] q1] r1].
  destruct k2 as [[[[[[a2 i2] y2] d2] p2] q2] r2].
  simpl. intros (_ & _ & Hd1 & Hp1 & Hq1 & Hr1) (_ & _ & Hd2 & Hp2 & Hq2 & Hr2) E.
  injection E as -> -> ->. subst. reflexivity.
Qed.

Section Grouping.

Context {V : Type} `{Arith V}.

Lemma gkey_of_rec_of_key (k : gkey) (v : V) : gkey_of (rec_of_key k v) = k.
Proof. destruct k as [[[[[[a i] y] d] p] q] r]. reflexivity. Qed.

Lemma Value_rec_of_key (k : gkey) (v : V) : Value (rec_of_key k v) = v.
Proof. destruct k as [[[[[[a i] y] d] p] q] r]. reflexivity. Qed.

Lemma rec_of_key_eta (r : Rec V) : rec_of_key (gkey_of r) (Value r) = r.
Proof. destruct r. reflexivity. Qed.

Lemma groupby_sum_keys (l : list (Rec V)) :
  map gkey_of (groupby_sum l) = group_keys (map gkey_of l).
Proof.
  unfold groupby_sum. rewrite map_map.
  erewrite map_ext; [apply map_id|].
  intros k. apply gkey_of_rec_of_key.
Qed.

Lemma groupby_sum_NoDup (l : list (Rec V)) : NoDup (map gkey_of (groupby_sum l)).
Proof. rewrite groupby_sum_keys. apply group_keys_NoDup. Qed.

Lemma groupby_sum_key_In (l : list (Rec V)) (k : gkey) :
  In k (map gkey_of (groupby_sum l)) <-> In k (map gkey_of l).
Proof. rewrite groupby_sum_keys. apply group_keys_In. Qed.

Lemma groupby_sum_empty (l : list (Rec V)) :
  empty (groupby_sum l) = empty l.
Proof.
  destruct l as [|r l]; [reflexivity|].
  destruct (groupby_sum (r :: l)) as [|g gs] eqn:E; [|reflexivity].
  exfalso.
  assert (Hin : In (gkey_of r) (map gkey_of (groupby_sum (r :: l))))
    by (apply groupby_sum_key_In; left; reflexivity).
  rewrite E in Hin. exact Hin.
Qed.

Lemma total_co2e_keys (ch4 n2o : list (Rec V)) :
  map gkey_of (total_co2e ch4 n2o)
  = group_keys (map gkey_of (groupby_sum ch4) ++ map gkey_of (groupby_sum n2o)).
Proof.
  unfold total_co2e, merge_outer. rewrite !map_map.
  erewrite map_ext; [apply map_id|].
  intros k. apply gkey_of_rec_of_key.
Qed.

Lemma total_co2e_key_In (ch4 n2o : list (Rec V)) (k : gkey) :
  In k (map gkey_of (total_co2e ch4 n2o))
  <-> In k (map gkey_of ch4) \/ In k (map gkey_of n2o).
Proof.
  rewrite total_co2e_keys, group_keys_In, in_app_iff, !groupby_sum_key_In.
  reflexivity.
Qed.

(** Well-formed rows with distinct grouping keys have distinct
    (Area, Item, Year). *)
Lemma wf_NoDup_key3 (l : list (Rec V)) :
  (forall r, In r l -> wf_rec r) ->
  NoDup (map gkey_of l) ->
  NoDup (map (fun r => key3_of (gkey_of r)) l).
Proof.
  intros Hwf Hnd. apply (NoDup_map_coarser gkey_of); [exact Hnd|].
  intros x y Hx Hy E. apply wf_key_inj; auto; apply Hwf; assumption.
Qed.

End Grouping.

(** ** Every row of [prepared] is well formed *)

Lemma traverse_In {A B} (f : A -> option B) (l : list A) (l' : list B) :
  traverse f l = Some l' ->
  forall y, In y l' -> exists x, In x l /\ f x = Some y.
Proof.
  revert l'. induction l as [|x t IH]; simpl; intros l' E y Hy.
  - injection E as <-. contradiction.
  - destruct (f x) as [b|] eqn:Ef; [|discriminate].
    destruct (traverse f t) as [bs|] eqn:Et; [|discriminate].
    injection E as <-. destruct Hy as [<- | Hy].
    + exists x. auto.
    + destruct (IH bs eq_refl y Hy) as (x' & Hx' & Ex'). exists x'. auto.
Qed.

Lemma traverse_complete {A B} (f : A -> option B) (l : list A) (l' : list B) :
  traverse f l = Some l' ->
  forall x, In x l -> exists y, In y l' /\ f x = Some y.
Proof.
  revert l'. induction l as [|a t IH]; simpl; intros l' E x Hx; [contradiction|].
  destruct (f a) as [b|] eqn:Ef; [|discriminate].
  destruct (traverse f t) as [bs|] eqn:Et; [|discriminate].
  injection E as <-. destruct Hx as [<- | Hx].
  - exists b. split; [now left | exact Ef].
  - destruct (IH bs eq_refl x Hx) as (y & Hy & Ey). exists y. split; [now right | exact Ey].
Qed.

Lemma excluded_canonical (x : string) :
  Str.strip x = x -> excluded x = false -> excluded (canonical_item x) = false.
Proof.
  intros Hs Hx.
  destruct (canonical_item_cases x) as [E | [E | [E | [E _]]]]; rewrite E;
    try reflexivity.
  rewrite Hs. exact Hx.
Qed.

Section WellFormed.

Context {V : Type} `{Arith V}.

Lemma clean_In (rs : list (RawRow V)) (r : RawRow V) :
  In r (clean rs) ->
  exists x, raw_Item r = canonical_item x /\ Str.strip x = x /\ excluded x = false.
Proof.
  unfold clean. intros Hin. apply in_map_iff in Hin.
  destruct Hin as (r1 & <- & Hr1). apply filter_In in Hr1.
  destruct Hr1 as [Hr1 Hex]. apply in_map_iff in Hr1.
  destruct Hr1 as (r0 & <- & _). simpl in *.
  exists (Str.strip (raw_Item r0)). split; [reflexivity|].
  split; [apply strip_idem|]. now apply negb_true_iff.
Qed.

Lemma with_element_norm_In (rs : list (RawRow V)) (re : RawRow V * Element) :
  In re (with_element_norm rs) <->
  In (fst re) rs /\ normalize_element (raw_Element (fst re)) = Some (snd re).
Proof.
  unfold with_element_norm. rewrite in_flat_map. split.
  - intros (r & Hr & Hin).
    destruct (normalize_element (raw_Element r)) as [e|] eqn:E; [|contradiction].
    destruct Hin as [<- | []]. simpl. auto.
  - intros [Hr E]. exists (fst re). split; [exact Hr|].
    rewrite E. left. destruct re; reflexivity.
Qed.

Lemma restrict_In (only_lt : bool) (rs : list (RawRow V * Element)) re :
  In re (restrict only_lt rs) -> In re rs.
Proof.
  unfold restrict. destruct only_lt; [|auto].
  intros Hin. apply filter_In in Hin. tauto.
Qed.

Lemma with_flags_key (re : RawRow V * Element) (y : Z) :
  (d_Area (with_flags re), d_Item (with_flags re), y, d_item_kind (with_flags re),
   d_is_all (with_flags re), d_is_aggregated (with_flags re), d_is_atomic (with_flags re))
  = (raw_Area (fst re), raw_Item (fst re), y, item_kind (raw_Item (fst re)),
     kind_is (item_kind (raw_Item (fst re))) KAll,
     kind_is (item_kind (raw_Item (fst re))) KAggregated,
     kind_is (item_kind (raw_Item (fst re))) KAtomic).
Proof.
  unfold with_flags. destruct (region_flags (raw_Area (fst re))) as [[e u] k].
  reflexivity.
Qed.

Lemma flagged_wf (only_lt : bool) (rs : list (RawRow V)) (d : DfRow V) (y : Z) :
  In d (flagged only_lt rs) ->
  wf_key (d_Area d, d_Item d, y, d_item_kind d,
          d_is_all d, d_is_aggregated d, d_is_atomic d).
Proof.
  unfold flagged. intros Hin. apply in_map_iff in Hin.
  destruct Hin as (re & <- & Hre).
  apply restrict_In, with_element_norm_In in Hre. destruct Hre as [Hre _].
  destruct (clean_In _ _ Hre) as (x & Ex & Hs & Hx).
  rewrite with_flags_key, Ex. simpl.
  rewrite canonical_item_idem.
  repeat split. now apply excluded_canonical.
Qed.

Lemma melt_row_rec (c : string) (d : DfRow V) (l : LongRow V) :
  melt_row (c, d) = Some l ->
  exists y, gkey_of (l_rec l)
            = (d_Area d, d_Item d, y, d_item_kind d,
               d_is_all d, d_is_aggregated d, d_is_atomic d)
            /\ ElementNorm l = d_ElementNorm d
            /\ Str.parse_int (Str.tail c) = Some y
            /\ Value (l_rec l) = cell c d.
Proof.
  unfold melt_row, astype_int.
  destruct (Str.parse_int (Str.tail c)) as [y|]; [|discriminate].
  destruct (Z.ltb y (2 ^ 63)); [|discriminate].
  intros E. injection E as <-. exists y. simpl. auto.
Qed.

Lemma long_frame_wf (args : Args V) (df : RawTable V) (long : list (LongRow V)) (l : LongRow V) :
  long_frame args df = Some long -> In l long -> wf_rec (l_rec l).
Proof.
  unfold long_frame, melt. intros E Hin.
  destruct (Str.mem "Value" (columns df)); [discriminate|].
  destruct (traverse_In _ _ _ E l Hin) as ([c d] & Hcd & Em).
  apply in_prod_iff in Hcd. destruct Hcd as [_ Hd].
  destruct (melt_row_rec c d l Em) as (y & Ek & _).
  unfold wf_rec. rewrite Ek. now apply (flagged_wf _ _ d y) in Hd.
Qed.

Lemma select_In (e : Element) (long : list (LongRow V)) (r : Rec V) :
  In r (select e long) <->
  exists l, In l long /\ ElementNorm l = e /\ l_rec l = r.
Proof.
  unfold select. rewrite in_map_iff. split.
  - intros (l & <- & Hl). apply filter_In in Hl. destruct Hl as [Hl He].
    exists l. repeat split; [exact Hl|].
    destruct (ElementNorm l), e; simpl in He; congruence.
  - intros (l & Hl & <- & <-). exists l. split; [reflexivity|].
    apply filter_In. split; [exact Hl|]. destruct (ElementNorm l); reflexivity.
Qed.

Lemma scale_keys (g : V) (l : list (Rec V)) :
  map gkey_of (scale g l) = map gkey_of l.
Proof. unfold scale. rewrite map_map. apply map_ext. intros r. reflexivity. Qed.

Lemma scale_empty (g : V) (l : list (Rec V)) : empty (scale g l) = empty l.
Proof. destruct l; reflexivity. Qed.

Lemma set_Item_canonical_wf (r : Rec V) :
  wf_rec r -> set_Item canonical_item r = r.
Proof.
  destruct r as [a i y v d p q t]. unfold wf_rec, set_Item. simpl.
  intros (Hc & _). rewrite Hc. reflexivity.
Qed.

Lemma map_set_Item_wf (l : list (Rec V)) :
  (forall r, In r l -> wf_rec r) -> map (set_Item canonical_item) l = l.
Proof.
  intros Hwf. rewrite <- (map_id l) at 2. apply map_ext_in.
  intros r Hr. apply set_Item_canonical_wf, Hwf, Hr.
Qed.

Lemma derived_wf (label : string) (f : V) (r : Rec V) :
  label = "Cattle, dairy" \/ label = "Cattle, non-dairy" ->
  wf_rec (derived label f r).
Proof.
  intros [-> | ->]; unfold wf_rec, derived; simpl; repeat split.
Qed.

Lemma split_step_In (split : bool) (frac : V) (sb : list (Rec V)) (r : Rec V) :
  In r (split_step split frac sb) ->
  In r sb \/ In r (dairy frac sb) \/ In r (other frac sb).
Proof.
  unfold split_step, non_cattle, keep_generic.
  destruct split; [|auto].
  destruct (empty (filter mask_generic sb)); [auto|].
  destruct (empty (to_split sb)); rewrite ?in_app_iff, !filter_In; tauto.
Qed.

Lemma split_step_wf (split : bool) (frac : V) (sb : list (Rec V)) :
  (forall r, In r sb -> wf_rec r) ->
  forall r, In r (split_step split frac sb) -> wf_rec r.
Proof.
  intros Hwf r Hr.
  destruct (split_step_In _ _ _ _ Hr) as [Hin | [Hin | Hin]].
  - now apply Hwf.
  - apply in_map_iff in Hin. destruct Hin as (r0 & <- & _).
    apply derived_wf. now left.
  - apply in_map_iff in Hin. destruct Hin as (r0 & <- & _).
    apply derived_wf. now right.
Qed.

Lemma groupby_sum_wf (l : list (Rec V)) :
  (forall r, In r l -> wf_rec r) ->
  forall r, In r (groupby_sum l) -> wf_rec r.
Proof.
  intros Hwf r Hr. unfold wf_rec.
  assert (Hk : In (gkey_of r) (map gkey_of l))
    by (apply groupby_sum_key_In; now apply in_map).
  apply in_map_iff in Hk. destruct Hk as (r0 & <- & Hr0). now apply Hwf.
Qed.

Lemma scale_wf (g : V) (l : list (Rec V)) :
  (forall r, In r l -> wf_rec r) ->
  forall r, In r (scale g l) -> wf_rec r.
Proof.
  intros Hwf r Hr. apply in_map_iff in Hr. destruct Hr as (r0 & <- & Hr0).
  exact (Hwf r0 Hr0).
Qed.

Lemma total_co2e_wf (ch4 n2o : list (Rec V)) :
  (forall r, In r ch4 -> wf_rec r) ->
  (forall r, In r n2o -> wf_rec r) ->
  forall r, In r (total_co2e ch4 n2o) -> wf_rec r.
Proof.
  intros Hc Hn r Hr. unfold wf_rec.
  assert (Hk : In (gkey_of r) (map gkey_of (total_co2e ch4 n2o))) by now apply in_map.
  apply total_co2e_key_In in Hk.
  destruct Hk as [Hk | Hk]; apply in_map_iff in Hk;
    destruct Hk as (r0 & <- & Hr0); [now apply Hc | now apply Hn].
Qed.

Lemma lsu_frame_wf (split : bool) (frac : V) (stocks : list (Rec V)) :
  (forall r, In r stocks -> wf_rec r) ->
  forall r, In r (lsu_frame split frac stocks) -> wf_rec r.
Proof.
  intros Hwf. unfold lsu_frame. rewrite (map_set_Item_wf stocks Hwf).
  apply groupby_sum_wf. intros r Hr. apply in_map_iff in Hr.
  destruct Hr as (r0 & <- & Hr0).
  exact (split_step_wf split frac stocks Hwf r0 Hr0).
Qed.

End WellFormed.

(** ** The written table *)

Lemma filter_all {A} (p : A -> bool) (l : list A) :
  (forall x, In x l -> p x = true) -> filter p l = l.
Proof.
  intros Hp. apply forallb_filter_id, forallb_forall, Hp.
Qed.

Section Written.

Context {V : Type} `{Arith V}.

Lemma with_regions_row (m : MRow V) : o_row (with_regions m) = m.
Proof.
  destruct (region_flags (Area (m_rec m))) as [[e u] k] eqn:E.
  rewrite (with_regions_flags m e u k E). reflexivity.
Qed.

Lemma split_step_nil (split : bool) (frac : V) : split_step split frac [] = [].
Proof. destruct split; reflexivity. Qed.

(** The frames of [prepared], laid end to end: a frame that is left out
    is an empty one. *)
Lemma concat_prepared (args : Args V) (long : list (LongRow V)) (g1 g2 : V) :
  gwp_pair (gwp args) = (g1, g2) ->
  List.concat (prepared args long)
  = tag MStocks (select EStocks long)
    ++ tag MCH4_CO2e (groupby_sum (scale g1 (select ECH4 long)))
    ++ tag MN2O_CO2e (groupby_sum (scale g2 (select EN2O long)))
    ++ tag MTotal_CO2e (total_co2e (scale g1 (select ECH4 long))
                                   (scale g2 (select EN2O long)))
    ++ tag MLSU (lsu_frame (truthy (split_cattle args)) (dairy_frac args)
                           (select EStocks long)).
Proof.
  intros Eg. unfold prepared. rewrite Eg.
  generalize (select EStocks long) as st.
  generalize (scale g1 (select ECH4 long)) as c.
  generalize (scale g2 (select EN2O long)) as n.
  intros n c st.
  assert (Hl : lsu_frame (truthy (split_cattle args)) (dairy_frac args) [] = [])
    by (unfold lsu_frame; simpl; rewrite split_step_nil; reflexivity).
  destruct st as [|s st], c as [|c0 c], n as [|n0 n]; simpl;
    rewrite ?Hl, ?app_nil_r; reflexivity.
Qed.

Lemma prepared_wf (args : Args V) (df : RawTable V) (long : list (LongRow V)) :
  long_frame args df = Some long ->
  forall m, In m (List.concat (prepared args long)) -> wf_rec (m_rec m).
Proof.
  intros El m Hm.
  assert (Hsel : forall e r, In r (select e long) -> wf_rec r).
  { intros e r Hr. apply select_In in Hr. destruct Hr as (l & Hl & _ & <-).
    exact (long_frame_wf args df long l El Hl). }
  destruct (gwp_pair (gwp args)) as [g1 g2] eqn:Eg.
  rewrite (concat_prepared args long g1 g2 Eg) in Hm.
  unfold tag in Hm. rewrite !in_app_iff, !in_map_iff in Hm.
  destruct Hm as [(r & <- & Hr) | [(r & <- & Hr) | [(r & <- & Hr) | [(r & <- & Hr) | (r & <- & Hr)]]]];
    simpl.
  - exact (Hsel _ _ Hr).
  - revert r Hr. apply groupby_sum_wf, scale_wf, Hsel.
  - revert r Hr. apply groupby_sum_wf, scale_wf, Hsel.
  - revert r Hr. apply total_co2e_wf; apply scale_wf, Hsel.
  - revert r Hr. apply lsu_frame_wf, Hsel.
Qed.

Lemma set_m_Item_wf (m : MRow V) :
  wf_rec (m_rec m) -> set_m_Item canonical_item m = m.
Proof.
  intros Hwf. destruct m as [r mt]. unfold set_m_Item. simpl.
  rewrite (set_Item_canonical_wf r Hwf). reflexivity.
Qed.

(** On well-formed rows the final canonicalisation and the final
    exclusion change nothing: what is written is the sorted table. *)
Lemma finish_wf (frames : list (list (MRow V))) :
  (forall m, In m (List.concat frames) -> wf_rec (m_rec m)) ->
  finish frames
  = map with_regions
        (sort_by (fun a b => okey_leb (okey_of a) (okey_of b)) (List.concat frames)).
Proof.
  intros Hwf. unfold finish.
  set (sorted := sort_by _ (List.concat frames)).
  assert (Hs : forall m, In m sorted -> wf_rec (m_rec m)).
  { intros m Hm. apply Hwf. unfold sorted in Hm. now apply sort_by_In in Hm. }
  assert (Hc : map (set_m_Item canonical_item) sorted = sorted).
  { rewrite <- (map_id sorted) at 2. apply map_ext_in.
    intros m Hm. apply set_m_Item_wf, Hs, Hm. }
  rewrite Hc. f_equal. apply filter_all.
  intros m Hm. apply negb_true_iff.
  specialize (Hs m Hm). unfold wf_rec, gkey_of in Hs. simpl in Hs. tauto.
Qed.

Lemma finish_In (frames : list (list (MRow V))) (o : OutRow V) :
  (forall m, In m (List.concat frames) -> wf_rec (m_rec m)) ->
  In o (finish frames) <->
  In (o_row o) (List.concat frames) /\ o = with_regions (o_row o).
Proof.
  intros Hwf. rewrite (finish_wf frames Hwf), in_map_iff. split.
  - intros (m & <- & Hm). rewrite with_regions_row.
    split; [now apply sort_by_In in Hm | reflexivity].
  - intros [Hin Eo]. exists (o_row o). split; [now symmetry|].
    now apply sort_by_In.
Qed.

Lemma tag_okeys_NoDup (m : Metric_t) (l : list (Rec V)) :
  (forall r, In r l -> wf_rec r) ->
  NoDup (map gkey_of l) ->
  NoDup (map okey_of (tag m l)).
Proof.
  intros Hwf Hnd. unfold tag. rewrite map_map.
  apply (NoDup_map_coarser (fun r => key3_of (gkey_of r))).
  - now apply wf_NoDup_key3.
  - intros x y _ _ E. unfold okey_of in E. simpl in E.
    injection E as E1 E2 E3. unfold gkey_of. simpl. congruence.
Qed.

Lemma tag_okey_metric (m : Metric_t) (l : list (Rec V)) (k : okey) :
  In k (map okey_of (tag m l)) -> snd k = m.
Proof.
  unfold tag. rewrite map_map, in_map_iff. intros (r & <- & _). reflexivity.
Qed.

Lemma filter_tag (p : Metric_t -> bool) (m : Metric_t) (l : list (Rec V)) :
  filter (fun r => p (Metric r)) (tag m l) = if p m then tag m l else [].
Proof.
  unfold tag. destruct (p m) eqn:E.
  - apply filter_all. intros r Hr. apply in_map_iff in Hr.
    destruct Hr as (r0 & <- & _). exact E.
  - apply filter_none. intros r Hr. apply in_map_iff in Hr.
    destruct Hr as (r0 & <- & _). exact E.
Qed.

Lemma total_co2e_NoDup (ch4 n2o : list (Rec V)) :
  NoDup (map gkey_of (total_co2e ch4 n2o)).
Proof. rewrite total_co2e_keys. apply group_keys_NoDup. Qed.

(** Apart from the stock rows, the rows of [prepared] have distinct keys. *)
Lemma prepared_keys_NoDup (args : Args V) (df : RawTable V) (long : list (LongRow V)) :
  long_frame args df = Some long ->
  NoDup (map okey_of
             (filter (fun m => negb (is_stocks (Metric m)))
                     (List.concat (prepared args long)))).
Proof.
  intros El.
  pose proof (prepared_wf args df long El) as Hwf.
  destruct (gwp_pair (gwp args)) as [g1 g2] eqn:Eg.
  rewrite (concat_prepared args long g1 g2 Eg) in *.
  rewrite !filter_app.
  rewrite !(filter_tag (fun m => negb (is_stocks m))). simpl.
  assert (Hpart : forall m l, In m [MCH4_CO2e; MN2O_CO2e; MTotal_CO2e; MLSU] ->
            (forall r, In r (tag m l) ->
               In r (tag MStocks (select EStocks long)
                     ++ tag MCH4_CO2e (groupby_sum (scale g1 (select ECH4 long)))
                     ++ tag MN2O_CO2e (groupby_sum (scale g2 (select EN2O long)))
                     ++ tag MTotal_CO2e (total_co2e (scale g1 (select ECH4 long))
                                                    (scale g2 (select EN2O long)))
                     ++ tag MLSU (lsu_frame (truthy (split_cattle args)) (dairy_frac args)
                                            (select EStocks long)))) ->
            NoDup (map gkey_of l) ->
            NoDup (map okey_of (tag m l))).
  { intros m l _ Hsub Hnd. apply tag_okeys_NoDup; [|exact Hnd].
    intros r Hr. apply (Hwf (mkM r m)). apply Hsub.
    unfold tag. apply in_map_iff. now exists r. }
  rewrite !map_app.
  repeat apply NoDup_app.
  - apply (Hpart MCH4_CO2e); [simpl; tauto | | apply groupby_sum_NoDup].
    intros r Hr. rewrite !in_app_iff. tauto.
  - apply (Hpart MN2O_CO2e); [simpl; tauto | | apply groupby_sum_NoDup].
    intros r Hr. rewrite !in_app_iff. tauto.
  - apply (Hpart MTotal_CO2e); [simpl; tauto | | apply total_co2e_NoDup].
    intros r Hr. rewrite !in_app_iff. tauto.
  - apply (Hpart MLSU); [simpl; tauto | | apply groupby_sum_NoDup].
    intros r Hr. rewrite !in_app_iff. tauto.
  - intros k Hk Hk'. apply tag_okey_metric in Hk, Hk'. congruence.
  - intros k Hk Hk'. apply tag_okey_metric in Hk.
    apply in_app_or in Hk'. destruct Hk' as [Hk' | Hk'];
      apply tag_okey_metric in Hk'; congruence.
  - intros k Hk Hk'. apply tag_okey_metric in Hk.
    apply in_app_or in Hk'. destruct Hk' as [Hk' | Hk'];
      [|apply in_app_or in Hk'; destruct Hk' as [Hk' | Hk']];
      apply tag_okey_metric in Hk'; congruence.
Qed.

End Written.

(** C2 (amended).  In the written table the rows whose Metric is not
    Stocks (CH4_CO2e, N2O_CO2e, Total_CO2e, LSU) have pairwise distinct
    keys (Area, Item, Year, Metric), for every input table and
    configuration.  The stock rows are written as read, without grouping. *)
Theorem output_keys_unique_but_stocks {V} `{Arith V}
        (args : Args V) (df : RawTable V) (out : list (OutRow V)) :
  prepare args df = inl out ->
  NoDup (map out_key (filter not_stocks out)).
Proof.
  intros Hp.
  destruct (prepare_inl _ _ _ Hp) as (long & El & -> & _).
  rewrite (finish_wf _ (prepared_wf args df long El)).
  rewrite filter_map_swap, map_map.
  erewrite map_ext by (intros m; unfold out_key; rewrite with_regions_row; reflexivity).
  erewrite filter_ext
    by (intros m; unfold not_stocks; rewrite with_regions_row; reflexivity).
  eapply Permutation_NoDup; [|exact (prepared_keys_NoDup args df long El)].
  apply Permutation_map, Permutation_filter_compat, Permutation_sym, sort_by_perm.
Qed.

Lemma output_keys_unique_but_stocks_witness :
  prepare default_args one_row
  = inl [stocks_cattle_row; lsu_dairy_row; lsu_non_dairy_row] /\
  NoDup (map out_key
             (filter not_stocks [stocks_cattle_row; lsu_dairy_row; lsu_non_dairy_row])).
Proof.
  assert (Hp : prepare default_args one_row
               = inl [stocks_cattle_row; lsu_dairy_row; lsu_non_dairy_row])
    by (vm_compute; reflexivity).
  split; [exact Hp|].
  exact (output_keys_unique_but_stocks default_args one_row _ Hp).
Defined.

(** C2 as stated fails: when the CSV holds the stock row (Austria, Cattle,
    Stock, Y2020=100) twice, both are written with Metric Stocks, and the
    first two rows of the table have the same key. *)
Lemma stocks_rows_keep_duplicates :
  exists out r1 r2,
    prepare default_args (twice (V := binary64)) = inl out /\
    nth_error out 0 = Some r1 /\
    nth_error out 1 = Some r2 /\
    out_key r1 = ("Austria", "Cattle", 2020%Z, MStocks) /\
    out_key r2 = ("Austria", "Cattle", 2020%Z, MStocks) /\
    ~ NoDup (map out_key out).
Proof.
  eexists. eexists. eexists.
  split; [vm_compute; reflexivity|].
  split; [reflexivity|]. split; [reflexivity|].
  split; [reflexivity|]. split; [reflexivity|].
  intros Hnd. inversion Hnd as [|k ks Hnotin _]. apply Hnotin. left. reflexivity.
Qed.

(** ** Values of the grouped frames *)

Lemma gkey_eqb_eq (a b : gkey) : gkey_eqb a b = true <-> a = b.
Proof.
  unfold gkey_eqb. destruct (gkey_eq_dec a b); split; congruence.
Qed.

Lemma gkey_eqb_neq (a b : gkey) : gkey_eqb a b = false <-> a <> b.
Proof.
  unfold gkey_eqb. destruct (gkey_eq_dec a b); split; congruence.
Qed.

Section GroupValues.

Context {V : Type} `{Arith V}.

Lemma group_rows_unique (l : list (Rec V)) (r : Rec V) :
  NoDup (map gkey_of l) -> In r l -> group_rows (gkey_of r) l = [r].
Proof.
  unfold group_rows.
  induction l as [|a l IH]; simpl; intros Hnd Hin; [contradiction|].
  inversion Hnd as [|? ? Hnotin Hnd']; subst.
  destruct Hin as [-> | Hin].
  - rewrite (proj2 (gkey_eqb_eq _ _) eq_refl). f_equal.
    apply filter_none. intros x Hx. apply gkey_eqb_neq.
    intros E. apply Hnotin. rewrite <- E. now apply in_map.
  - assert (Hne : gkey_of a <> gkey_of r).
    { intros E. apply Hnotin. rewrite E. now apply in_map. }
    apply gkey_eqb_neq in Hne. rewrite Hne. now apply IH.
Qed.

Lemma group_rows_absent (l : list (Rec V)) (k : gkey) :
  ~ In k (map gkey_of l) -> group_rows k l = [].
Proof.
  intros Hn. unfold group_rows. apply filter_none.
  intros x Hx. apply gkey_eqb_neq. intros E. apply Hn. rewrite <- E. now apply in_map.
Qed.

Lemma value_at_present (l : list (Rec V)) (r : Rec V) :
  NoDup (map gkey_of l) -> In r l -> value_at (gkey_of r) l = Value r.
Proof.
  intros Hnd Hin. unfold value_at. rewrite (group_rows_unique l r Hnd Hin). reflexivity.
Qed.

Lemma value_at_absent (l : list (Rec V)) (k : gkey) :
  ~ In k (map gkey_of l) -> value_at k l = vnan.
Proof.
  intros Hn. unfold value_at. rewrite (group_rows_absent l k Hn). reflexivity.
Qed.

Lemma groupby_sum_In (l : list (Rec V)) (r : Rec V) :
  In r (groupby_sum l) <->
  In (gkey_of r) (map gkey_of l) /\
  Value r = group_sum (map Value (group_rows (gkey_of r) l)).
Proof.
  unfold groupby_sum. rewrite in_map_iff. split.
  - intros (k & <- & Hk). rewrite gkey_of_rec_of_key, Value_rec_of_key.
    split; [exact (proj1 (group_keys_In _ _) Hk) | reflexivity].
  - intros [Hk Ev]. exists (gkey_of r). split.
    + rewrite <- Ev. apply rec_of_key_eta.
    + exact (proj2 (group_keys_In _ _) Hk).
Qed.

Lemma total_co2e_In (ch4 n2o : list (Rec V)) (t : Rec V) :
  In t (total_co2e ch4 n2o) <->
  (In (gkey_of t) (map gkey_of ch4) \/ In (gkey_of t) (map gkey_of n2o)) /\
  Value t = vadd (fillna0 (value_at (gkey_of t) (groupby_sum ch4)))
                 (fillna0 (value_at (gkey_of t) (groupby_sum n2o))).
Proof.
  unfold total_co2e, merge_outer. rewrite map_map, in_map_iff. split.
  - intros (k & <- & Hk). rewrite gkey_of_rec_of_key, Value_rec_of_key.
    apply (proj1 (group_keys_In _ _)) in Hk.
    rewrite in_app_iff, !groupby_sum_key_In in Hk.
    split; [exact Hk | reflexivity].
  - intros [Hk Ev]. exists (gkey_of t). split.
    + rewrite <- Ev. apply rec_of_key_eta.
    + apply (proj2 (group_keys_In _ _)).
      rewrite in_app_iff, !groupby_sum_key_In. exact Hk.
Qed.

Lemma tag_In (m : Metric_t) (l : list (Rec V)) (x : MRow V) :
  In x (tag m l) <-> Metric x = m /\ In (m_rec x) l.
Proof.
  unfold tag. rewrite in_map_iff. split.
  - intros (r & <- & Hr). simpl. auto.
  - intros [<- Hr]. exists (m_rec x). split; [destruct x; reflexivity | exact Hr].
Qed.

End GroupValues.

(** ** Rows of the written table, metric by metric *)

Section RowsByMetric.

Context {V : Type} `{Arith V}.

Variables (args : Args V) (df : RawTable V) (long : list (LongRow V))
          (out : list (OutRow V)) (g1 g2 : V).

Hypothesis Hlong : long_frame args df = Some long.
Hypothesis Hout : prepare args df = inl out.
Hypothesis Hgwp : gwp_pair (gwp args) = (g1, g2).

Lemma out_is_finish : out = finish (prepared args long).
Proof.
  destruct (prepare_inl _ _ _ Hout) as (long' & El & -> & _).
  rewrite Hlong in El. injection El as <-. reflexivity.
Qed.

Lemma has_row_prepared (m : Metric_t) (k : key3) (v : V) :
  has_row out m k v <->
  exists r, In (mkM r m) (List.concat (prepared args long)) /\
            rec_key3 r = k /\ Value r = v.
Proof.
  unfold has_row. rewrite out_is_finish. split.
  - intros (o & Ho & Em & Ek & Ev).
    apply (finish_In _ _ (prepared_wf args df long Hlong)) in Ho.
    destruct Ho as [Ho _]. exists (m_rec (o_row o)).
    split; [|auto]. rewrite <- Em. destruct (o_row o); exact Ho.
  - intros (r & Hr & Ek & Ev). exists (with_regions (mkM r m)).
    rewrite with_regions_row. simpl. repeat split; auto.
    apply (finish_In _ _ (prepared_wf args df long Hlong)).
    rewrite with_regions_row. auto.
Qed.

Lemma stocks_wf (r : Rec V) : In r (select EStocks long) -> wf_rec r.
Proof.
  intros Hr. apply select_In in Hr. destruct Hr as (l & Hl & _ & <-).
  exact (long_frame_wf args df long l Hlong Hl).
Qed.

Lemma ch4_wf (r : Rec V) : In r (scale g1 (select ECH4 long)) -> wf_rec r.
Proof.
  apply scale_wf. intros r0 Hr. apply select_In in Hr.
  destruct Hr as (l & Hl & _ & <-). exact (long_frame_wf args df long l Hlong Hl).
Qed.

Lemma n2o_wf (r : Rec V) : In r (scale g2 (select EN2O long)) -> wf_rec r.
Proof.
  apply scale_wf. intros r0 Hr. apply select_In in Hr.
  destruct Hr as (l & Hl & _ & <-). exact (long_frame_wf args df long l Hlong Hl).
Qed.

Lemma in_prepared (r : Rec V) (m : Metric_t) :
  In (mkM r m) (List.concat (prepared args long)) <->
  match m with
  | MStocks => In r (select EStocks long)
  | MCH4_CO2e => In r (groupby_sum (scale g1 (select ECH4 long)))
  | MN2O_CO2e => In r (groupby_sum (scale g2 (select EN2O long)))
  | MTotal_CO2e => In r (total_co2e (scale g1 (select ECH4 long)) (scale g2 (select EN2O long)))
  | MLSU => In r (lsu_frame (truthy (split_cattle args)) (dairy_frac args) (select EStocks long))
  end.
Proof.
  rewrite (concat_prepared args long g1 g2 Hgwp), !in_app_iff, !tag_In. simpl.
  destruct m; split; intros Hm; try tauto;
    repeat (destruct Hm as [[Em Hm] | Hm]; [try discriminate; try exact Hm|]);
    try (destruct Hm as [Em Hm]; try discriminate; exact Hm).
Qed.

Lemma has_row_metric (m : Metric_t) (k : key3) (v : V) :
  has_row out m k v <->
  exists r, rec_key3 r = k /\ Value r = v /\
    match m with
    | MStocks => In r (select EStocks long)
    | MCH4_CO2e => In r (groupby_sum (scale g1 (select ECH4 long)))
    | MN2O_CO2e => In r (groupby_sum (scale g2 (select EN2O long)))
    | MTotal_CO2e => In r (total_co2e (scale g1 (select ECH4 long)) (scale g2 (select EN2O long)))
    | MLSU => In r (lsu_frame (truthy (split_cattle args)) (dairy_frac args) (select EStocks long))
    end.
Proof.
  rewrite has_row_prepared. split; intros (r & H1 & H2 & H3); exists r.
  - apply in_prepared in H1. auto.
  - rewrite in_prepared. auto.
Qed.

End RowsByMetric.

(** ** Exact arithmetic *)

Lemma exact_eq_refl (x : exact) : exact_eq x x.
Proof. destruct x; simpl; [reflexivity | exact I]. Qed.

Lemma exact_vsum_from (vs : list exact) (q0 : Q) :
  exists q, vsum_from (Some q0) vs = Some q.
Proof.
  unfold vsum_from.
  revert q0. induction vs as [|v vs IH]; intros q0; simpl; [eauto|].
  destruct v as [x|]; simpl; apply IH.
Qed.

Lemma exact_vsum_some (vs : list exact) : exists q, vsum vs = Some q.
Proof. unfold vsum. apply exact_vsum_from. Qed.

Lemma exact_eq_trans (x y z : exact) : exact_eq x y -> exact_eq y z -> exact_eq x z.
Proof.
  destruct x, y, z; simpl; try tauto. intros E1 E2. now rewrite E1.
Qed.

(** In exact arithmetic the compensation stays 0 and the compensated sum
    is the plain sum. *)
Lemma exact_kahan_from (vs : list exact) (s c a : Q) :
  (c == 0)%Q -> (s == a)%Q ->
  exists s' c' a',
    fold_left kahan_step vs (Some s, Some c) = (Some s', Some c') /\
    vsum_from (Some a) vs = Some a' /\ (s' == a')%Q.
Proof.
  unfold vsum_from.
  revert s c a. induction vs as [|v vs IH]; intros s c a Hc Hs; simpl.
  - exists s, c, a. auto.
  - destruct v as [x|]; simpl.
    + apply IH; [ring | rewrite Hs, Hc; ring].
    + apply IH; assumption.
Qed.

Lemma exact_group_sum (vs : list exact) : exact_eq (group_sum vs) (vsum vs).
Proof.
  unfold group_sum, vsum.
  destruct (exact_kahan_from vs (inject_Z 0) (inject_Z 0) (inject_Z 0))
    as (s' & c' & a' & Ek & Ev & E); [reflexivity | reflexivity |].
  change (@of_Z exact _ 0) with (Some (inject_Z 0)).
  rewrite Ek, Ev. exact E.
Qed.

Lemma exact_group_sum_some (vs : list exact) : exists q, group_sum vs = Some q.
Proof.
  pose proof (exact_group_sum vs) as E.
  destruct (group_sum vs) as [q|]; [now exists q|].
  destruct (exact_vsum_some vs) as (a & Ea). rewrite Ea in E. contradiction.
Qed.

Lemma exact_groupby_value (l : list (Rec exact)) (r : Rec exact) :
  In r (groupby_sum l) -> exists q, Value r = Some q.
Proof.
  intros Hr. apply groupby_sum_In in Hr. destruct Hr as [_ ->].
  apply exact_group_sum_some.
Qed.

Section TotalDerivation.

Variables (args : Args exact) (df : RawTable exact) (long : list (LongRow exact))
          (out : list (OutRow exact)) (g1 g2 : exact).

Hypothesis Hlong : long_frame args df = Some long.
Hypothesis Hout : prepare args df = inl out.
Hypothesis Hgwp : gwp_pair (gwp args) = (g1, g2).

Lemma grouped_same_key (l1 l2 : list (Rec exact)) (r1 r2 : Rec exact) :
  (forall r, In r l1 -> wf_rec r) -> (forall r, In r l2 -> wf_rec r) ->
  In r1 l1 -> In r2 l2 -> rec_key3 r1 = rec_key3 r2 -> gkey_of r1 = gkey_of r2.
Proof.
  intros H1 H2 Hr1 Hr2 E. apply wf_key_inj; [now apply H1 | now apply H2 | exact E].
Qed.

Lemma fc_wf (r : Rec exact) : In r (groupby_sum (scale g1 (select ECH4 long))) -> wf_rec r.
Proof. apply groupby_sum_wf, (ch4_wf args df long g1 Hlong). Qed.

Lemma fn_wf (r : Rec exact) : In r (groupby_sum (scale g2 (select EN2O long))) -> wf_rec r.
Proof. apply groupby_sum_wf, (n2o_wf args df long g2 Hlong). Qed.

Lemma ft_wf (r : Rec exact) : In r (total_co2e (scale g1 (select ECH4 long)) (scale g2 (select EN2O long))) -> wf_rec r.
Proof.
  apply total_co2e_wf;
    [apply (ch4_wf args df long g1 Hlong) | apply (n2o_wf args df long g2 Hlong)].
Qed.

(** The value of a Total row whose key carries a CH4 row and an N2O row. *)
Lemma total_value_both (t c n : Rec exact) :
  In t (total_co2e (scale g1 (select ECH4 long)) (scale g2 (select EN2O long))) -> In c (groupby_sum (scale g1 (select ECH4 long))) -> In n (groupby_sum (scale g2 (select EN2O long))) ->
  rec_key3 c = rec_key3 t -> rec_key3 n = rec_key3 t ->
  Value t = vadd (Value c) (Value n).
Proof.
  intros Ht Hc Hn Ec En.
  pose proof (grouped_same_key _ _ c t fc_wf ft_wf Hc Ht Ec) as Kc.
  pose proof (grouped_same_key _ _ n t fn_wf ft_wf Hn Ht En) as Kn.
  apply total_co2e_In in Ht. destruct Ht as [_ ->].
  rewrite <- Kc at 1. rewrite <- Kn.
  rewrite (value_at_present _ c (groupby_sum_NoDup (scale g1 (select ECH4 long))) Hc).
  rewrite (value_at_present _ n (groupby_sum_NoDup (scale g2 (select EN2O long))) Hn).
  destruct (exact_groupby_value _ _ Hc) as (qc & ->).
  destruct (exact_groupby_value _ _ Hn) as (qn & ->).
  reflexivity.
Qed.

Lemma total_value_ch4_only (t c : Rec exact) :
  In t (total_co2e (scale g1 (select ECH4 long)) (scale g2 (select EN2O long))) -> In c (groupby_sum (scale g1 (select ECH4 long))) ->
  rec_key3 c = rec_key3 t ->
  (forall n, In n (groupby_sum (scale g2 (select EN2O long))) -> rec_key3 n <> rec_key3 t) ->
  exact_eq (Value t) (Value c).
Proof.
  intros Ht Hc Ec Hno.
  pose proof (grouped_same_key _ _ c t fc_wf ft_wf Hc Ht Ec) as Kc.
  apply total_co2e_In in Ht. destruct Ht as [_ ->].
  rewrite <- Kc at 1.
  rewrite (value_at_present _ c (groupby_sum_NoDup (scale g1 (select ECH4 long))) Hc).
  rewrite value_at_absent.
  - destruct (exact_groupby_value _ _ Hc) as (qc & ->). simpl. ring.
  - intros Hin. apply in_map_iff in Hin. destruct Hin as (n & En & Hn).
    apply (Hno n Hn). unfold rec_key3. unfold gkey_of in En.
    injection En as -> -> ->. reflexivity.
Qed.

Lemma total_value_n2o_only (t n : Rec exact) :
  In t (total_co2e (scale g1 (select ECH4 long)) (scale g2 (select EN2O long))) -> In n (groupby_sum (scale g2 (select EN2O long))) ->
  rec_key3 n = rec_key3 t ->
  (forall c, In c (groupby_sum (scale g1 (select ECH4 long))) -> rec_key3 c <> rec_key3 t) ->
  exact_eq (Value t) (Value n).
Proof.
  intros Ht Hn En Hno.
  pose proof (grouped_same_key _ _ n t fn_wf ft_wf Hn Ht En) as Kn.
  apply total_co2e_In in Ht. destruct Ht as [_ ->].
  rewrite <- Kn at 2.
  rewrite (value_at_present _ n (groupby_sum_NoDup (scale g2 (select EN2O long))) Hn).
  rewrite value_at_absent.
  - destruct (exact_groupby_value _ _ Hn) as (qn & ->). simpl. ring.
  - intros Hin. apply in_map_iff in Hin. destruct Hin as (c & Ec & Hc).
    apply (Hno c Hc). unfold rec_key3. unfold gkey_of in Ec.
    injection Ec as -> -> ->. reflexivity.
Qed.

(** A Total row exists wherever a CH4 row or an N2O row does. *)
Lemma total_row_exists (r : Rec exact) :
  In r (groupby_sum (scale g1 (select ECH4 long))) \/ In r (groupby_sum (scale g2 (select EN2O long))) ->
  exists t, In t (total_co2e (scale g1 (select ECH4 long)) (scale g2 (select EN2O long))) /\ rec_key3 t = rec_key3 r.
Proof.
  intros Hr.
  exists (rec_of_key (gkey_of r)
            (vadd (fillna0 (value_at (gkey_of r) (groupby_sum (scale g1 (select ECH4 long)))))
                  (fillna0 (value_at (gkey_of r) (groupby_sum (scale g2 (select EN2O long))))))).
  split.
  - apply total_co2e_In. rewrite gkey_of_rec_of_key, Value_rec_of_key.
    split; [|reflexivity].
    destruct Hr as [Hr | Hr]; [left | right];
      apply groupby_sum_key_In; now apply in_map.
  - unfold rec_key3. destruct r. reflexivity.
Qed.

End TotalDerivation.

Lemma nonempty_In {A} (l : list A) : l <> [] <-> exists x, In x l.
Proof.
  destruct l as [|a l]; split.
  - intros Hn. now contradiction Hn.
  - intros (x & []).
  - intros _. exists a. now left.
  - intros _. discriminate.
Qed.

Lemma grouped_row_of {V} `{Arith V} (l : list (Rec V)) :
  l <> [] -> exists r, In r (groupby_sum l).
Proof.
  intros Hn. apply nonempty_In in Hn. destruct Hn as (x & Hx).
  assert (Hk : In (gkey_of x) (map gkey_of (groupby_sum l)))
    by (apply groupby_sum_key_In; now apply in_map).
  apply in_map_iff in Hk. destruct Hk as (r & _ & Hr). now exists r.
Qed.

(** C5.  In exact arithmetic, at every (Area, Item, Year) key [k]: when the
    written table has a CH4_CO2e row and an N2O_CO2e row, it has a
    Total_CO2e row and its value is their sum; when it has only one of the
    two, it has a Total_CO2e row with that value; and the table has
    Total_CO2e rows exactly when [long] holds a CH4 row or an N2O row. *)
Theorem total_co2e_derivation
        (args : Args exact) (df : RawTable exact) (long : list (LongRow exact))
        (out : list (OutRow exact)) (k : key3) :
  long_frame args df = Some long ->
  prepare args df = inl out ->
  (forall c n, has_row out MCH4_CO2e k c -> has_row out MN2O_CO2e k n ->
     (exists t, has_row out MTotal_CO2e k t) /\
     (forall t, has_row out MTotal_CO2e k t -> t = vadd c n))
  /\ (forall c, has_row out MCH4_CO2e k c ->
        (forall n, ~ has_row out MN2O_CO2e k n) ->
        (exists t, has_row out MTotal_CO2e k t) /\
        (forall t, has_row out MTotal_CO2e k t -> exact_eq t c))
  /\ (forall n, has_row out MN2O_CO2e k n ->
        (forall c, ~ has_row out MCH4_CO2e k c) ->
        (exists t, has_row out MTotal_CO2e k t) /\
        (forall t, has_row out MTotal_CO2e k t -> exact_eq t n))
  /\ ((exists k' t, has_row out MTotal_CO2e k' t)
      <-> (select ECH4 long <> [] \/ select EN2O long <> [])).
Proof.
  intros Hlong Hout.
  destruct (@gwp_pair exact _ (gwp args)) as [g1 g2] eqn:Hgwp.
  pose proof (fun m k v => has_row_metric args df long out g1 g2 Hlong Hout Hgwp m k v) as HR.
  split; [|split; [|split]].
  - intros c n Hc Hn.
    apply HR in Hc. destruct Hc as (rc & Ekc & Evc & Hrc).
    apply HR in Hn. destruct Hn as (rn & Ekn & Evn & Hrn).
    split.
    + destruct (total_row_exists long g1 g2 rc (or_introl Hrc)) as (t & Ht & Ekt).
      exists (Value t). apply HR. exists t. repeat split; [congruence | exact Ht].
    + intros t Ht. apply HR in Ht. destruct Ht as (rt & Ekt & Evt & Hrt).
      subst t c n.
      apply (total_value_both args df long g1 g2 Hlong rt rc rn); congruence.
  - intros c Hc Hno.
    apply HR in Hc. destruct Hc as (rc & Ekc & Evc & Hrc).
    split.
    + destruct (total_row_exists long g1 g2 rc (or_introl Hrc)) as (t & Ht & Ekt).
      exists (Value t). apply HR. exists t. repeat split; [congruence | exact Ht].
    + intros t Ht. apply HR in Ht. destruct Ht as (rt & Ekt & Evt & Hrt).
      subst t c.
      apply (total_value_ch4_only args df long g1 g2 Hlong rt rc); try congruence.
      intros n Hn En. apply (Hno (Value n)). apply HR. exists n.
      repeat split; [congruence | exact Hn].
  - intros n Hn Hno.
    apply HR in Hn. destruct Hn as (rn & Ekn & Evn & Hrn).
    split.
    + destruct (total_row_exists long g1 g2 rn (or_intror Hrn)) as (t & Ht & Ekt).
      exists (Value t). apply HR. exists t. repeat split; [congruence | exact Ht].
    + intros t Ht. apply HR in Ht. destruct Ht as (rt & Ekt & Evt & Hrt).
      subst t n.
      apply (total_value_n2o_only args df long g1 g2 Hlong rt rn); try congruence.
      intros c Hc Ec. apply (Hno (Value c)). apply HR. exists c.
      repeat split; [congruence | exact Hc].
  - split.
    + intros (k' & t & Ht). apply HR in Ht. destruct Ht as (rt & _ & _ & Hrt).
      apply total_co2e_In in Hrt. destruct Hrt as [[Hk | Hk] _];
        [left | right]; intros E; rewrite E in Hk; exact Hk.
    + intros Hne.
      assert (Hrow : exists r, In r (groupby_sum (scale g1 (select ECH4 long)))
                            \/ In r (groupby_sum (scale g2 (select EN2O long)))).
      { destruct Hne as [Hne | Hne].
        - destruct (grouped_row_of (scale g1 (select ECH4 long))) as (r & Hr);
            [|exists r; now left].
          intros E. apply Hne. apply map_eq_nil in E. exact E.
        - destruct (grouped_row_of (scale g2 (select EN2O long))) as (r & Hr);
            [|exists r; now right].
          intros E. apply Hne. apply map_eq_nil in E. exact E. }
      destruct Hrow as (r & Hr).
      destruct (total_row_exists long g1 g2 r Hr) as (t & Ht & Ekt).
      exists (rec_key3 t), (Value t). apply HR. exists t. auto.
Qed.

Lemma total_co2e_derivation_witness :
  long_frame default_args gas_table = Some gas_long /\
  prepare default_args gas_table = inl gas_out /\
  has_row gas_out MCH4_CO2e ("Austria", "Sheep", 2020%Z) (Some (544 # 10)) /\
  has_row gas_out MN2O_CO2e ("Austria", "Sheep", 2020%Z) (Some (819 # 1)) /\
  (forall t, has_row gas_out MTotal_CO2e ("Austria", "Sheep", 2020%Z) t ->
             t = vadd (Some (544 # 10)) (Some (819 # 1))).
Proof.
  assert (Hl : long_frame default_args gas_table = Some gas_long)
    by (vm_compute; reflexivity).
  assert (Hp : prepare default_args gas_table = inl gas_out)
    by (vm_compute; reflexivity).
  assert (Hc : has_row gas_out MCH4_CO2e ("Austria", "Sheep", 2020%Z) (Some (544 # 10))).
  { exists (nth 2 gas_out (with_regions (mkM (mkRec "" "" 0%Z None KAll false false false) MLSU))).
    vm_compute. repeat split. tauto. }
  assert (Hn : has_row gas_out MN2O_CO2e ("Austria", "Sheep", 2020%Z) (Some (819 # 1))).
  { exists (nth 3 gas_out (with_regions (mkM (mkRec "" "" 0%Z None KAll false false false) MLSU))).
    vm_compute. repeat split. tauto. }
  split; [exact Hl|]. split; [exact Hp|]. split; [exact Hc|]. split; [exact Hn|].
  exact (proj2 (proj1 (total_co2e_derivation default_args gas_table gas_long gas_out
                         ("Austria", "Sheep", 2020%Z) Hl Hp) _ _ Hc Hn)).
Defined.

(** ** The split in exact arithmetic *)










(** ** The rows of the LSU groups that the split makes *)

Section SplitRows.

Context {V : Type} `{Arith V}.

Lemma group_rows_map_weigh (k : gkey) (l : list (Rec V)) :
  group_rows k (map weigh l) = map weigh (group_rows k l).
Proof. unfold group_rows. apply filter_map_swap. Qed.

Lemma group_rows_app (k : gkey) (l1 l2 : list (Rec V)) :
  group_rows k (l1 ++ l2) = group_rows k l1 ++ group_rows k l2.
Proof. unfold group_rows. apply filter_app. Qed.



Lemma to_split_In (sb : list (Rec V)) (r : Rec V) :
  In r (to_split sb) <-> In r sb /\ mask_generic r = true /\ split_mask sb r = true.
Proof. unfold to_split. rewrite !filter_In. tauto. Qed.








End SplitRows.

Lemma default_lsu_weight_range {V} `{Arith V} (item : string) :
  In (default_lsu_weight item)
     [of_Z 1; dec 8 1; dec 1 1; dec 3 1; dec 1 2].
Proof.
  unfold default_lsu_weight. cbv zeta.
  repeat match goal with
         | |- context [if ?b then _ else _] => destruct b
         end; simpl; tauto.
Qed.




(** ** The totals in binary64 *)

(** On [gas_table] the same holds with IEEE doubles: the Sheep total is
    the float sum of the two gas rows, the Goats total is the methane row
    plus 0.0. *)
Lemma gas_table_totals_binary64 :
  exists out,
    prepare default_args (gas_table (V := binary64)) = inl out /\
    map (fun r => (out_key r, Value (m_rec (o_row r)))) out
    = [(("Austria", "Goats", 2020%Z, MCH4_CO2e), vmul (of_Z 5) (dec 272 1));
       (("Austria", "Goats", 2020%Z, MTotal_CO2e),
        vadd (vmul (of_Z 5) (dec 272 1)) (of_Z 0));
       (("Austria", "Sheep", 2020%Z, MCH4_CO2e), vmul (of_Z 2) (dec 272 1));
       (("Austria", "Sheep", 2020%Z, MN2O_CO2e), vmul (of_Z 3) (of_Z 273));
       (("Austria", "Sheep", 2020%Z, MTotal_CO2e),
        vadd (vmul (of_Z 2) (dec 272 1)) (vmul (of_Z 3) (of_Z 273)))] /\
    vadd (vmul (of_Z 5) (dec 272 1)) (of_Z 0) = (vmul (of_Z 5) (dec 272 1) : binary64).
Proof.
  eexists. split; [vm_compute; reflexivity|].
  split; vm_compute; reflexivity.
Qed.

(** * Further properties of the script *)

(** ** Case and whitespace in the label functions *)

Lemma isspace_lower_char (c : ascii) :
  Str.isspace (Str.lower_char c) = Str.isspace c.
Proof. destruct c as [[] [] [] [] [] [] [] []]; reflexivity. Qed.

Lemma lower_char_idem (c : ascii) :
  Str.lower_char (Str.lower_char c) = Str.lower_char c.
Proof. destruct c as [[] [] [] [] [] [] [] []]; reflexivity. Qed.

Lemma upper_lower_char (c : ascii) :
  Str.upper_char (Str.lower_char c) = Str.upper_char c.
Proof. destruct c as [[] [] [] [] [] [] [] []]; reflexivity. Qed.

Lemma lower_idem (s : string) : Str.lower (Str.lower s) = Str.lower s.
Proof.
  induction s as [|c r IH]; simpl; [reflexivity|].
  rewrite lower_char_idem, IH. reflexivity.
Qed.

Lemma upper_lower (s : string) : Str.upper (Str.lower s) = Str.upper s.
Proof.
  induction s as [|c r IH]; simpl; [reflexivity|].
  rewrite upper_lower_char, IH. reflexivity.
Qed.

Lemma is_empty_lower (s : string) : Str.is_empty (Str.lower s) = Str.is_empty s.
Proof. destruct s; reflexivity. Qed.

Lemma lstrip_lower (s : string) : Str.lstrip (Str.lower s) = Str.lower (Str.lstrip s).
Proof.
  induction s as [|c r IH]; simpl; [reflexivity|].
  rewrite isspace_lower_char. destruct (Str.isspace c); [exact IH | reflexivity].
Qed.

Lemma rstrip_lower (s : string) : Str.rstrip (Str.lower s) = Str.lower (Str.rstrip s).
Proof.
  induction s as [|c r IH]; simpl; [reflexivity|].
  rewrite IH, isspace_lower_char, is_empty_lower.
  destruct (Str.isspace c && Str.is_empty (Str.rstrip r)); reflexivity.
Qed.

Lemma strip_lower (s : string) : Str.strip (Str.lower s) = Str.lower (Str.strip s).
Proof. unfold Str.strip. rewrite lstrip_lower, rstrip_lower. reflexivity. Qed.

(** X1.  [normalize_element] ignores the whitespace around a label and the
    case of its letters. *)
Theorem normalize_element_insensitive (e : string) :
  normalize_element (Str.strip e) = normalize_element e /\
  normalize_element (Str.lower e) = normalize_element e.
Proof.
  unfold normalize_element. split.
  - rewrite strip_idem. reflexivity.
  - rewrite strip_lower, lower_idem. reflexivity.
Qed.

(** X2.  [gwp_pair] ignores the whitespace around the convention name and
    the case of its letters, for every arithmetic. *)
Theorem gwp_pair_insensitive {V} `{Arith V} (name : string) :
  gwp_pair (Str.strip name) = gwp_pair name /\
  gwp_pair (Str.lower name) = gwp_pair name.
Proof.
  unfold gwp_pair. split.
  - rewrite strip_idem. reflexivity.
  - rewrite strip_lower, upper_lower. reflexivity.
Qed.

Lemma canonical_low_lower (s : string) :
  canonical_low (Str.lower s) = canonical_low s.
Proof. unfold canonical_low. rewrite lower_idem. reflexivity. Qed.

(** X3.  The result of [canonical_item] carries no whitespace at its ends,
    and it is one of the three cattle labels exactly when the lower-cased,
    whitespace-normalised input mentions "cattle" or "bovine". *)
Theorem canonical_item_range (s : string) :
  Str.strip (canonical_item s) = canonical_item s /\
  (Str.mem (canonical_item s) ["Cattle, non-dairy"; "Cattle, dairy"; "Cattle"] = true
   <-> Str.contains "cattle" (canonical_low (Str.strip s))
       || Str.contains "bovine" (canonical_low (Str.strip s)) = true).
Proof.
  split.
  - destruct (canonical_item_cases s) as [E | [E | [E | [E _]]]]; rewrite E;
      try reflexivity.
    apply strip_idem.
  - split.
    + intros Hm.
      destruct (Str.contains "cattle" (canonical_low (Str.strip s))
                || Str.contains "bovine" (canonical_low (Str.strip s))) eqn:E;
        [reflexivity|].
      exfalso. unfold canonical_item in Hm. rewrite E in Hm.
      apply mem_In in Hm. simpl in Hm.
      destruct Hm as [Hm | [Hm | [Hm | []]]]; rewrite <- Hm in E;
        vm_compute in E; discriminate.
    + intros E. unfold canonical_item. rewrite E.
      destruct (Re.search true _non_dairy_pat (canonical_low (Str.strip s))
                || Re.search true _other_pat (canonical_low (Str.strip s)));
        [reflexivity|].
      destruct (Re.search true _dairy_pat (canonical_low (Str.strip s))); reflexivity.
Qed.

Lemma canonical_item_range_witness :
  Str.mem (canonical_item " BOVINE  animals ") ["Cattle, non-dairy"; "Cattle, dairy"; "Cattle"]
  = true.
Proof.
  apply (proj2 (proj2 (canonical_item_range " BOVINE  animals "))). reflexivity.
Defined.

(** X4.  The cattle wording is read without regard to case: a label that
    mentions cattle or bovine has the same canonical form as its
    lower-cased copy; and the kind and the LSU weight of a label are those
    of its canonical form. *)
Theorem labels_through_canonical_form {V} `{Arith V} (s : string) :
  (Str.contains "cattle" (canonical_low (Str.strip s))
   || Str.contains "bovine" (canonical_low (Str.strip s)) = true ->
   canonical_item (Str.lower s) = canonical_item s) /\
  item_kind (canonical_item s) = item_kind s /\
  default_lsu_weight (canonical_item s) = default_lsu_weight s.
Proof.
  split; [|split].
  - intros E. unfold canonical_item.
    rewrite strip_lower, canonical_low_lower, E. reflexivity.
  - unfold item_kind. rewrite canonical_item_idem. reflexivity.
  - unfold default_lsu_weight. rewrite canonical_item_idem. reflexivity.
Qed.

Lemma labels_through_canonical_form_witness :
  Str.contains "cattle" (canonical_low (Str.strip " DAIRY  Cattle "))
  || Str.contains "bovine" (canonical_low (Str.strip " DAIRY  Cattle ")) = true /\
  canonical_item (Str.lower " DAIRY  Cattle ") = canonical_item " DAIRY  Cattle ".
Proof.
  assert (E : Str.contains "cattle" (canonical_low (Str.strip " DAIRY  Cattle "))
              || Str.contains "bovine" (canonical_low (Str.strip " DAIRY  Cattle ")) = true)
    by reflexivity.
  split; [exact E|].
  exact (proj1 (labels_through_canonical_form (V := exact) " DAIRY  Cattle ") E).
Defined.

(** ** What every written row satisfies *)

Section WrittenRows.

Context {V : Type} `{Arith V}.

Lemma written_row_wf (args : Args V) (df : RawTable V) (out : list (OutRow V))
      (r : OutRow V) :
  prepare args df = inl out -> In r out ->
  wf_rec (m_rec (o_row r)) /\ r = with_regions (o_row r).
Proof.
  intros Hp Hin.
  destruct (prepare_inl _ _ _ Hp) as (long & El & -> & _).
  pose proof (prepared_wf args df long El) as Hwf.
  apply (finish_In _ _ Hwf) in Hin. destruct Hin as [Hin Er].
  split; [exact (Hwf _ Hin) | exact Er].
Qed.

End WrittenRows.

(** X5.  No written row carries an item of the stop list ("Chickens",
    "Mules and hinnies", "(blank)" or the empty label, in any case), and
    the item of every written row is in canonical form, without
    whitespace at its ends. *)
Theorem written_items_canonical {V} `{Arith V}
        (args : Args V) (df : RawTable V) (out : list (OutRow V)) (r : OutRow V) :
  prepare args df = inl out ->
  In r out ->
  excluded (Item (m_rec (o_row r))) = false /\
  canonical_item (Item (m_rec (o_row r))) = Item (m_rec (o_row r)) /\
  Str.strip (Item (m_rec (o_row r))) = Item (m_rec (o_row r)).
Proof.
  intros Hp Hin.
  destruct (written_row_wf args df out r Hp Hin) as [Hwf _].
  unfold wf_rec, gkey_of in Hwf. simpl in Hwf.
  destruct Hwf as (Hc & Hx & _).
  split; [exact Hx|]. split; [exact Hc|].
  rewrite <- Hc.
  destruct (canonical_item_cases (Item (m_rec (o_row r)))) as [E | [E | [E | [E _]]]];
    rewrite E; try reflexivity.
  apply strip_idem.
Qed.

Lemma written_items_canonical_witness :
  prepare default_args one_row
  = inl [stocks_cattle_row; lsu_dairy_row; lsu_non_dairy_row] /\
  In lsu_non_dairy_row [stocks_cattle_row; lsu_dairy_row; lsu_non_dairy_row] /\
  excluded (Item (m_rec (o_row lsu_non_dairy_row))) = false.
Proof.
  assert (Hp : prepare default_args one_row
               = inl [stocks_cattle_row; lsu_dairy_row; lsu_non_dairy_row])
    by (vm_compute; reflexivity).
  assert (Hin : In lsu_non_dairy_row [stocks_cattle_row; lsu_dairy_row; lsu_non_dairy_row])
    by (right; right; left; reflexivity).
  split; [exact Hp|]. split; [exact Hin|].
  exact (proj1 (written_items_canonical default_args one_row _ lsu_non_dairy_row Hp Hin)).
Defined.

(** X6.  The derived columns of a written row are functions of its labels:
    [item_kind] is the kind of its Item, exactly one of [is_all],
    [is_aggregated], [is_atomic] is set and it is the one of that kind
    (also on the rows the split makes), and the three region flags are
    [region_flags] of its Area. *)
Theorem written_flags_consistent {V} `{Arith V}
        (args : Args V) (df : RawTable V) (out : list (OutRow V)) (r : OutRow V) :
  prepare args df = inl out ->
  In r out ->
  col_item_kind (m_rec (o_row r)) = item_kind (Item (m_rec (o_row r))) /\
  (is_all (m_rec (o_row r)), is_aggregated (m_rec (o_row r)), is_atomic (m_rec (o_row r)))
  = match item_kind (Item (m_rec (o_row r))) with
    | KAll => (true, false, false)
    | KAggregated => (false, true, false)
    | KAtomic => (false, false, true)
    end /\
  (region_europe r, region_EU r, region_EUEEAUK r)
  = region_flags (Area (m_rec (o_row r))).
Proof.
  intros Hp Hin.
  destruct (written_row_wf args df out r Hp Hin) as [Hwf Er].
  unfold wf_rec, gkey_of in Hwf. simpl in Hwf.
  destruct Hwf as (_ & _ & Hk & Ha & Hg & Ht).
  split; [exact Hk|]. split.
  - rewrite Ha, Hg, Ht, Hk.
    destruct (item_kind (Item (m_rec (o_row r)))); reflexivity.
  - destruct (region_flags (Area (m_rec (o_row r)))) as [[e u] k] eqn:Ef.
    rewrite Er, (with_regions_flags (o_row r) e u k Ef). reflexivity.
Qed.

Lemma written_flags_consistent_witness :
  prepare default_args one_row
  = inl [stocks_cattle_row; lsu_dairy_row; lsu_non_dairy_row] /\
  In lsu_dairy_row [stocks_cattle_row; lsu_dairy_row; lsu_non_dairy_row] /\
  col_item_kind (m_rec (o_row lsu_dairy_row))
  = item_kind (Item (m_rec (o_row lsu_dairy_row))).
Proof.
  assert (Hp : prepare default_args one_row
               = inl [stocks_cattle_row; lsu_dairy_row; lsu_non_dairy_row])
    by (vm_compute; reflexivity).
  assert (Hin : In lsu_dairy_row [stocks_cattle_row; lsu_dairy_row; lsu_non_dairy_row])
    by (right; left; reflexivity).
  split; [exact Hp|]. split; [exact Hin|].
  exact (proj1 (written_flags_consistent default_args one_row _ lsu_dairy_row Hp Hin)).
Defined.

(** ** Where the Area and the Year of a written row come from *)

Section Provenance.

Context {V : Type} `{Arith V}.

Lemma clean_In_raw (rs : list (RawRow V)) (r : RawRow V) :
  In r (clean rs) ->
  exists r0, In r0 rs /\
             raw_Area r = Str.strip (raw_Area r0) /\
             raw_Element r = Str.strip (raw_Element r0) /\
             excluded (Str.strip (raw_Item r0)) = false.
Proof.
  unfold clean. intros Hin. apply in_map_iff in Hin.
  destruct Hin as (r1 & <- & Hr1). apply filter_In in Hr1.
  destruct Hr1 as [Hr1 Hex]. apply in_map_iff in Hr1.
  destruct Hr1 as (r0 & <- & Hr0). simpl in *.
  exists r0. repeat split; [exact Hr0 | now apply negb_true_iff].
Qed.

Lemma flagged_In_raw (only_lt : bool) (rs : list (RawRow V)) (d : DfRow V) :
  In d (flagged only_lt rs) ->
  exists r0, In r0 rs /\
             d_Area d = Str.strip (raw_Area r0) /\
             excluded (Str.strip (raw_Item r0)) = false /\
             normalize_element (Str.strip (raw_Element r0)) = Some (d_ElementNorm d).
Proof.
  unfold flagged. intros Hin. apply in_map_iff in Hin.
  destruct Hin as (re & <- & Hre).
  apply restrict_In, with_element_norm_In in Hre. destruct Hre as [Hre Hn].
  destruct (clean_In_raw _ _ Hre) as (r0 & Hr0 & Ea & Ee & Hx).
  exists r0. split; [exact Hr0|].
  assert (Hf : d_Area (with_flags re) = raw_Area (fst re) /\
               d_ElementNorm (with_flags re) = snd re).
  { unfold with_flags. destruct (region_flags (raw_Area (fst re))) as [[e u] k].
    split; reflexivity. }
  destruct Hf as [Ka Ke].
  rewrite Ka, Ke, Ea, <- Ee. auto.
Qed.

Lemma long_frame_In (args : Args V) (df : RawTable V) (long : list (LongRow V))
      (l : LongRow V) :
  long_frame args df = Some long -> In l long ->
  exists c d, In c (detect_year_cols (columns df)) /\
              In d (flagged (truthy (only_livestock_total args)) (rows df)) /\
              melt_row (c, d) = Some l.
Proof.
  unfold long_frame, melt. intros E Hin.
  destruct (Str.mem "Value" (columns df)); [discriminate|].
  destruct (traverse_In _ _ _ E l Hin) as ([c d] & Hcd & Em).
  apply in_prod_iff in Hcd. destruct Hcd as [Hc Hd].
  exists c, d. auto.
Qed.

Lemma groupby_sum_area_year (P : string -> Z -> Prop) (l : list (Rec V)) :
  (forall r, In r l -> P (Area r) (Year r)) ->
  forall r, In r (groupby_sum l) -> P (Area r) (Year r).
Proof.
  intros HP r Hr.
  assert (Hk : In (gkey_of r) (map gkey_of l))
    by (apply groupby_sum_key_In; now apply in_map).
  apply in_map_iff in Hk. destruct Hk as (r0 & E & Hr0).
  unfold gkey_of in E. injection E as Ea _ Ey _ _ _ _.
  rewrite <- Ea, <- Ey. now apply HP.
Qed.

Lemma total_co2e_area_year (P : string -> Z -> Prop) (c n : list (Rec V)) :
  (forall r, In r c -> P (Area r) (Year r)) ->
  (forall r, In r n -> P (Area r) (Year r)) ->
  forall r, In r (total_co2e c n) -> P (Area r) (Year r).
Proof.
  intros Hc Hn r Hr.
  assert (Hk : In (gkey_of r) (map gkey_of (total_co2e c n))) by now apply in_map.
  apply total_co2e_key_In in Hk.
  destruct Hk as [Hk | Hk]; apply in_map_iff in Hk; destruct Hk as (r0 & E & Hr0);
    unfold gkey_of in E; injection E as Ea _ Ey _ _ _ _; rewrite <- Ea, <- Ey;
    [now apply Hc | now apply Hn].
Qed.

Lemma lsu_frame_area_year (P : string -> Z -> Prop) (split : bool) (frac : V)
      (stocks : list (Rec V)) :
  (forall r, In r stocks -> P (Area r) (Year r)) ->
  forall r, In r (lsu_frame split frac stocks) -> P (Area r) (Year r).
Proof.
  intros HP. unfold lsu_frame. apply groupby_sum_area_year.
  assert (Hsb : forall r, In r (map (set_Item canonical_item) stocks) ->
                          P (Area r) (Year r)).
  { intros r Hr. apply in_map_iff in Hr. destruct Hr as (r0 & <- & Hr0).
    exact (HP r0 Hr0). }
  intros r Hr. apply in_map_iff in Hr. destruct Hr as (r1 & <- & Hr1).
  change (P (Area r1) (Year r1)).
  destruct (split_step_In _ _ _ _ Hr1) as [Hin | [Hin | Hin]].
  - now apply Hsb.
  - apply in_map_iff in Hin. destruct Hin as (r0 & <- & Hr0).
    apply (proj1 (to_split_In _ _)) in Hr0.
    change (P (Area r0) (Year r0)). apply Hsb. tauto.
  - apply in_map_iff in Hin. destruct Hin as (r0 & <- & Hr0).
    apply (proj1 (to_split_In _ _)) in Hr0.
    change (P (Area r0) (Year r0)). apply Hsb. tauto.
Qed.

(** What holds of the Area and Year of every row of [long] holds of those
    of every row of [prepared]. *)
Lemma prepared_area_year (P : string -> Z -> Prop) (args : Args V)
      (long : list (LongRow V)) :
  (forall l, In l long -> P (Area (l_rec l)) (Year (l_rec l))) ->
  forall m, In m (List.concat (prepared args long)) ->
            P (Area (m_rec m)) (Year (m_rec m)).
Proof.
  intros HP m Hm.
  assert (Hsel : forall e r, In r (select e long) -> P (Area r) (Year r)).
  { intros e r Hr. apply select_In in Hr. destruct Hr as (l & Hl & _ & <-).
    now apply HP. }
  assert (Hsc : forall g e r, In r (scale g (select e long)) -> P (Area r) (Year r)).
  { intros g e r Hr. apply in_map_iff in Hr. destruct Hr as (r0 & <- & Hr0).
    exact (Hsel e r0 Hr0). }
  destruct (gwp_pair (gwp args)) as [g1 g2] eqn:Eg.
  rewrite (concat_prepared args long g1 g2 Eg) in Hm.
  rewrite !in_app_iff, !tag_In in Hm.
  destruct Hm as [[_ Hr] | [[_ Hr] | [[_ Hr] | [[_ Hr] | [_ Hr]]]]].
  - exact (Hsel _ _ Hr).
  - revert Hr. apply groupby_sum_area_year, Hsc.
  - revert Hr. apply groupby_sum_area_year, Hsc.
  - revert Hr. apply total_co2e_area_year; apply Hsc.
  - revert Hr. apply lsu_frame_area_year, Hsel.
Qed.

End Provenance.

(** X7.  The Area of every written row is the stripped Area of a row of the
    CSV whose item is not on the stop list and whose element is
    recognised, and its Year is the integer after the "Y" of one of the
    detected year columns: the script invents neither countries nor
    years. *)
Theorem written_area_year_provenance {V} `{Arith V}
        (args : Args V) (df : RawTable V) (out : list (OutRow V)) (r : OutRow V) :
  prepare args df = inl out ->
  In r out ->
  exists raw c,
    In raw (rows df) /\
    In c (detect_year_cols (columns df)) /\
    Area (m_rec (o_row r)) = Str.strip (raw_Area raw) /\
    Str.parse_int (Str.tail c) = Some (Year (m_rec (o_row r))) /\
    excluded (Str.strip (raw_Item raw)) = false /\
    normalize_element (Str.strip (raw_Element raw)) <> None.
Proof.
  intros Hp Hin.
  destruct (prepare_inl _ _ _ Hp) as (long & El & -> & _).
  apply (finish_In _ _ (prepared_wf args df long El)) in Hin. destruct Hin as [Hin _].
  revert Hin.
  apply (prepared_area_year
           (fun a y => exists raw c,
                In raw (rows df) /\ In c (detect_year_cols (columns df)) /\
                a = Str.strip (raw_Area raw) /\
                Str.parse_int (Str.tail c) = Some y /\
                excluded (Str.strip (raw_Item raw)) = false /\
                normalize_element (Str.strip (raw_Element raw)) <> None)).
  intros l Hl.
  destruct (long_frame_In args df long l El Hl) as (c & d & Hc & Hd & Em).
  destruct (melt_row_rec c d l Em) as (y & Ek & _ & Ey & _).
  destruct (flagged_In_raw _ _ d Hd) as (raw & Hraw & Ea & Hx & Hn).
  unfold gkey_of in Ek. injection Ek as Ka _ Ky _ _ _ _.
  exists raw, c. rewrite Ka, Ky. repeat split; auto. congruence.
Qed.

Lemma written_area_year_provenance_witness :
  prepare default_args one_row
  = inl [stocks_cattle_row; lsu_dairy_row; lsu_non_dairy_row] /\
  In lsu_dairy_row [stocks_cattle_row; lsu_dairy_row; lsu_non_dairy_row] /\
  exists raw c,
    In raw (rows (one_row (V := binary64))) /\
    In c (detect_year_cols (columns (one_row (V := binary64)))) /\
    Area (m_rec (o_row lsu_dairy_row)) = Str.strip (raw_Area raw) /\
    Str.parse_int (Str.tail c) = Some (Year (m_rec (o_row lsu_dairy_row))) /\
    excluded (Str.strip (raw_Item raw)) = false /\
    normalize_element (Str.strip (raw_Element raw)) <> None.
Proof.
  assert (Hp : prepare default_args one_row
               = inl [stocks_cattle_row; lsu_dairy_row; lsu_non_dairy_row])
    by (vm_compute; reflexivity).
  assert (Hin : In lsu_dairy_row [stocks_cattle_row; lsu_dairy_row; lsu_non_dairy_row])
    by (right; left; reflexivity).
  split; [exact Hp|]. split; [exact Hin|].
  exact (written_area_year_provenance default_args one_row _ lsu_dairy_row Hp Hin).
Defined.

(** ** Stock rows and the order of the written table *)

(** X8.  The stock rows are written as they are read: the written rows of
    Metric Stocks are, up to order, the stock rows of [long], one written
    row for each with its value untouched. *)
Theorem stocks_written_as_read {V} `{Arith V}
        (args : Args V) (df : RawTable V) (long : list (LongRow V))
        (out : list (OutRow V)) :
  long_frame args df = Some long ->
  prepare args df = inl out ->
  Permutation (map o_row (filter (fun r => is_stocks (Metric (o_row r))) out))
              (tag MStocks (select EStocks long)).
Proof.
  intros El Hp.
  rewrite (out_is_finish args df long out El Hp).
  rewrite (finish_wf _ (prepared_wf args df long El)).
  rewrite filter_map_swap, map_map.
  erewrite map_ext by (intros m; apply with_regions_row). rewrite map_id.
  erewrite filter_ext by (intros m; rewrite with_regions_row; reflexivity).
  rewrite (Permutation_filter_compat _ _ _ (sort_by_perm _ _)).
  destruct (gwp_pair (gwp args)) as [g1 g2] eqn:Eg.
  rewrite (concat_prepared args long g1 g2 Eg), !filter_app.
  rewrite !(filter_tag is_stocks). simpl. rewrite !app_nil_r. reflexivity.
Qed.

Lemma stocks_written_as_read_witness :
  long_frame default_args one_row = Some one_row_long /\
  prepare default_args one_row = inl one_row_out /\
  Permutation (map o_row (filter (fun r => is_stocks (Metric (o_row r))) one_row_out))
              (tag MStocks (select EStocks one_row_long)).
Proof.
  assert (Hl : long_frame default_args one_row = Some one_row_long)
    by (vm_compute; reflexivity).
  assert (Hp : prepare default_args one_row = inl one_row_out)
    by (vm_compute; reflexivity).
  split; [exact Hl|]. split; [exact Hp|].
  exact (stocks_written_as_read default_args one_row one_row_long one_row_out Hl Hp).
Defined.

Lemma lex_opp (c1 c2 : comparison) :
  lex (CompOpp c1) (CompOpp c2) = CompOpp (lex c1 c2).
Proof. destruct c1; reflexivity. Qed.

Lemma okey_compare_antisym (a b : okey) :
  okey_compare b a = CompOpp (okey_compare a b).
Proof.
  destruct a as [[[a1 a2] a3] a4], b as [[[b1 b2] b3] b4]. unfold okey_compare.
  rewrite (String.compare_antisym b1 a1), (String.compare_antisym b2 a2),
    (Z.compare_antisym a3 b3),
    (String.compare_antisym (metric_name b4) (metric_name a4)).
  rewrite !lex_opp. reflexivity.
Qed.

Lemma okey_leb_total (a b : okey) : okey_leb a b = false -> okey_leb b a = true.
Proof.
  unfold okey_leb. rewrite (okey_compare_antisym a b).
  destruct (okey_compare a b); simpl; congruence.
Qed.

Lemma insert_by_sorted {A} (le : A -> A -> bool) (x : A) (l : list A) :
  (forall a b, le a b = false -> le b a = true) ->
  Sorted (fun a b => le a b = true) l ->
  Sorted (fun a b => le a b = true) (insert_by le x l).
Proof.
  intros Htot Hs. induction l as [|y t IH]; simpl.
  - constructor; constructor.
  - destruct (le x y) eqn:E.
    + constructor; [exact Hs | constructor; exact E].
    + apply Sorted_inv in Hs. destruct Hs as [Hs Hhd].
      constructor; [now apply IH|].
      destruct t as [|z t']; simpl.
      * constructor. now apply Htot.
      * destruct (le x z); constructor; [now apply Htot|].
        inversion Hhd; assumption.
Qed.

Lemma sort_by_sorted {A} (le : A -> A -> bool) (l : list A) :
  (forall a b, le a b = false -> le b a = true) ->
  Sorted (fun a b => le a b = true) (sort_by le l).
Proof.
  intros Htot. induction l as [|x t IH]; simpl; [constructor|].
  now apply insert_by_sorted.
Qed.

Lemma Sorted_map_key {A B} (f : A -> B) (R : A -> A -> Prop) (R' : B -> B -> Prop)
      (l : list A) :
  (forall a b, R a b -> R' (f a) (f b)) ->
  Sorted R l -> Sorted R' (map f l).
Proof.
  intros HR Hs. induction Hs as [|a l Hs IH Hhd]; simpl; [constructor|].
  constructor; [exact IH|].
  destruct Hhd as [|b l' Hab]; simpl; constructor. now apply HR.
Qed.

(** X9.  The written table is in non-decreasing order of the key
    (Area, Item, Year, Metric), strings compared by code point and Metric
    by its name. *)
Theorem written_table_sorted {V} `{Arith V}
        (args : Args V) (df : RawTable V) (out : list (OutRow V)) :
  prepare args df = inl out ->
  Sorted (fun a b => okey_leb (out_key a) (out_key b) = true) out.
Proof.
  intros Hp.
  destruct (prepare_inl _ _ _ Hp) as (long & El & -> & _).
  rewrite (finish_wf _ (prepared_wf args df long El)).
  apply (Sorted_map_key with_regions
           (fun a b => okey_leb (okey_of a) (okey_of b) = true)).
  - intros a b Hab. unfold out_key. rewrite !with_regions_row. exact Hab.
  - apply (sort_by_sorted (fun a b => okey_leb (okey_of a) (okey_of b))).
    intros a b. apply okey_leb_total.
Qed.

Lemma written_table_sorted_witness :
  prepare default_args gas_table = inl gas_out /\
  Sorted (fun a b => okey_leb (out_key a) (out_key b) = true) gas_out.
Proof.
  assert (Hp : prepare default_args gas_table = inl gas_out)
    by (vm_compute; reflexivity).
  split; [exact Hp|].
  exact (written_table_sorted default_args gas_table gas_out Hp).
Defined.

(** ** Conversions in exact arithmetic *)

Import Views.

Lemma key3_eqb_eq (a b : key3) : key3_eqb a b = true <-> a = b.
Proof.
  destruct a as [[a1 a2] a3], b as [[b1 b2] b3]. unfold key3_eqb.
  rewrite !andb_true_iff, !String.eqb_eq, Z.eqb_eq.
  split; [intros [[-> ->] ->]; reflexivity | intros E; injection E; auto].
Qed.

Lemma group_rows_rows_at {V} (l : list (Rec V)) (k : gkey) :
  (forall r, In r l -> wf_rec r) -> wf_key k ->
  group_rows k l = rows_at (key3_of k) l.
Proof.
  intros Hwf Hk. unfold group_rows, rows_at. apply filter_ext_in.
  intros r Hr.
  destruct (key3_eqb (rec_key3 r) (key3_of k)) eqn:E.
  - apply key3_eqb_eq in E. apply gkey_eqb_eq.
    apply wf_key_inj; [now apply Hwf | exact Hk | exact E].
  - apply gkey_eqb_neq. intros K.
    assert (E' : key3_eqb (rec_key3 r) (key3_of k) = true).
    { apply key3_eqb_eq. rewrite <- K. destruct r; reflexivity. }
    congruence.
Qed.

Lemma exact_vsum_scale1_from (vs : list exact) (w a b : Q) :
  (b == a * w)%Q ->
  exists qa qb,
    vsum_from (Some a) vs = Some qa /\
    vsum_from (Some b) (map (fun v => vmul v (Some w)) vs) = Some qb /\
    (qb == qa * w)%Q.
Proof.
  unfold vsum_from.
  revert a b. induction vs as [|v vs IH]; intros a b Hab; simpl.
  - exists a, b. auto.
  - destruct v as [x|]; simpl.
    + apply IH. rewrite Hab. ring.
    + apply IH. exact Hab.
Qed.

Lemma exact_vsum_scale1 (vs : list exact) (w : Q) :
  exact_eq (vsum (map (fun v => vmul v (Some w)) vs)) (vmul (vsum vs) (Some w)).
Proof.
  unfold vsum.
  destruct (exact_vsum_scale1_from vs w (inject_Z 0) (inject_Z 0)) as (qa & qb & Ea & Eb & E).
  - unfold inject_Z. ring.
  - change (@of_Z exact _ 0) with (Some (inject_Z 0)).
    rewrite Ea, Eb. simpl. exact E.
Qed.

Lemma exact_group_sum_scale1 (vs : list exact) (w : Q) :
  exact_eq (group_sum (map (fun v => vmul v (Some w)) vs)) (vmul (vsum vs) (Some w)).
Proof.
  eapply exact_eq_trans; [apply exact_group_sum | apply exact_vsum_scale1].
Qed.

Lemma gwp_pair_exact_some (name : string) :
  exists a b, @gwp_pair exact _ name = (Some a, Some b).
Proof.
  unfold gwp_pair.
  repeat match goal with
         | |- context [if ?b then _ else _] => destruct b
         end; eexists; eexists; reflexivity.
Qed.

Lemma default_lsu_weight_exact_some (item : string) :
  exists w, @default_lsu_weight exact _ item = Some w.
Proof.
  destruct (default_lsu_weight_range (V := exact) item) as [E | [E | [E | [E | [E | []]]]]];
    rewrite <- E; eexists; reflexivity.
Qed.

Lemma group_rows_scale {V} `{Arith V} (k : gkey) (g : V) (l : list (Rec V)) :
  group_rows k (scale g l) = scale g (group_rows k l).
Proof. unfold group_rows, scale. apply filter_map_swap. Qed.

Lemma scale_values {V} `{Arith V} (g : V) (l : list (Rec V)) :
  map Value (scale g l) = map (fun v => vmul v g) (map Value l).
Proof. unfold scale. rewrite !map_map. reflexivity. Qed.

Lemma grouped_scaled_value (l : list (Rec exact)) (g : Q) (r : Rec exact) :
  (forall x, In x l -> wf_rec x) ->
  In r (groupby_sum (scale (Some g) l)) ->
  exact_eq (Value r)
           (vmul (vsum (map Value (rows_at (rec_key3 r) l))) (Some g)).
Proof.
  intros Hwf Hr.
  assert (Hk : wf_rec r).
  { revert r Hr. apply groupby_sum_wf, scale_wf, Hwf. }
  apply groupby_sum_In in Hr. destruct Hr as [_ ->].
  rewrite group_rows_scale, scale_values.
  rewrite (group_rows_rows_at l (gkey_of r) Hwf Hk).
  replace (key3_of (gkey_of r)) with (rec_key3 r) by (destruct r; reflexivity).
  apply exact_group_sum_scale1.
Qed.

(** X10.  In exact arithmetic the CH4_CO2e value written at a key is the
    sum of the methane cells read at that key (missing cells skipped)
    times the CH4 factor of the chosen convention, and likewise for
    N2O_CO2e with the N2O factor: duplicate rows are added up, nothing
    else enters the value. *)
Theorem co2e_is_gwp_times_sum
        (args : Args exact) (df : RawTable exact) (long : list (LongRow exact))
        (out : list (OutRow exact)) (k : key3) (v : exact) :
  long_frame args df = Some long ->
  prepare args df = inl out ->
  (has_row out MCH4_CO2e k v ->
   exact_eq v (vmul (raw_total ECH4 k long) (fst (gwp_pair (gwp args))))) /\
  (has_row out MN2O_CO2e k v ->
   exact_eq v (vmul (raw_total EN2O k long) (snd (gwp_pair (gwp args))))).
Proof.
  intros Hlong Hout.
  destruct (gwp_pair_exact_some (gwp args)) as (a & b & Hgwp).
  rewrite Hgwp. simpl fst. simpl snd.
  pose proof (fun m => has_row_metric args df long out (Some a) (Some b)
                         Hlong Hout Hgwp m k v) as HR.
  assert (Hsel : forall e x, In x (select e long) -> wf_rec x).
  { intros e x Hx. apply select_In in Hx. destruct Hx as (l & Hl & _ & <-).
    exact (long_frame_wf args df long l Hlong Hl). }
  unfold raw_total. split; intros Hrow; apply HR in Hrow;
    destruct Hrow as (r & <- & <- & Hr).
  - exact (grouped_scaled_value _ a r (Hsel ECH4) Hr).
  - exact (grouped_scaled_value _ b r (Hsel EN2O) Hr).
Qed.

Lemma co2e_is_gwp_times_sum_witness :
  long_frame default_args gas_table = Some gas_long /\
  prepare default_args gas_table = inl gas_out /\
  (has_row gas_out MCH4_CO2e ("Austria", "Sheep", 2020%Z) (Some (544 # 10)) ->
   exact_eq (Some (544 # 10))
            (vmul (raw_total ECH4 ("Austria", "Sheep", 2020%Z) gas_long)
                  (fst (gwp_pair (gwp (default_args (V := exact))))))).
Proof.
  assert (Hl : long_frame default_args gas_table = Some gas_long)
    by (vm_compute; reflexivity).
  assert (Hp : prepare default_args gas_table = inl gas_out)
    by (vm_compute; reflexivity).
  split; [exact Hl|]. split; [exact Hp|].
  exact (proj1 (co2e_is_gwp_times_sum default_args gas_table gas_long gas_out
                  ("Austria", "Sheep", 2020%Z) (Some (544 # 10)) Hl Hp)).
Defined.

(** ** Livestock units *)

Section LsuOther.

Context {V : Type} `{Arith V}.

(** The split leaves alone the group of an item that is neither the
    generic cattle label nor one of the two derived labels. *)
Lemma group_rows_split_other (split : bool) (f : V) (sb : list (Rec V))
      (a i : string) (y : Z) (kd : Kind) (b1 b2 b3 : bool) :
  Re.fullmatch true (Re.lit "cattle") i = false ->
  Str.mem i ["Cattle, dairy"; "Cattle, non-dairy"] = false ->
  group_rows (a, i, y, kd, b1, b2, b3) (split_step split f sb)
  = group_rows (a, i, y, kd, b1, b2, b3) sb.
Proof.
  intros Hg Hl.
  set (k := (a, i, y, kd, b1, b2, b3) : gkey).
  assert (Hitem : forall r : Rec V, gkey_eqb (gkey_of r) k = true -> Item r = i).
  { intros r E. apply gkey_eqb_eq in E. unfold gkey_of, k in E.
    injection E as _ Ei _ _ _ _ _. exact Ei. }
  assert (Hnc : group_rows k (non_cattle sb) = group_rows k sb).
  { unfold group_rows, non_cattle. apply filter_absorb.
    intros r _ E. unfold mask_generic. rewrite (Hitem r E), Hg. reflexivity. }
  assert (Hkg : group_rows k (keep_generic sb) = []).
  { unfold group_rows. apply filter_none. intros r Hr.
    unfold keep_generic in Hr. apply filter_In in Hr. destruct Hr as [Hr _].
    apply filter_In in Hr. destruct Hr as [_ Hm].
    destruct (gkey_eqb (gkey_of r) k) eqn:E; [|reflexivity].
    unfold mask_generic in Hm. rewrite (Hitem r E) in Hm. congruence. }
  assert (Hmade : forall label fr l,
             Str.mem label ["Cattle, dairy"; "Cattle, non-dairy"] = true ->
             group_rows k (map (derived label fr) l) = []).
  { intros label fr l Hm. unfold group_rows. apply filter_none.
    intros r Hr. apply in_map_iff in Hr. destruct Hr as (r0 & <- & _).
    destruct (gkey_eqb (gkey_of (derived label fr r0)) k) eqn:E; [|reflexivity].
    apply Hitem in E. simpl in E. subst label. congruence. }
  unfold split_step.
  destruct split; [|reflexivity].
  destruct (empty (filter mask_generic sb)); [reflexivity|].
  destruct (empty (to_split sb)).
  - rewrite group_rows_app, Hnc, Hkg. apply app_nil_r.
  - unfold dairy, other.
    rewrite !group_rows_app, Hnc, Hkg, !Hmade by reflexivity.
    rewrite !app_nil_r. reflexivity.
Qed.

Lemma weighed_values_of_item (i : string) (l : list (Rec V)) :
  (forall r, In r l -> Item r = i) ->
  map Value (map weigh l)
  = map (fun v => vmul v (default_lsu_weight i)) (map Value l).
Proof.
  intros Hi. rewrite !map_map. apply map_ext_in.
  intros r Hr. unfold weigh. simpl. rewrite (Hi r Hr). reflexivity.
Qed.

End LsuOther.

(** X11.  In exact arithmetic, for an item that is neither the generic
    cattle label nor "Cattle, dairy" / "Cattle, non-dairy", the LSU value
    written at a key is the sum of the stock cells read at that key
    (missing cells skipped) times [default_lsu_weight] of the item;
    neither the split option nor the dairy share changes it. *)
Theorem lsu_is_weight_times_stock
        (args : Args exact) (df : RawTable exact) (long : list (LongRow exact))
        (out : list (OutRow exact)) (a i : string) (y : Z) (v : exact) :
  long_frame args df = Some long ->
  prepare args df = inl out ->
  Re.fullmatch true (Re.lit "cattle") i = false ->
  Str.mem i ["Cattle, dairy"; "Cattle, non-dairy"] = false ->
  has_row out MLSU (a, i, y) v ->
  exact_eq v (vmul (raw_total EStocks (a, i, y) long) (default_lsu_weight i)).
Proof.
  intros Hlong Hout Hg Hl Hrow.
  destruct (@gwp_pair exact _ (gwp args)) as [g1 g2] eqn:Hgwp.
  apply (has_row_metric args df long out g1 g2 Hlong Hout Hgwp) in Hrow.
  destruct Hrow as (r & Ek & <- & Hr).
  pose proof (stocks_wf args df long Hlong) as Hwf.
  assert (Hrwf : wf_rec r).
  { revert Hr. apply lsu_frame_wf, Hwf. }
  unfold lsu_frame in Hr. rewrite (map_set_Item_wf _ Hwf) in Hr.
  apply groupby_sum_In in Hr. destruct Hr as [_ ->].
  rewrite group_rows_map_weigh.
  assert (Egk : gkey_of r
                = (a, i, y, col_item_kind r, is_all r, is_aggregated r, is_atomic r)).
  { unfold rec_key3 in Ek. injection Ek as <- <- <-. reflexivity. }
  rewrite Egk.
  rewrite (group_rows_split_other _ _ _ a i y _ _ _ _ Hg Hl).
  rewrite <- Egk.
  rewrite (weighed_values_of_item i).
  - rewrite (group_rows_rows_at _ (gkey_of r) Hwf Hrwf).
    replace (key3_of (gkey_of r)) with (a, i, y)
      by (rewrite <- Ek; destruct r; reflexivity).
    unfold raw_total.
    destruct (default_lsu_weight_exact_some i) as (w & ->).
    apply exact_group_sum_scale1.
  - intros x Hx. unfold group_rows in Hx. apply filter_In in Hx.
    destruct Hx as [_ E]. apply gkey_eqb_eq in E. rewrite Egk in E.
    unfold gkey_of in E. injection E as _ Ei _ _ _ _ _. exact Ei.
Qed.

Lemma lsu_is_weight_times_stock_witness :
  exists long out,
    long_frame default_args (sheep_table (V := exact)) = Some long /\
    prepare default_args (sheep_table (V := exact)) = inl out /\
    Re.fullmatch true (Re.lit "cattle") "Sheep" = false /\
    Str.mem "Sheep" ["Cattle, dairy"; "Cattle, non-dairy"] = false /\
    has_row out MLSU ("France", "Sheep", 2020%Z) (Some (20 # 10)) /\
    exact_eq (Some (20 # 10))
             (vmul (raw_total EStocks ("France", "Sheep", 2020%Z) long)
                   (default_lsu_weight "Sheep")).
Proof.
  destruct (long_frame default_args (sheep_table (V := exact))) as [long|] eqn:El;
    [|vm_compute in El; discriminate].
  destruct (prepare default_args (sheep_table (V := exact))) as [out|e] eqn:Ep;
    [|vm_compute in Ep; discriminate].
  assert (Hrow : has_row out MLSU ("France", "Sheep", 2020%Z) (Some (20 # 10))).
  { vm_compute in Ep. injection Ep as <-.
    eexists. split; [right; right; right; left; reflexivity|].
    repeat split. }
  exists long, out.
  split; [reflexivity|]. split; [reflexivity|].
  split; [reflexivity|]. split; [reflexivity|]. split; [exact Hrow|].
  exact (lsu_is_weight_times_stock default_args sheep_table long out
           "France" "Sheep" 2020%Z (Some (20 # 10)) El Ep eq_refl eq_refl Hrow).
Defined.

(** ** What the split keeps *)

Section SplitKeeps.

Context {V : Type} `{Arith V}.




End SplitKeeps.


(** X13.  Every LSU row of the written table has a Stocks row of the
    same Area and Year in that table: livestock units are only computed
    from the stocks of that country and year, also on the rows the split
    makes. *)
Theorem lsu_rows_have_stock_rows {V} `{Arith V}
        (args : Args V) (df : RawTable V) (long : list (LongRow V))
        (out : list (OutRow V)) (a i : string) (y : Z) (v : V) :
  long_frame args df = Some long ->
  prepare args df = inl out ->
  has_row out MLSU (a, i, y) v ->
  exists i' v', has_row out MStocks (a, i', y) v'.
Proof.
  intros Hlong Hout Hrow.
  destruct (gwp_pair (gwp args)) as [g1 g2] eqn:Hgwp.
  pose proof (fun m k v => has_row_metric args df long out g1 g2 Hlong Hout Hgwp m k v) as HR.
  apply HR in Hrow. destruct Hrow as (r & Ek & _ & Hr).
  unfold rec_key3 in Ek. injection Ek as Ea _ Ey.
  assert (Hs : exists s, In s (select EStocks long) /\ Area s = Area r /\ Year s = Year r).
  { revert Hr.
    apply (lsu_frame_area_year
             (fun a' y' => exists s, In s (select EStocks long) /\
                                     Area s = a' /\ Year s = y')).
    intros s Hs. exists s. auto. }
  destruct Hs as (s & Hs & Eas & Eys).
  exists (Item s), (Value s). apply HR. exists s.
  split; [|split; [reflexivity | exact Hs]].
  unfold rec_key3. congruence.
Qed.

Lemma lsu_rows_have_stock_rows_witness :
  long_frame default_args one_row = Some one_row_long /\
  prepare default_args one_row = inl one_row_out /\
  (exists v, has_row one_row_out MLSU ("Austria", "Cattle, dairy", 2020%Z) v) /\
  exists i' v', has_row one_row_out MStocks ("Austria", i', 2020%Z) v'.
Proof.
  assert (Hl : long_frame default_args one_row = Some one_row_long)
    by (vm_compute; reflexivity).
  assert (Hp : prepare default_args one_row = inl one_row_out)
    by (vm_compute; reflexivity).
  assert (Hr : exists v, has_row one_row_out MLSU ("Austria", "Cattle, dairy", 2020%Z) v).
  { eexists.
    exists (nth 1 one_row_out
                (with_regions (mkM (mkRec "" "" 0%Z None KAll false false false) MLSU))).
    vm_compute. repeat split. tauto. }
  split; [exact Hl|]. split; [exact Hp|]. split; [exact Hr|].
  destruct Hr as (v & Hr).
  exact (lsu_rows_have_stock_rows default_args one_row one_row_long one_row_out
           "Austria" "Cattle, dairy" 2020%Z v Hl Hp Hr).
Defined.

(** ** The dairy fraction *)

Lemma dairy_frac_cases {V} `{Arith V} (args : Args V) :
  dairy_frac args = of_Z 0 \/ dairy_frac args = of_Z 1 \/
  (vltb (of_Z 0) (dairy_frac args) = true /\ vltb (dairy_frac args) (of_Z 1) = true).
Proof.
  unfold dairy_frac, pymax, pymin. cbv zeta.
  set (x := vdiv _ (of_Z 100)).
  destruct (vltb x (of_Z 1)) eqn:E1.
  - destruct (vltb (of_Z 0) x) eqn:E0; auto.
  - destruct (vltb (of_Z 0) (of_Z 1)); auto.
Qed.

(** X14.  In IEEE binary64 the dairy fraction is a number between 0.0 and
    1.0 for every value of [--dairy-share], also a negative one, one
    above 100, an infinity or NaN. *)
Theorem dairy_frac_binary64_bounds (args : Args binary64) :
  b64_isnan (dairy_frac args) = false /\
  SpecFloat.SFleb (of_Z 0) (dairy_frac args) = true /\
  SpecFloat.SFleb (dairy_frac args) (of_Z 1) = true.
Proof.
  destruct (dairy_frac_cases args) as [E | [E | [E0 E1]]].
  - rewrite E. repeat split; reflexivity.
  - rewrite E. repeat split; reflexivity.
  - change (SpecFloat.SFltb (of_Z 0) (dairy_frac args) = true) in E0.
    change (SpecFloat.SFltb (dairy_frac args) (of_Z 1) = true) in E1.
    unfold SpecFloat.SFltb in E0, E1. unfold SpecFloat.SFleb.
    destruct (SpecFloat.SFcompare (of_Z 0) (dairy_frac args)) as [[]|] eqn:C0;
      try discriminate.
    destruct (SpecFloat.SFcompare (dairy_frac args) (of_Z 1)) as [[]|] eqn:C1;
      try discriminate.
    repeat split; try reflexivity.
    destruct (dairy_frac args); try reflexivity. vm_compute in C0. discriminate.
Qed.

(** ** Year columns *)

Lemma traverse_total {A B} (f : A -> option B) (l : list A) :
  (forall x, In x l -> f x <> None) ->
  exists l', traverse f l = Some l' /\ List.length l' = List.length l.
Proof.
  induction l as [|x t IH]; intros Hf; simpl.
  - exists []. auto.
  - destruct (f x) as [y|] eqn:Ex.
    + destruct IH as (l' & -> & El); [intros z Hz; apply Hf; now right|].
      exists (y :: l'). simpl. auto.
    + exfalso. apply (Hf x); [now left | exact Ex].
Qed.

Lemma digit_val_range (c : ascii) (d : Z) :
  Str.digit_val c = Some d -> (0 <= d <= 9)%Z.
Proof.
  unfold Str.digit_val, Str.between.
  destruct (N.leb 48 (Str.code c) && N.leb (Str.code c) 57) eqn:E; [|discriminate].
  intros K. injection K as <-.
  apply andb_true_iff in E. destruct E as [E1 E2].
  apply N.leb_le in E1. apply N.leb_le in E2. lia.
Qed.

Lemma parse_int_from_bound (s : string) (acc : Z) :
  (0 <= acc)%Z -> ascii_digits s = true ->
  exists v, Str.parse_int_from acc s = Some v /\
            (0 <= v < (acc + 1) * 10 ^ Z.of_nat (String.length s))%Z.
Proof.
  revert acc. induction s as [|c r IH]; intros acc Ha Hd.
  - exists acc. split; [reflexivity|]. simpl. lia.
  - simpl in Hd. apply andb_true_iff in Hd. destruct Hd as [Hc Hr].
    cbn [Str.parse_int_from].
    destruct (Str.digit_val c) as [d|] eqn:Ed;
      [|unfold Str.digit_val in Ed; rewrite Hc in Ed; discriminate].
    pose proof (digit_val_range c d Ed) as Hrange.
    destruct (IH (10 * acc + d)%Z ltac:(lia) Hr) as (v & Ev & Hv).
    exists v. split; [exact Ev|].
    cbn [String.length]. rewrite Nat2Z.inj_succ, Z.pow_succ_r by lia.
    assert (Hp : (0 < 10 ^ Z.of_nat (String.length r))%Z)
      by (apply Z.pow_pos_nonneg; lia).
    nia.
Qed.

Lemma year_col_converts (c : string) :
  is_year_col c = true -> ascii_digits (Str.tail c) = true ->
  (String.length (Str.tail c) <= 9)%nat ->
  exists y, astype_int (Str.tail c) = Some y.
Proof.
  unfold is_year_col, Str.isdigit, astype_int, Str.parse_int. intros Hy Hd Hlen.
  apply andb_true_iff in Hy. destruct Hy as [_ Hy].
  apply andb_true_iff in Hy. destruct Hy as [Hne _].
  apply negb_true_iff in Hne. rewrite Hne.
  destruct (parse_int_from_bound (Str.tail c) 0 ltac:(lia) Hd) as (v & -> & Hv).
  assert (Hpow : (10 ^ Z.of_nat (String.length (Str.tail c)) <= 10 ^ 9)%Z)
    by (apply Z.pow_le_mono_r; lia).
  assert (Hlt : (v < 2 ^ 63)%Z).
  { assert (H9 : (10 ^ 9 < 2 ^ 63)%Z) by reflexivity. lia. }
  apply Z.ltb_lt in Hlt. rewrite Hlt. now exists v.
Qed.

(** X15.  On a table without a column named "Value", whose year columns
    carry at most nine digits after the "Y", all of them ASCII digits
    0-9, lines 158-162 do not raise: neither [melt] nor the conversion
    of Year to integers (nine digits fit a 32-bit C long as well).  The
    frame [long] then holds one row for each year column and each row of
    [df] kept at line 144. *)
Theorem melt_row_count {V} `{Arith V} (args : Args V) (df : RawTable V) :
  Str.mem "Value" (columns df) = false ->
  (forall c, In c (columns df) -> is_year_col c = true ->
             ascii_digits (Str.tail c) = true /\
             (String.length (Str.tail c) <= 9)%nat) ->
  exists long,
    long_frame args df = Some long /\
    List.length long
    = (List.length (detect_year_cols (columns df))
       * List.length (flagged (truthy (only_livestock_total args)) (rows df)))%nat.
Proof.
  intros Hval Hcols. unfold long_frame, melt. rewrite Hval.
  destruct (traverse_total melt_row
              (list_prod (detect_year_cols (columns df))
                         (flagged (truthy (only_livestock_total args)) (rows df))))
    as (long & El & Elen).
  - intros [c d] Hcd. apply in_prod_iff in Hcd. destruct Hcd as [Hc _].
    unfold detect_year_cols in Hc. apply filter_In in Hc. destruct Hc as [Hc Hy].
    destruct (Hcols c Hc Hy) as [Hd Hlen].
    destruct (year_col_converts c Hy Hd Hlen) as (y & Ey).
    unfold melt_row. rewrite Ey. discriminate.
  - exists long. split; [exact El|]. rewrite Elen. apply length_prod.
Qed.

Lemma melt_row_count_witness :
  Str.mem "Value" (columns (sheep_table (V := exact))) = false /\
  (forall c, In c (columns (sheep_table (V := exact))) -> is_year_col c = true ->
             ascii_digits (Str.tail c) = true /\
             (String.length (Str.tail c) <= 9)%nat) /\
  (exists long,
     long_frame default_args (sheep_table (V := exact)) = Some long /\
     List.length long = (2 * 3)%nat).
Proof.
  assert (Hc : forall c, In c (columns (sheep_table (V := exact))) ->
                         is_year_col c = true ->
                         ascii_digits (Str.tail c) = true /\
                         (String.length (Str.tail c) <= 9)%nat).
  { intros c Hin Hy. simpl in Hin.
    destruct Hin as [<- | [<- | [<- | [<- | [<- | []]]]]];
      solve [split; [reflexivity | simpl; lia] | vm_compute in Hy; discriminate]. }
  split; [reflexivity|]. split; [exact Hc|].
  exact (melt_row_count default_args sheep_table eq_refl Hc).
Defined.

(** ** A run that succeeds *)

Lemma prepared_concat_nonempty {V} `{Arith V} (args : Args V) (long : list (LongRow V)) :
  prepared args long <> [] -> List.concat (prepared args long) <> [].
Proof.
  intros Hp Hc. destruct (gwp_pair (gwp args)) as [g1 g2] eqn:Eg.
  rewrite (concat_prepared args long g1 g2 Eg) in Hc.
  apply app_eq_nil in Hc. destruct Hc as [Hs Hc].
  apply app_eq_nil in Hc. destruct Hc as [Hch Hc].
  apply app_eq_nil in Hc. destruct Hc as [Hn _].
  unfold tag in Hs, Hch, Hn.
  apply map_eq_nil in Hs. apply map_eq_nil in Hch. apply map_eq_nil in Hn.
  assert (Ec : empty (scale g1 (select ECH4 long)) = true)
    by (rewrite <- groupby_sum_empty, Hch; reflexivity).
  assert (En : empty (scale g2 (select EN2O long)) = true)
    by (rewrite <- groupby_sum_empty, Hn; reflexivity).
  apply Hp. unfold prepared. rewrite Eg, Hs, Ec, En. reflexivity.
Qed.

Lemma path_eqb_eq (p q : list string) : path_eqb p q = true <-> p = q.
Proof.
  unfold path_eqb. destruct (list_eq_dec string_dec p q); split; congruence.
Qed.

Lemma find_file_replaced {V} (p q : list string) (fs : list (list string * RawTable V)) :
  p <> q ->
  find_file p (filter (fun f => negb (path_eqb q (fst f))) fs) = find_file p fs.
Proof.
  intros Hpq. induction fs as [|[r t] fs IH]; simpl; [reflexivity|].
  destruct (path_eqb q r) eqn:Eq; simpl.
  - apply path_eqb_eq in Eq. subst r.
    destruct (path_eqb p q) eqn:Ep; [apply path_eqb_eq in Ep; contradiction | exact IH].
  - rewrite IH. reflexivity.
Qed.

(** X16.  A run of [main] that returns has found the input, has made the
    folder of the output path, no folder on the way to it being a file,
    and has written exactly one table: the one [prepare] computes from
    the input, which has at least one row.  That table is now the file
    at the output path, whatever was there before, the input included;
    every other file is as it was.  Without [--output] the folder is the
    one of the input. *)
Theorem main_success_writes_one_table {V} `{Arith V}
        (args : Args V) (w w' : World V) :
  main args w = (w', inl tt) ->
  exists df out,
    find_file (input args) (inputs w) = Some df /\
    prepare args df = inl out /\
    out <> [] /\
    written w' = (outp args, out) :: written w /\
    find_file (outp args) (inputs w') = Some (as_raw out) /\
    (forall p, p <> outp args -> find_file p (inputs w') = find_file p (inputs w)) /\
    made_dirs w' = parent (outp args) :: made_dirs w /\
    (forall q, In q (ancestors (parent (outp args))) -> is_file q w = false) /\
    (output args = [] -> parent (outp args) = parent (input args)).
Proof.
  unfold main, bind, path_exists, read_csv, mkdir_parents, sys_exit, raise,
    to_csv, print.
  destruct (is_file (input args) w || is_dir (input args) w); simpl; [|discriminate].
  destruct (find (fun q => is_file q w) (ancestors (parent (outp args)))) eqn:Eanc;
    [discriminate|].
  simpl.
  destruct (find_file (input args) (inputs w)) as [df|] eqn:Ef; [|discriminate].
  destruct (prepare args df) as [out|e] eqn:Ep; [|discriminate].
  destruct (is_dir (outp args) _); [discriminate|].
  intros E. injection E as <-. exists df, out. simpl.
  split; [reflexivity|]. split; [exact Ep|].
  split; [|split; [reflexivity|split; [|split; [|split; [reflexivity|split]]]]].
  - destruct (prepare_inl _ _ _ Ep) as (long & El & -> & _ & _ & Hne).
    rewrite (finish_wf _ (prepared_wf args df long El)).
    pose proof (prepared_concat_nonempty args long Hne) as Hc.
    intros Hm. apply Hc.
    apply map_eq_nil in Hm.
    apply Permutation_nil. rewrite <- Hm. apply sort_by_perm.
  - rewrite (proj2 (path_eqb_eq (outp args) (outp args)) eq_refl). reflexivity.
  - intros p Hp.
    destruct (path_eqb p (outp args)) eqn:Epo;
      [apply path_eqb_eq in Epo; contradiction|].
    now apply find_file_replaced.
  - intros q Hq. exact (find_none _ _ Eanc q Hq).
  - intros Ho. unfold outp, parent. rewrite Ho. simpl. apply removelast_last.
Qed.

Lemma main_success_writes_one_table_witness :
  exists df out,
    find_file (input default_args) (inputs (world_of (one_row (V := exact)))) = Some df /\
    prepare default_args df = inl out /\
    out <> [] /\
    written (fst (main default_args (world_of (one_row (V := exact)))))
    = (outp default_args, out) :: [].
Proof.
  destruct (main_success_writes_one_table default_args (world_of (one_row (V := exact)))
              (fst (main default_args (world_of one_row))))
    as (df & out & Hf & Hp & Hne & Hw & _).
  - vm_compute. reflexivity.
  - exists df, out. repeat split; assumption.
Defined.

(** ** Rows that are not used *)

(** X17.  Take two tables as [pd.read_csv] returns them, with the same
    columns and numeric year columns, that differ by one row whose Item
    is on the stop list or whose Element is not recognised as Stocks, CH4
    or N2O.  The row does not reach [df], and the two runs end alike:
    the same table is written, or the same exit taken, whatever numbers
    the year cells of the row hold. *)
Theorem unused_rows_do_not_matter {V} `{Arith V}
        (args : Args V) (names : list string)
        (pre post : list (RawRow V)) (x : RawRow V) :
  excluded (raw_Item x) = true \/
  normalize_element (Str.strip (raw_Element x)) = None ->
  flagged (truthy (only_livestock_total args)) (pre ++ x :: post)
  = flagged (truthy (only_livestock_total args)) (pre ++ post) /\
  prepare args (mkTable names (pre ++ x :: post))
  = prepare args (mkTable names (pre ++ post)).
Proof.
  intros Hx.
  assert (Hf : flagged (truthy (only_livestock_total args)) (pre ++ x :: post)
               = flagged (truthy (only_livestock_total args)) (pre ++ post)).
  { rewrite flagged_insert, flagged_app.
    rewrite (unused_row_flagged _ x); [reflexivity | tauto]. }
  split; [exact Hf|].
  unfold prepare, long_frame, missing_columns. simpl. rewrite Hf. reflexivity.
Qed.

Lemma unused_rows_do_not_matter_witness :
  excluded " chickens" = true /\
  prepare (V := exact) default_args
    (mkTable header ([austria_cattle] ++ mkRaw "Austria" " chickens" "Stocks" [("Y2020", Some 9%Q)] :: []))
  = prepare default_args (mkTable header ([austria_cattle] ++ [])).
Proof.
  split; [reflexivity|].
  apply (unused_rows_do_not_matter (V := exact) default_args header [austria_cattle] []
           (mkRaw "Austria" " chickens" "Stocks" [("Y2020", Some 9%Q)])).
  left. reflexivity.
Defined.

(** ** The filter script and the dashboard *)

Import Downstream.

Lemma keep_mask_metric {V} (r : OutRow V) :
  keep_mask r = match Metric (o_row r) with
                | MStocks | MTotal_CO2e => true
                | _ => false
                end.
Proof. unfold keep_mask. destruct (Metric (o_row r)); reflexivity. Qed.

Lemma in_scope_metric {V} (r : OutRow V) :
  in_scope r = match Metric (o_row r) with
               | MStocks | MTotal_CO2e => true
               | _ => false
               end.
Proof. unfold in_scope. destruct (Metric (o_row r)); reflexivity. Qed.

Lemma filter_in_scope_keep {V} (l : list (OutRow V)) :
  filter in_scope l = filter keep_mask l.
Proof.
  apply filter_ext. intros r. rewrite keep_mask_metric, in_scope_metric. reflexivity.
Qed.

(** X18.  The filter script, run on a table the preprocessor wrote, never
    stops for a missing column; it keeps the column order, and its rows
    are rows of that table of metric Stocks or Total_CO2e, in their
    order.  The dashboard's [load_prepared] accepts the filtered table
    and drops nothing from it; without [--drop-zero] what it loads from
    the table itself is the filtered table. *)
Theorem filter_then_dashboard {V} `{Arith V} (drop_zero : bool) (out : list (OutRow V)) :
  exists t,
    filter_total_and_stocks drop_zero (as_read out) = inl t /\
    p_columns t = cols /\
    p_rows t = filter (fun r => (if drop_zero then nonzero r else true)
                                && match Metric (o_row r) with
                                   | MStocks | MTotal_CO2e => true
                                   | _ => false
                                   end) out /\
    load_prepared t = Some t /\
    load_prepared (as_read out)
    = (if drop_zero then load_prepared (as_read out) else Some t).
Proof.
  assert (Hrows : (if drop_zero && Str.mem "Value" cols
                   then filter nonzero (filter keep_mask out)
                   else filter keep_mask out)
                  = filter (fun r => (if drop_zero then nonzero r else true)
                                && match Metric (o_row r) with
                                   | MStocks | MTotal_CO2e => true
                                   | _ => false
                                   end) out).
  { destruct drop_zero; simpl.
    - rewrite filter_comm.
      induction out as [|r l IH]; simpl; [reflexivity|].
      rewrite <- keep_mask_metric.
      destruct (nonzero r); simpl; [destruct (keep_mask r); simpl; rewrite IH; reflexivity|].
      exact IH.
    - apply filter_ext. intros r. apply keep_mask_metric. }
  eexists. split; [unfold filter_total_and_stocks, as_read; simpl; reflexivity|].
  split; [reflexivity|]. simpl p_rows.
  split; [exact Hrows|].
  assert (Hin : forall l : list (OutRow V),
             filter in_scope (if drop_zero && Str.mem "Value" cols
                              then filter nonzero (filter keep_mask l)
                              else filter keep_mask l)
             = (if drop_zero && Str.mem "Value" cols
                then filter nonzero (filter keep_mask l)
                else filter keep_mask l)).
  { intros l. apply filter_all. intros r Hr.
    assert (Hk : In r (filter keep_mask l)).
    { destruct (drop_zero && Str.mem "Value" cols); [|exact Hr].
      apply filter_In in Hr. tauto. }
    apply filter_In in Hk. destruct Hk as [_ Hk].
    rewrite in_scope_metric. rewrite keep_mask_metric in Hk. exact Hk. }
  split.
  - unfold load_prepared. simpl p_columns. simpl p_rows.
    change (negb (empty (filter (fun c => negb (Str.mem c cols)) need))) with false.
    cbv iota. rewrite Hin. reflexivity.
  - destruct drop_zero; [reflexivity|]. unfold load_prepared, as_read. simpl.
    rewrite filter_in_scope_keep. reflexivity.
Qed.

Lemma normalize_kind_value_cases (v : string) :
  normalize_kind_value v = "All" \/ normalize_kind_value v = "aggregated" \/
  normalize_kind_value v = "atomic".
Proof.
  unfold normalize_kind_value.
  destruct (Str.mem _ ["all"; "all animals"; "all_animals"]); [now left|].
  destruct (Str.mem _ ["aggregated"; "aggregate"]); [right; now left | right; now right].
Qed.

(** X19.  The dashboard's [normalize_kind_value] sends every text to one
    of the three kinds the preprocessor writes in [item_kind], leaves
    these three as they are, and so is idempotent; it does not look at
    case or at surrounding whitespace. *)
Theorem normalize_kind_value_buckets (v : string) :
  (exists k, normalize_kind_value v = kind_name k) /\
  (forall k, normalize_kind_value (kind_name k) = kind_name k) /\
  normalize_kind_value (normalize_kind_value v) = normalize_kind_value v /\
  normalize_kind_value (Str.strip v) = normalize_kind_value v /\
  normalize_kind_value (Str.lower v) = normalize_kind_value v.
Proof.
  split; [|split; [|split; [|split]]].
  - destruct (normalize_kind_value_cases v) as [E | [E | E]]; rewrite E.
    + now exists KAll.
    + now exists KAggregated.
    + now exists KAtomic.
  - intros k. destruct k; reflexivity.
  - destruct (normalize_kind_value_cases v) as [E | [E | E]]; rewrite E; reflexivity.
  - unfold normalize_kind_value. rewrite strip_idem. reflexivity.
  - unfold normalize_kind_value. rewrite strip_lower, lower_idem. reflexivity.
Qed.
